(** * mcp-node-fetch: the three tool handlers of [src/index.ts]

    A shallow embedding of [handleFetchUrl], [handleExtractHtmlFragment] and
    [handleCheckStatus] (the last revision of [src/src/index.js]) and the
    properties of the request/response pipeline that the specification states
    about them.

    The handlers are [async] functions that talk to three libraries: undici's
    [fetch], jsdom's [JSDOM] and the engine's [JSON] object.  The libraries are
    not part of the repository; they are the fields of an environment record
    [Env], and every theorem holds for every environment.  What a handler does
    to the outside world (log lines, the HTTP request, reading the body,
    parsing it) is recorded in a trace of [Event]s, and a JavaScript exception
    is the left summand of the result. *)

From Stdlib Require Import String Ascii List ZArith QArith Bool Lia.
From Stdlib Require Import Strings.Byte DecimalString.
From Stdlib Require DecimalPos DecimalZ.
Import ListNotations.

Local Open Scope list_scope.
Local Open Scope string_scope.
Local Open Scope Z_scope.

(** ** JavaScript values *)

Module Js.

(** A JavaScript [number] that is not [NaN] or infinite: every finite double
    is a rational. *)
Definition number : Type := Q.

(** [Error]: only its [message] is ever read by the handlers. *)
Record Error : Type := mkError { message : string }.

(** The values the handlers put into a result object: a number (a status
    code or a count), a string, a boolean, an array of strings (the matched
    elements' markup) and a record of strings (the response headers).  An
    object keeps its properties in insertion order. *)
Inductive value : Type :=
| JNum (n : Z)
| JStr (s : string)
| JBool (b : bool)
| JArr (items : list string)
| JRec (props : list (string * string)).

Definition object : Type := list (string * value).

(** Truthiness, as [if (x)] and [x || y] read it. *)
Definition truthy_string (s : string) : bool :=
  match s with
  | EmptyString => false
  | String _ _ => true
  end.

Definition truthy_number (n : number) : bool := negb (Qeq_bool n 0).

(** [if (x)] for an optional argument: [undefined] is falsy. *)
Definition truthy_opt {A : Type} (truthy : A -> bool) (x : option A) : bool :=
  match x with
  | Some a => truthy a
  | None => false
  end.

(** [x || undefined] on an optional string, and the [x] that [if (x)] lets
    through: a string that is not empty, or nothing. *)
Definition nonempty (x : option string) : option string :=
  match x with
  | Some s => if truthy_string s then Some s else None
  | None => None
  end.

(** The [x] that [if (x)] lets through, for an optional number. *)
Definition nonzero (x : option number) : option number :=
  match x with
  | Some n => if truthy_number n then Some n else None
  | None => None
  end.

(** [x || {}] on an optional record of headers: an object is always truthy. *)
Definition or_empty {A : Type} (x : option (list A)) : list A :=
  match x with
  | Some l => l
  | None => []
  end.

(** [obj[k]]. *)
Fixpoint get (k : string) (o : object) : option value :=
  match o with
  | [] => None
  | (k', v) :: rest => if String.eqb k k' then Some v else get k rest
  end.

(** [obj[k] = v]: an existing property keeps its place, a new one goes last. *)
Fixpoint set (k : string) (v : value) (o : object) : object :=
  match o with
  | [] => [(k, v)]
  | (k', v') :: rest =>
      if String.eqb k k' then (k', v) :: rest else (k', v') :: set k v rest
  end.

(** [Object.fromEntries] on header entries: a later entry of the same name
    overwrites the earlier one. *)
Fixpoint put (k v : string) (o : list (string * string)) : list (string * string) :=
  match o with
  | [] => [(k, v)]
  | (k', v') :: rest =>
      if String.eqb k k' then (k', v) :: rest else (k', v') :: put k v rest
  end.

Definition fromEntries (entries : list (string * string)) : value :=
  JRec (fold_left (fun o kv => put (fst kv) (snd kv) o) entries []).

(** [xs.join(sep)]. *)
Definition join (sep : string) (xs : list string) : string := String.concat sep xs.

(** The line feed of ['\n'] and the double quote of a template string. *)
Definition LF : string := String (ascii_of_nat 10) EmptyString.
Definition quote : string := String (ascii_of_nat 34) EmptyString.

(** A template placeholder [${n}] for an integer [n]. *)
Definition string_of_Z (n : Z) : string := NilZero.string_of_int (Z.to_int n).

(** [s.includes(sub)]. *)
Definition includes (s sub : string) : Prop :=
  exists pre post : string, s = pre ++ sub ++ post.

End Js.

Import Js.

(** ** The HTTP capability's data *)

Module Http.

Inductive Method : Type := GET | POST | PUT | DELETE | HEAD | OPTIONS | PATCH.

Definition method_name (m : Method) : string :=
  match m with
  | GET => "GET" | POST => "POST" | PUT => "PUT" | DELETE => "DELETE"
  | HEAD => "HEAD" | OPTIONS => "OPTIONS" | PATCH => "PATCH"
  end.

Inductive RedirectMode : Type := follow | manual.

(** The [options] object handed to [fetch].  A property the handler does not
    write is [None]. *)
Record RequestInit : Type := mkInit {
  method : Method;
  headers : option (list (string * string));
  body : option string;
  redirect : option RedirectMode;
  bodyTimeout : option number;
  headersTimeout : option number
}.

(** What [fetch] resolves to.  [payload] is what reading the body to its end
    gives: the bytes, or the fault that interrupts the read. *)
Record Response : Type := mkResponse {
  status : Z;
  statusText : string;
  entries : list (string * string);
  url : string;
  payload : Error + list byte
}.

(** [response.ok], the getter of the Fetch Standard that undici implements:
    true when the status is an ok status, one in the range 200 to 299
    inclusive. *)
Definition ok (r : Response) : bool := (200 <=? status r) && (status r <=? 299).

End Http.

Import Http.

(** ** Effects: a trace of events and JavaScript exceptions *)

Module Effect.

Inductive BodyReader : Type := text | json | arrayBuffer.

(** What a handler does to the outside world, in the order it does it. *)
Inductive Event : Type :=
| ConsoleError (line : string) (thrown : option Error)
| Fetch (target : string) (options : RequestInit)
| ReadBody (how : BodyReader)
| ParseHtml (markup : string).

(** A computation that has emitted some events and either threw or returned. *)
Definition M (A : Type) : Type := (list Event * (Error + A))%type.

Definition ret {A : Type} (a : A) : M A := ([], inr a).

Definition throw {A : Type} (e : Error) : M A := ([], inl e).

Definition bind {A B : Type} (m : M A) (k : A -> M B) : M B :=
  match m with
  | (t, inl e) => (t, inl e)
  | (t, inr a) => let (t', r) := k a in ((t ++ t')%list, r)
  end.

(** [try { m } catch (e) { h e }]. *)
Definition try_catch {A : Type} (m : M A) (h : Error -> M A) : M A :=
  match m with
  | (t, inl e) => let (t', r) := h e in ((t ++ t')%list, r)
  | (t, inr a) => (t, inr a)
  end.

Definition emit (ev : Event) : M unit := ([ev], inr tt).

(** An operation of a library: one event, then its outcome. *)
Definition perform {A : Type} (ev : Event) (outcome : Error + A) : M A :=
  ([ev], outcome).

(** A synchronous call into a library that leaves no event. *)
Definition call {A : Type} (outcome : Error + A) : M A := ([], outcome).

Definition trace {A : Type} (m : M A) : list Event := fst m.
Definition outcome {A : Type} (m : M A) : Error + A := snd m.

End Effect.

Import Effect.

Declare Scope js_scope.
Delimit Scope js_scope with js.
Notation "x <- m ;; k" := (bind m (fun x => k))
  (at level 61, m at next level, right associativity) : js_scope.
Notation "m ;; k" := (bind m (fun _ => k))
  (at level 61, right associativity) : js_scope.
Local Open Scope js_scope.

(** ** The libraries the handlers call *)

(** undici's [fetch] and [Response], jsdom's [JSDOM] with the DOM's
    [querySelectorAll], [getElementById] and [outerHTML], the engine's [JSON]
    and [TextDecoder], and Node's [Buffer].  None of them is in the repository.
    [Json] is the type of the values [response.json()] resolves to.  The one
    law is the DOM's: the empty string is not a selector, so
    [querySelectorAll("")] throws a [SyntaxError]. *)
Record Env : Type := mkEnv {
  Json : Type;
  Document : Type;
  Element : Type;
  fetch : string -> RequestInit -> Error + Response;
  decode : list byte -> string;
  base64 : list byte -> string;
  JSON_parse : string -> Error + Json;
  JSON_stringify_parsed : Json -> string;
  JSON_stringify : object -> string;
  JSDOM : string -> Error + Document;
  querySelectorAll : Document -> string -> Error + list Element;
  getElementById : Document -> string -> option Element;
  outerHTML : Element -> string;
  empty_selector_invalid :
    forall d : Document, exists e : Error, querySelectorAll d "" = inl e
}.

(** ** The tools' arguments and results *)

Module ResponseType.
Inductive t : Type := text | json | binary | html_fragment.
End ResponseType.

(** [z.infer<typeof FetchUrlArgsSchema>]: the arguments after validation, the
    defaults filled in. *)
Module FetchUrlArgs.
Record t : Type := mk {
  url : string;
  method : Method;
  headers : option (list (string * string));
  body : option string;
  timeout : option number;
  responseType : ResponseType.t;
  followRedirects : bool;
  fragmentSelector : option string
}.
End FetchUrlArgs.

Module ExtractHtmlFragmentArgs.
(** [method] is [GET] or [POST]: the schema admits no other. *)
Record t : Type := mk {
  url : string;
  selector : string;
  anchorId : option string;
  method : Method;
  headers : option (list (string * string));
  body : option string;
  timeout : option number;
  followRedirects : bool
}.
End ExtractHtmlFragmentArgs.

Module CheckStatusArgs.
Record t : Type := mk {
  url : string;
  timeout : option number
}.
End CheckStatusArgs.

Module Mcp.
Record TextContent : Type := mkText { type : string; text : string }.

(** [isError] is [false] where the source leaves the property out. *)
Record CallToolResult : Type := mkResult {
  isError : bool;
  content : list TextContent
}.
End Mcp.

(** ** The handlers *)

Section Handlers.

Variable E : Env.

Definition console_error (line : string) : M unit :=
  emit (ConsoleError line None).

Definition console_error_with (line : string) (error : Error) : M unit :=
  emit (ConsoleError line (Some error)).

(** [await fetch(url, options)]. *)
Definition await_fetch (target : string) (options : RequestInit) : M Response :=
  perform (Fetch target options) (fetch E target options).

(** [await response.text()]. *)
Definition response_text (response : Response) : M string :=
  perform (ReadBody text)
    match payload response with
    | inl e => inl e
    | inr bytes => inr (decode E bytes)
    end.

(** [await response.json()]. *)
Definition response_json (response : Response) : M (Json E) :=
  perform (ReadBody json)
    match payload response with
    | inl e => inl e
    | inr bytes => JSON_parse E (decode E bytes)
    end.

(** [await response.arrayBuffer()]. *)
Definition response_arrayBuffer (response : Response) : M (list byte) :=
  perform (ReadBody arrayBuffer) (payload response).

(** [new JSDOM(html).window.document]. *)
Definition new_JSDOM (html : string) : M (Document E) :=
  perform (ParseHtml html) (JSDOM E html).

(** [{ content: [{ type: "text", text: JSON.stringify(result, null, 2) }] }]. *)
Definition success (result : object) : Mcp.CallToolResult :=
  Mcp.mkResult false [Mcp.mkText "text" (JSON_stringify E result)].

(** [{ isError: true, content: [{ type: "text", text }] }]. *)
Definition failure (text : string) : Mcp.CallToolResult :=
  Mcp.mkResult true [Mcp.mkText "text" text].

(** The messages of the errors the handlers throw themselves. *)
Definition no_elements_found (selector : string) : string :=
  "No elements found matching selector " ++ quote ++ selector ++ quote.

Definition anchor_not_found (anchorId : string) : string :=
  "Anchor element with ID " ++ quote ++ anchorId ++ quote ++ " not found".

Definition http_failure (response : Response) : string :=
  "Failed to fetch URL: HTTP " ++ string_of_Z (status response) ++ " "
    ++ statusText response.

(** *** fetch-url *)

(** The [options] of [handleFetchUrl], after the [if (timeout)] block. *)
Definition fetchUrlOptions (args : FetchUrlArgs.t) : RequestInit :=
  {| method := FetchUrlArgs.method args;
     headers := Some (or_empty (FetchUrlArgs.headers args));
     body := nonempty (FetchUrlArgs.body args);
     redirect := Some (if FetchUrlArgs.followRedirects args then follow else manual);
     bodyTimeout := nonzero (FetchUrlArgs.timeout args);
     headersTimeout := nonzero (FetchUrlArgs.timeout args) |}.

(** The result object with the response's metadata. *)
Definition metadata (response : Response) : object :=
  [ ("status", JNum (status response));
    ("statusText", JStr (statusText response));
    ("headers", fromEntries (entries response));
    ("url", JStr (url response)) ].

(** The [switch (responseType)] of [handleFetchUrl]: it fills in [result]. *)
Definition processResponse (args : FetchUrlArgs.t) (response : Response)
    (result : object) : M object :=
  match FetchUrlArgs.responseType args with
  | ResponseType.json =>
      try_catch
        (jsonContent <- response_json response ;;
         ret (set "content" (JStr (JSON_stringify_parsed E jsonContent)) result))
        (fun e => throw (mkError ("Failed to parse response as JSON: " ++ message e)))
  | ResponseType.binary =>
      buffer <- response_arrayBuffer response ;;
      let result := set "content" (JStr (base64 E buffer)) result in
      ret (set "encoding" (JStr "base64") result)
  | ResponseType.html_fragment =>
      try_catch
        (htmlContent <- response_text response ;;
         document <- new_JSDOM htmlContent ;;
         result <-
           match nonempty (FetchUrlArgs.fragmentSelector args) with
           | Some fragmentSelector =>
               elements <- call (querySelectorAll E document fragmentSelector) ;;
               match elements with
               | [] => throw (mkError (no_elements_found fragmentSelector))
               | [el] =>
                   let result := set "content" (JStr (outerHTML E el)) result in
                   ret (set "matchCount" (JNum (Z.of_nat (length elements))) result)
               | _ =>
                   let result :=
                     set "content" (JStr (join LF (map (outerHTML E) elements))) result in
                   ret (set "matchCount" (JNum (Z.of_nat (length elements))) result)
               end
           | None => ret (set "content" (JStr htmlContent) result)
           end ;;
         ret (set "contentType" (JStr "text/html") result))
        (fun e =>
           throw (mkError ("Failed to parse or extract HTML fragment: " ++ message e)))
  | ResponseType.text =>
      content <- response_text response ;;
      ret (set "content" (JStr content) result)
  end.

(** The [try] block of [handleFetchUrl], up to the result object it
    serializes. *)
Definition fetchUrlResult (args : FetchUrlArgs.t) : M object :=
  let url := FetchUrlArgs.url args in
  console_error ("Fetching " ++ url ++ " with method "
                   ++ method_name (FetchUrlArgs.method args)) ;;
  response <- await_fetch url (fetchUrlOptions args) ;;
  processResponse args response (metadata response).

Definition handleFetchUrl (args : FetchUrlArgs.t) : M Mcp.CallToolResult :=
  try_catch
    (result <- fetchUrlResult args ;;
     ret (success result))
    (fun error =>
       console_error_with "Error fetching URL:" error ;;
       ret (failure ("Error fetching URL: " ++ message error))).

(** *** extract-html-fragment *)

Definition extractOptions (args : ExtractHtmlFragmentArgs.t) : RequestInit :=
  {| method := ExtractHtmlFragmentArgs.method args;
     headers := Some (or_empty (ExtractHtmlFragmentArgs.headers args));
     body := nonempty (ExtractHtmlFragmentArgs.body args);
     redirect :=
       Some (if ExtractHtmlFragmentArgs.followRedirects args then follow else manual);
     bodyTimeout := nonzero (ExtractHtmlFragmentArgs.timeout args);
     headersTimeout := nonzero (ExtractHtmlFragmentArgs.timeout args) |}.

(** The [if (anchorId)] block: it throws or does nothing. *)
Definition checkAnchor (document : Document E) (anchorId : option string) : M unit :=
  match nonempty anchorId with
  | Some anchorId =>
      match getElementById E document anchorId with
      | Some _ => ret tt
      | None => throw (mkError (anchor_not_found anchorId))
      end
  | None => ret tt
  end.

(** The [try] block of [handleExtractHtmlFragment], up to the result object
    it serializes. *)
Definition extractHtmlFragmentResult (args : ExtractHtmlFragmentArgs.t) : M object :=
  let url := ExtractHtmlFragmentArgs.url args in
  let selector := ExtractHtmlFragmentArgs.selector args in
  console_error ("Extracting HTML fragment from " ++ url ++ " using selector "
                   ++ quote ++ selector ++ quote) ;;
  response <- await_fetch url (extractOptions args) ;;
  (if ok response then ret tt else throw (mkError (http_failure response))) ;;
  html <- response_text response ;;
  document <- new_JSDOM html ;;
  checkAnchor document (ExtractHtmlFragmentArgs.anchorId args) ;;
  elements <- call (querySelectorAll E document selector) ;;
  match elements with
  | [] => throw (mkError (no_elements_found selector))
  | _ =>
      let result :=
        [ ("status", JNum (status response));
          ("statusText", JStr (statusText response));
          ("url", JStr (Http.url response));
          ("selector", JStr selector);
          ("matchCount", JNum (Z.of_nat (length elements))) ] in
      match elements with
      | [el] => ret (set "html" (JStr (outerHTML E el)) result)
      | _ => ret (set "html" (JArr (map (outerHTML E) elements)) result)
      end
  end.

Definition handleExtractHtmlFragment (args : ExtractHtmlFragmentArgs.t)
    : M Mcp.CallToolResult :=
  try_catch
    (result <- extractHtmlFragmentResult args ;;
     ret (success result))
    (fun error =>
       console_error_with "Error extracting HTML fragment:" error ;;
       ret (failure ("Error extracting HTML fragment: " ++ message error))).

(** *** check-status *)

Definition checkStatusOptions (args : CheckStatusArgs.t) : RequestInit :=
  {| method := HEAD;
     headers := None;
     body := None;
     redirect := None;
     bodyTimeout := None;
     headersTimeout := nonzero (CheckStatusArgs.timeout args) |}.

(** The [try] block of [handleCheckStatus], up to the result object it
    serializes. *)
Definition checkStatusResult (args : CheckStatusArgs.t) : M object :=
  let url := CheckStatusArgs.url args in
  console_error ("Checking status of " ++ url) ;;
  response <- await_fetch url (checkStatusOptions args) ;;
  ret [ ("status", JNum (status response));
        ("statusText", JStr (statusText response));
        ("headers", fromEntries (entries response));
        ("url", JStr (Http.url response));
        ("isAvailable", JBool (ok response)) ].

Definition handleCheckStatus (args : CheckStatusArgs.t) : M Mcp.CallToolResult :=
  try_catch
    (result <- checkStatusResult args ;;
     ret (success result))
    (fun error =>
       console_error_with "Error checking URL status:" error ;;
       ret (failure ("Error checking URL status: " ++ message error))).

End Handlers.

(** ** The redirect policy of the HTTP capability *)

Module Redirects.

Section Policy.

(** One request and its response, no redirect followed; and the URL a
    response names as its target. *)
Variable exchange : string -> RequestInit -> Error + Response.
Variable location : Response -> option string.

(** Modelled from the spec: a redirect response is a 3xx response (section
    4.2); it is followed when it names a target. *)
Definition redirect_target (r : Response) : option string :=
  if (300 <=? status r) && (status r <=? 399) then location r else None.

(** The response as [fetch] hands it over: [response.url] is the URL that was
    asked last. *)
Definition at_url (target : string) (r : Response) : Response :=
  mkResponse (status r) (statusText r) (entries r) target (payload r).

(** The Fetch Standard's bound on the redirects of one [fetch]. *)
Definition max_redirects : nat := 20.

(** Modelled from the spec: following redirects transparently (section 4.2);
    the response's URL is the last URL reached. *)
Fixpoint follow_from (fuel : nat) (target : string) (options : RequestInit)
    : Error + Response :=
  match exchange target options with
  | inl e => inl e
  | inr r =>
      match redirect_target r with
      | None => inr (at_url target r)
      | Some next =>
          match fuel with
          | O => inl (mkError "redirect count exceeded")
          | S fuel' => follow_from fuel' next options
          end
      end
  end.

(** Modelled from the spec: section 4.2's redirect policy of the HTTP
    capability (undici's [fetch]), which is not part of the repository.  With
    [redirect: "follow"] (also the default, when [options] names no mode) the
    capability follows redirects and the response's URL is the last one
    reached; with [redirect: "manual"] a redirect response is returned as it
    is, not followed, and the response's URL is the requested one. *)
Definition policy (target : string) (options : RequestInit) : Error + Response :=
  match redirect options with
  | Some manual =>
      match exchange target options with
      | inl e => inl e
      | inr r => inr (at_url target r)
      end
  | _ => follow_from max_redirects target options
  end.

(** [Reached n target options last r]: starting at [target], after [n]
    redirects the exchange at [last] answers [r], which redirects no
    further. *)
Inductive Reached (options : RequestInit)
    : nat -> string -> string -> Response -> Prop :=
| reached_here (target : string) (r : Response) :
    exchange target options = inr r ->
    redirect_target r = None ->
    Reached options 0 target target r
| reached_next (n : nat) (target next last : string) (r r' : Response) :
    exchange target options = inr r ->
    redirect_target r = Some next ->
    Reached options n next last r' ->
    Reached options (S n) target last r'.

End Policy.

(** An environment whose [fetch] keeps the policy over [exchange]. *)
Definition Keeps (E : Env) (exchange : string -> RequestInit -> Error + Response)
    (location : Response -> option string) : Prop :=
  forall target options, fetch E target options = policy exchange location target options.

End Redirects.

(** ** A test double of the libraries *)

(** The local server of the test suite ([TestServer.addCommonRoutes]) with
    three further routes, a DOM that knows type selectors and [*], and a JSON
    printer for result objects.  The witnesses and the counterexamples below
    run the handlers in it. *)
Module Mock.

Definition baseUrl : string := "http://localhost:8080".

Definition bytes (s : string) : list byte := list_byte_of_string s.

Definition testPage : string :=
  "<!DOCTYPE html><html><head><title>Test Page</title></head><body>"
    ++ "<h1>Test Heading</h1><div class=" ++ quote ++ "content" ++ quote ++ ">"
    ++ "<p>This is a test paragraph.</p></div></body></html>".

Definition sectionsPage : string :=
  "<html><head></head><body><h2 id=" ++ quote ++ "intro" ++ quote ++ ">Intro</h2>"
    ++ "<p>One</p><p>Two</p></body></html>".

Definition jsonBody : string :=
  "{" ++ quote ++ "id" ++ quote ++ ":1," ++ quote ++ "title" ++ quote ++ ":"
    ++ quote ++ "Test Post" ++ quote ++ "," ++ quote ++ "body" ++ quote ++ ":"
    ++ quote ++ "This is a test post body" ++ quote ++ "}".

Definition respond (code : Z) (reason : string) (hdrs : list (string * string))
    (content : string) : Error + Response :=
  inr (mkResponse code reason hdrs "" (inr (bytes content))).

(** The routes: [/], [/json], [/redirect], [/status] and [/error] are the
    test server's, [/sections], [/not-modified] and [/stalled] (whose body
    never arrives) are added; any other path is answered 404. *)
Definition exchange (target : string) (options : RequestInit) : Error + Response :=
  if String.eqb target (baseUrl ++ "/") then
    respond 200 "OK" [("content-type", "text/html")] testPage
  else if String.eqb target (baseUrl ++ "/json") then
    respond 200 "OK" [("content-type", "application/json")] jsonBody
  else if String.eqb target (baseUrl ++ "/redirect") then
    respond 302 "Found" [("location", "/")] ""
  else if String.eqb target (baseUrl ++ "/status") then
    respond 200 "OK" [] "OK"
  else if String.eqb target (baseUrl ++ "/error") then
    inl (mkError "fetch failed")
  else if String.eqb target (baseUrl ++ "/sections") then
    respond 200 "OK" [("content-type", "text/html")] sectionsPage
  else if String.eqb target (baseUrl ++ "/not-modified") then
    respond 304 "Not Modified" [] ""
  else if String.eqb target (baseUrl ++ "/stalled") then
    inr (mkResponse 200 "OK" [] "" (inl (mkError "Body Timeout Error")))
  else
    respond 404 "Not Found" [] "Not Found".

Fixpoint lookup (k : string) (l : list (string * string)) : option string :=
  match l with
  | [] => None
  | (k', v) :: rest => if String.eqb k k' then Some v else lookup k rest
  end.

Definition location (r : Response) : option string :=
  option_map (fun path => baseUrl ++ path) (lookup "location" (entries r)).

Record Node : Type := mkNode { tag : string; ident : option string; markup : string }.

Definition testDocument : list Node :=
  [ mkNode "html" None
      ("<html><head><title>Test Page</title></head><body>"
         ++ "<h1>Test Heading</h1><div class=" ++ quote ++ "content" ++ quote ++ ">"
         ++ "<p>This is a test paragraph.</p></div></body></html>");
    mkNode "head" None "<head><title>Test Page</title></head>";
    mkNode "title" None "<title>Test Page</title>";
    mkNode "body" None
      ("<body><h1>Test Heading</h1><div class=" ++ quote ++ "content" ++ quote ++ ">"
         ++ "<p>This is a test paragraph.</p></div></body>");
    mkNode "h1" None "<h1>Test Heading</h1>";
    mkNode "div" None
      ("<div class=" ++ quote ++ "content" ++ quote ++ ">"
         ++ "<p>This is a test paragraph.</p></div>");
    mkNode "p" None "<p>This is a test paragraph.</p>" ].

Definition sectionsDocument : list Node :=
  [ mkNode "html" None sectionsPage;
    mkNode "head" None "<head></head>";
    mkNode "body" None
      ("<body><h2 id=" ++ quote ++ "intro" ++ quote ++ ">Intro</h2>"
         ++ "<p>One</p><p>Two</p></body>");
    mkNode "h2" (Some "intro") ("<h2 id=" ++ quote ++ "intro" ++ quote ++ ">Intro</h2>");
    mkNode "p" None "<p>One</p>";
    mkNode "p" None "<p>Two</p>" ].

Definition plainDocument (content : string) : list Node :=
  [ mkNode "html" None ("<html><head></head><body>" ++ content ++ "</body></html>");
    mkNode "head" None "<head></head>";
    mkNode "body" None ("<body>" ++ content ++ "</body>") ].

Definition parse (html : string) : Error + list Node :=
  if String.eqb html testPage then inr testDocument
  else if String.eqb html sectionsPage then inr sectionsDocument
  else inr (plainDocument html).

Definition select (d : list Node) (selector : string) : Error + list Node :=
  if String.eqb selector "" then inl (mkError "The string is not a valid selector")
  else if String.eqb selector "*" then inr d
  else inr (filter (fun n => String.eqb (tag n) selector) d).

Definition byId (d : list Node) (id : string) : option Node :=
  find (fun n => match ident n with Some i => String.eqb i id | None => false end) d.

(** [Buffer.from(buffer).toString("base64")]. *)
Definition alphabet : string :=
  "ABCDEFGHIJKLMNOPQRSTUVWXYZabcdefghijklmnopqrstuvwxyz0123456789+/".

Definition digit (n : N) : string :=
  match String.get (N.to_nat (n mod 64)) alphabet with
  | Some c => String c EmptyString
  | None => EmptyString
  end.

Fixpoint toBase64 (l : list byte) : string :=
  match l with
  | [] => EmptyString
  | [a] =>
      let n := (Byte.to_N a * 65536)%N in
      digit (n / 262144) ++ digit (n / 4096) ++ "=="
  | [a; b] =>
      let n := (Byte.to_N a * 65536 + Byte.to_N b * 256)%N in
      digit (n / 262144) ++ digit (n / 4096) ++ digit (n / 64) ++ "="
  | a :: b :: c :: rest =>
      let n := (Byte.to_N a * 65536 + Byte.to_N b * 256 + Byte.to_N c)%N in
      digit (n / 262144) ++ digit (n / 4096) ++ digit (n / 64) ++ digit n
        ++ toBase64 rest
  end.

(** [JSON.stringify(v, null, 2)] on result objects. *)
Fixpoint escape (s : string) : string :=
  match s with
  | EmptyString => EmptyString
  | String c rest =>
      (if Ascii.eqb c (ascii_of_nat 34) then "\" ++ quote
       else if Ascii.eqb c (ascii_of_nat 92) then "\\"
       else if Ascii.eqb c (ascii_of_nat 10) then "\n"
       else String c EmptyString) ++ escape rest
  end.

Definition quoted (s : string) : string := quote ++ escape s ++ quote.

Definition block (opening closing indent : string) (lines : list string) : string :=
  match lines with
  | [] => opening ++ closing
  | _ =>
      opening ++ LF
        ++ join ("," ++ LF) (map (fun l => indent ++ "  " ++ l) lines)
        ++ LF ++ indent ++ closing
  end.

Definition print (indent : string) (v : value) : string :=
  match v with
  | JNum n => string_of_Z n
  | JStr s => quoted s
  | JBool b => if b then "true" else "false"
  | JArr items => block "[" "]" indent (map quoted items)
  | JRec props =>
      block "{" "}" indent (map (fun kv => quoted (fst kv) ++ ": " ++ quoted (snd kv)) props)
  end.

Definition stringify (o : object) : string :=
  block "{" "}" "" (map (fun kv => quoted (fst kv) ++ ": " ++ print "  " (snd kv)) o).

(** [JSON.parse] knows the one document the server serves. *)
Definition parseJson (s : string) : Error + object :=
  if String.eqb s jsonBody then
    inr [ ("id", JNum 1);
          ("title", JStr "Test Post");
          ("body", JStr "This is a test post body") ]
  else inl (mkError "Unexpected token in JSON at position 0").

Definition select_empty (d : list Node) : exists e : Error, select d "" = inl e :=
  ex_intro _ (mkError "The string is not a valid selector") eq_refl.

Definition env : Env :=
  {| Json := object;
     Document := list Node;
     Element := Node;
     fetch := Redirects.policy exchange location;
     decode := string_of_list_byte;
     base64 := toBase64;
     JSON_parse := parseJson;
     JSON_stringify_parsed := stringify;
     JSON_stringify := stringify;
     JSDOM := parse;
     querySelectorAll := select;
     getElementById := byId;
     outerHTML := markup;
     empty_selector_invalid := select_empty |}.

End Mock.

(** ** Calls and responses used as concrete instances *)

Module Samples.

Definition at_path (path : string) : string := Mock.baseUrl ++ path.

Definition served (code : Z) (reason : string) (hdrs : list (string * string))
    (path content : string) : Response :=
  mkResponse code reason hdrs (at_path path) (inr (Mock.bytes content)).

Definition okStatus : Response := served 200 "OK" [] "/status" "OK".
Definition notModified : Response := served 304 "Not Modified" [] "/not-modified" "".
Definition notFound : Response := served 404 "Not Found" [] "/missing" "Not Found".
Definition home : Response :=
  served 200 "OK" [("content-type", "text/html")] "/" Mock.testPage.
Definition sections : Response :=
  served 200 "OK" [("content-type", "text/html")] "/sections" Mock.sectionsPage.
Definition found : Response := served 302 "Found" [("location", "/")] "/redirect" "".

Definition check (path : string) (timeout : option number) : CheckStatusArgs.t :=
  CheckStatusArgs.mk (at_path path) timeout.

Definition get_as (path : string) (responseType : ResponseType.t)
    (fragmentSelector : option string) : FetchUrlArgs.t :=
  FetchUrlArgs.mk (at_path path) GET None None None responseType true fragmentSelector.

Definition extract (path selector : string) (anchorId : option string)
    : ExtractHtmlFragmentArgs.t :=
  ExtractHtmlFragmentArgs.mk (at_path path) selector anchorId GET None None None true.

(** The test server's answers, before [fetch] has given them a URL. *)
Definition answered (code : Z) (reason : string) (hdrs : list (string * string))
    (content : string) : Response :=
  mkResponse code reason hdrs "" (inr (Mock.bytes content)).

Definition five_seconds : number := 5000 # 1.

Definition get_within (path : string) (timeout : number) : FetchUrlArgs.t :=
  FetchUrlArgs.mk (at_path path) GET None None (Some timeout) ResponseType.text true None.

Definition extract_within (path selector : string) (timeout : number)
    : ExtractHtmlFragmentArgs.t :=
  ExtractHtmlFragmentArgs.mk (at_path path) selector None GET None None (Some timeout) true.

Definition get_redirect (followRedirects : bool) : FetchUrlArgs.t :=
  FetchUrlArgs.mk (at_path "/redirect") GET None None None ResponseType.text
    followRedirects None.

Definition extract_redirect (followRedirects : bool) : ExtractHtmlFragmentArgs.t :=
  ExtractHtmlFragmentArgs.mk (at_path "/redirect") "h1" None GET None None None
    followRedirects.

End Samples.

(** ** The engine's [JSON] object *)

(** [JSON.parse] and [JSON.stringify(value, null, 2)] as ECMA-262 defines
    them.  The engine is not part of the repository.  What it does with the
    structure of a text (white space, arrays, objects and the order of their
    properties, the three literals, the indentation it prints) is written
    out here; the characters of a string and the digits of a number are left
    to a [Lexicon]. *)
Module JSON.

(** The double quote. *)
Definition doubleQuote : ascii := ascii_of_nat 34.

(** A character that can start a number, and a text at whose head no number
    goes on. *)
Definition numeric (c : ascii) : bool :=
  Ascii.eqb c "-" || ((48 <=? N_of_ascii c)%N && (N_of_ascii c <=? 57)%N).

Definition continues (c : ascii) : bool :=
  numeric c || Ascii.eqb c "+" || Ascii.eqb c "." || Ascii.eqb c "e" || Ascii.eqb c "E".

Definition delimited (s : string) : bool :=
  match s with
  | EmptyString => true
  | String c _ => negb (continues c)
  end.

(** The string and number literals of the engine.  [double] is its Number
    type, [toString] is [Number::toString] and [readNumber] reads the JSON
    number at the head of a text; [quoteString] is [QuoteJSONString] and
    [readString] reads the string literal at the head of a text.  The laws
    are ECMA-262's: a quoted string starts with a double quote and reads back
    as the string it quotes; the digits of a finite number start like a
    number and read back as that number, unless it is the negative zero,
    which is printed as [0]. *)
Record Lexicon : Type := mkLexicon {
  double : Type;
  isFinite : double -> bool;
  isNegativeZero : double -> bool;
  toString : double -> string;
  readNumber : string -> option (double * string);
  quoteString : string -> string;
  readString : string -> option (string * string);
  SyntaxError : string -> Error;
  quoteString_head :
    forall s : string, exists tail : string, quoteString s = String doubleQuote tail;
  readString_quoteString :
    forall s rest : string, readString (quoteString s ++ rest) = Some (s, rest);
  toString_head :
    forall d : double,
      isFinite d = true ->
      exists (c : ascii) (tail : string), toString d = String c tail /\ numeric c = true;
  readNumber_toString :
    forall (d : double) (rest : string),
      isFinite d = true ->
      isNegativeZero d = false ->
      delimited rest = true ->
      readNumber (toString d ++ rest) = Some (d, rest)
}.

Section Engine.

Variable L : Lexicon.

(** The values of JSON.  An object lists its properties in the order
    [JSON.stringify] goes through them. *)
#[warnings="-register-all"]
Inductive t : Type :=
| Null
| Bool (b : bool)
| Number (d : double L)
| Str (s : string)
| Array (items : list t)
| Object (props : list (string * t)).

(** *** [JSON.stringify(value, null, 2)] *)

(** The indentation at a depth: two spaces for each level. *)
Fixpoint indentation (depth : nat) : string :=
  match depth with
  | O => EmptyString
  | S depth => "  " ++ indentation depth
  end.

(** [SerializeJSONProperty]: a number that is not finite is printed as
    [null]; an array or an object that is not empty has each of its entries
    on a line of its own. *)
Fixpoint print (depth : nat) (v : t) : string :=
  match v with
  | Null => "null"
  | Bool true => "true"
  | Bool false => "false"
  | Number d => if isFinite L d then toString L d else "null"
  | Str s => quoteString L s
  | Array [] => "[]"
  | Array items =>
      "[" ++ LF ++ indentation (S depth)
        ++ join ("," ++ LF ++ indentation (S depth)) (map (print (S depth)) items)
        ++ LF ++ indentation depth ++ "]"
  | Object [] => "{}"
  | Object props =>
      "{" ++ LF ++ indentation (S depth)
        ++ join ("," ++ LF ++ indentation (S depth))
             (map (fun kv : string * t =>
                     let (k, x) := kv in quoteString L k ++ ": " ++ print (S depth) x)
                props)
        ++ LF ++ indentation depth ++ "}"
  end.

Definition stringify (v : t) : string := print 0 v.

(** *** [JSON.parse(text)] *)

(** White space: space, tab, line feed and carriage return. *)
Definition whitespace (c : ascii) : bool :=
  Ascii.eqb c " " || Ascii.eqb c (ascii_of_nat 9) || Ascii.eqb c (ascii_of_nat 10)
  || Ascii.eqb c (ascii_of_nat 13).

Fixpoint skip (s : string) : string :=
  match s with
  | EmptyString => EmptyString
  | String c rest => if whitespace c then skip rest else s
  end.

(** The text after a keyword, if the text starts with it. *)
Fixpoint after (keyword s : string) : option string :=
  match keyword with
  | EmptyString => Some s
  | String a keyword =>
      match s with
      | EmptyString => None
      | String b s => if Ascii.eqb a b then after keyword s else None
      end
  end.

(** An array index: the canonical decimal form of an integer below
    [2^32 - 1]. *)
Definition arrayIndex (key : string) : option N :=
  match NilZero.uint_of_string key with
  | Some digits =>
      let n := N.of_uint digits in
      if String.eqb (NilZero.string_of_uint (N.to_uint n)) key && (n <? 4294967295)%N
      then Some n
      else None
  | None => None
  end.

(** The order of an object's own property keys: the array indices, in
    ascending order, then the other keys, in the order they were created.
    [precedes k k'] says that a new key [k] goes before an existing [k']. *)
Definition precedes (k k' : string) : bool :=
  match arrayIndex k, arrayIndex k' with
  | Some i, Some i' => (i <? i')%N
  | Some _, None => true
  | None, _ => false
  end.

(** [CreateDataProperty(object, k, v)]: a property that is there keeps its
    place and gets the new value, a new one goes to its place in the order
    of the keys. *)
Fixpoint define (k : string) (v : t) (o : list (string * t)) : list (string * t) :=
  match o with
  | [] => [(k, v)]
  | (k', v') :: rest =>
      if String.eqb k k' then (k', v) :: rest
      else if precedes k k' then (k, v) :: o
      else (k', v') :: define k v rest
  end.

Definition closes (bracket : ascii) (s : string) : option string :=
  match s with
  | String c rest => if Ascii.eqb c bracket then Some rest else None
  | EmptyString => None
  end.

(** The parser: [value] reads a JSON value and gives the rest of the text,
    [elements] reads the elements of an array up to its closing bracket and
    [members] the members of an object up to its closing brace, defining
    each as a property of the object read so far.  [fuel] bounds the
    number of nested calls. *)
Fixpoint value (fuel : nat) (s : string) : option (t * string) :=
  match fuel with
  | O => None
  | S fuel =>
      match skip s with
      | EmptyString => None
      | String c rest as s' =>
          if numeric c then
            match readNumber L s' with
            | Some (d, rest) => Some (Number d, rest)
            | None => None
            end
          else if Ascii.eqb c doubleQuote then
            match readString L s' with
            | Some (x, rest) => Some (Str x, rest)
            | None => None
            end
          else if Ascii.eqb c "[" then
            match closes "]" (skip rest) with
            | Some rest => Some (Array [], rest)
            | None =>
                match elements fuel rest with
                | Some (items, rest) => Some (Array items, rest)
                | None => None
                end
            end
          else if Ascii.eqb c "{" then
            match closes "}" (skip rest) with
            | Some rest => Some (Object [], rest)
            | None =>
                match members fuel rest [] with
                | Some (props, rest) => Some (Object props, rest)
                | None => None
                end
            end
          else
            match after "null" s' with
            | Some rest => Some (Null, rest)
            | None =>
                match after "true" s' with
                | Some rest => Some (Bool true, rest)
                | None =>
                    match after "false" s' with
                    | Some rest => Some (Bool false, rest)
                    | None => None
                    end
                end
            end
      end
  end
with elements (fuel : nat) (s : string) : option (list t * string) :=
  match fuel with
  | O => None
  | S fuel =>
      match value fuel s with
      | Some (v, rest) =>
          match skip rest with
          | String c rest =>
              if Ascii.eqb c "," then
                match elements fuel rest with
                | Some (items, rest) => Some (v :: items, rest)
                | None => None
                end
              else if Ascii.eqb c "]" then Some ([v], rest)
              else None
          | EmptyString => None
          end
      | None => None
      end
  end
with members (fuel : nat) (s : string) (o : list (string * t))
    : option (list (string * t) * string) :=
  match fuel with
  | O => None
  | S fuel =>
      match skip s with
      | String c _ as s' =>
          if Ascii.eqb c doubleQuote then
            match readString L s' with
            | Some (k, rest) =>
                match closes ":" (skip rest) with
                | Some rest =>
                    match value fuel rest with
                    | Some (v, rest) =>
                        match skip rest with
                        | String c rest =>
                            if Ascii.eqb c "," then members fuel rest (define k v o)
                            else if Ascii.eqb c "}" then Some (define k v o, rest)
                            else None
                        | EmptyString => None
                        end
                    | None => None
                    end
                | None => None
                end
            | None => None
            end
          else None
      | EmptyString => None
      end
  end.

(** [JSON.parse(text)]: the text is one value between white space, or a
    [SyntaxError] is thrown.  No text needs more nested calls than twice
    its length. *)
Definition parse (text : string) : Error + t :=
  match value (2 * String.length text + 2) text with
  | Some (v, rest) =>
      match skip rest with
      | EmptyString => inr v
      | String _ _ => inl (SyntaxError L text)
      end
  | None => inl (SyntaxError L text)
  end.

(** *** What a round trip keeps *)

(** A value all of whose numbers are finite and none the negative zero. *)
Fixpoint preserved (v : t) : bool :=
  match v with
  | Number d => isFinite L d && negb (isNegativeZero L d)
  | Array items => forallb preserved items
  | Object props => forallb (fun kv : string * t => preserved (snd kv)) props
  | _ => true
  end.

(** Keys in the order of an object's own property keys, each once. *)
Fixpoint ordered (keys : list string) : bool :=
  match keys with
  | [] => true
  | k :: rest =>
      forallb (fun k' => negb (String.eqb k' k) && negb (precedes k' k)) rest
      && ordered rest
  end.

(** A value as the engine holds it: the keys of every object are in their
    order. *)
Fixpoint canonical (v : t) : bool :=
  match v with
  | Array items => forallb canonical items
  | Object props =>
      ordered (map fst props)
      && forallb (fun kv : string * t => canonical (snd kv)) props
  | _ => true
  end.

(** How [print] puts the entries of an array or an object one after the
    other, and how it prints a property. *)
Definition separator (depth : nat) : string := "," ++ LF ++ indentation depth.

Definition member (depth : nat) (kv : string * t) : string :=
  let (k, x) := kv in quoteString L k ++ ": " ++ print depth x.

(** The characters a value starts with. *)
Definition opening (c : ascii) : bool :=
  numeric c || Ascii.eqb c doubleQuote || Ascii.eqb c "[" || Ascii.eqb c "{"
  || Ascii.eqb c "n" || Ascii.eqb c "t" || Ascii.eqb c "f".

(** The properties of an object as the engine holds them. *)
Definition canonical_object (o : list (string * t)) : bool :=
  ordered (map fst o) && forallb (fun kv : string * t => canonical (snd kv)) o.

(** The nested calls that reading a value back takes. *)
Fixpoint cost (v : t) : nat :=
  match v with
  | Array items => S (list_sum (map (fun x => S (cost x)) items))
  | Object props => S (list_sum (map (fun kv : string * t => S (cost (snd kv))) props))
  | _ => 1
  end.

(** A printed value is read back as the value, whatever follows it. *)
Definition Reads (x : t) : Prop :=
  preserved x = true ->
  canonical x = true ->
  forall (depth : nat) (rest : string) (fuel : nat),
    delimited rest = true ->
    (cost x <= fuel)%nat ->
    value fuel (print depth x ++ rest) = Some (x, rest).

End Engine.

Arguments Null {L}.
Arguments Bool {L} b.
Arguments Number {L} d.
Arguments Str {L} s.
Arguments Array {L} items.
Arguments Object {L} props.
Arguments define {L} k v o.

End JSON.

(** ** A test double of the engine's literals *)

(** Numbers and strings as far as the test server's documents need them: the
    whole numbers below [2^53], which are doubles, the negative zero and the
    two infinities; number literals without a fraction, which overflow to an
    infinity from [2^1024] on; string literals with the escapes of
    [Mock.escape] and the escaped slash. *)
Module Plain.

Inductive num : Type :=
| Int (z : Z)
| NegativeZero
| Infinity (negative : bool).

Definition safe : Z := 2 ^ 53.
Definition overflow : Z := 2 ^ 1024.

Definition isFinite (d : num) : bool :=
  match d with
  | Int z => Z.abs z <? safe
  | NegativeZero => true
  | Infinity _ => false
  end.

Definition isNegativeZero (d : num) : bool :=
  match d with
  | NegativeZero => true
  | _ => false
  end.

(** [Number::toString]. *)
Definition toString (d : num) : string :=
  match d with
  | Int z => string_of_Z z
  | NegativeZero => "0"
  | Infinity false => "Infinity"
  | Infinity true => "-Infinity"
  end.

Definition digit (c : ascii) : bool :=
  ((48 <=? N_of_ascii c)%N && (N_of_ascii c <=? 57)%N).

(** The longest head of a text whose characters all satisfy [p], and the
    rest. *)
Fixpoint span (p : ascii -> bool) (s : string) : string * string :=
  match s with
  | EmptyString => (EmptyString, EmptyString)
  | String c rest =>
      if p c then let (head, rest) := span p rest in (String c head, rest)
      else (EmptyString, s)
  end.

(** Every character of a text satisfies [p]. *)
Fixpoint every (p : ascii -> bool) (s : string) : bool :=
  match s with
  | EmptyString => true
  | String c rest => p c && every p rest
  end.

(** The exponent at the head of a text, [e] or [E] and digits that a [+]
    may precede; no exponent is the exponent 0. *)
Definition exponent (s : string) : option (N * string) :=
  match s with
  | EmptyString => Some (0%N, s)
  | String c rest =>
      if Ascii.eqb c "e" || Ascii.eqb c "E" then
        let unsigned :=
          match rest with
          | String sign rest' => if Ascii.eqb sign "+" then rest' else rest
          | EmptyString => rest
          end in
        let (digits, rest) := span digit unsigned in
        match NilZero.uint_of_string digits with
        | Some e => Some (N.of_uint e, rest)
        | None => None
        end
      else Some (0%N, s)
  end.

(** A sign in front of a zero. *)
Definition negativeZero (i : Decimal.int) : bool :=
  match i with
  | Decimal.Neg _ => Z.of_int i =? 0
  | Decimal.Pos _ => false
  end.

Definition readNumber (s : string) : option (num * string) :=
  let (mantissa, rest) := span JSON.numeric s in
  match NilZero.int_of_string mantissa, exponent rest with
  | Some i, Some (e, rest) =>
      let z := Z.of_int i * 10 ^ Z.of_N e in
      if negativeZero i then Some (NegativeZero, rest)
      else if Z.abs z <? safe then Some (Int z, rest)
      else if overflow <=? Z.abs z then Some (Infinity (z <? 0), rest)
      else None
  | _, _ => None
  end.

(** [QuoteJSONString]. *)
Definition quoteString (s : string) : string := Mock.quoted s.

(** The character an escape stands for. *)
Definition escaped (c : ascii) : option ascii :=
  if Ascii.eqb c JSON.doubleQuote then Some JSON.doubleQuote
  else if Ascii.eqb c (ascii_of_nat 92) then Some (ascii_of_nat 92)
  else if Ascii.eqb c "/" then Some "/"%char
  else if Ascii.eqb c "n" then Some (ascii_of_nat 10)
  else None.

(** The characters of a string literal up to its closing quote. *)
Fixpoint characters (s : string) : option (string * string) :=
  match s with
  | EmptyString => None
  | String c rest =>
      if Ascii.eqb c JSON.doubleQuote then Some (EmptyString, rest)
      else if Ascii.eqb c (ascii_of_nat 92) then
        match rest with
        | EmptyString => None
        | String e rest =>
            match escaped e, characters rest with
            | Some c, Some (x, rest) => Some (String c x, rest)
            | _, _ => None
            end
        end
      else
        match characters rest with
        | Some (x, rest) => Some (String c x, rest)
        | None => None
        end
  end.

Definition readString (s : string) : option (string * string) :=
  match s with
  | EmptyString => None
  | String c rest => if Ascii.eqb c JSON.doubleQuote then characters rest else None
  end.

Definition SyntaxError (text : string) : Error :=
  mkError "Unexpected token in JSON at position 0".

End Plain.

(** ** undici's [fetch] and the time an exchange takes *)

(** What undici documents of its timeouts.  [headersTimeout] and
    [bodyTimeout] are options of a dispatcher ([Agent], [Client]) and of
    [undici.request]; each defaults to 300 seconds.  [fetch(url, init)] reads
    from [init] the members of the Fetch Standard's [RequestInit] and
    [dispatcher]; it does not read [headersTimeout] or [bodyTimeout], and
    without an [init.dispatcher] the exchange runs on the global dispatcher.
    undici is not part of the repository. *)
Module Undici.

(** A server as the client sees it: the milliseconds until the headers of the
    response have arrived, the longest pause while its body arrives, and the
    response. *)
Record Answer : Type := mkAnswer {
  headersAfter : number;
  bodyPause : number;
  response : Response
}.

(** The bounds of a dispatcher, in milliseconds. *)
Record Bounds : Type := mkBounds {
  headersBound : number;
  bodyBound : number
}.

Definition globalDispatcher : Bounds := mkBounds (300000 # 1) (300000 # 1).

(** An exchange under bounds: headers that take longer than their bound
    reject the call with [fetch failed]; a pause of the body that is longer
    than its bound interrupts the read with [terminated]. *)
Definition exchange (bounds : Bounds) (answer : Answer) : Error + Response :=
  if Qle_bool (headersAfter answer) (headersBound bounds) then
    if Qle_bool (bodyPause answer) (bodyBound bounds) then inr (response answer)
    else
      inr (mkResponse (status (response answer)) (statusText (response answer))
             (entries (response answer)) (url (response answer))
             (inl (mkError "terminated")))
  else inl (mkError "fetch failed").

(** [fetch(url, init)] with no [init.dispatcher]. *)
Definition fetch_ (server : string -> Answer) (target : string) (init : RequestInit)
    : Error + Response :=
  exchange globalDispatcher (server target).

(** A server that takes a second to answer [/slow]. *)
Definition slow : Answer :=
  mkAnswer (1000 # 1) (0 # 1)
    (mkResponse 200 "OK" [] (Mock.baseUrl ++ "/slow") (inr (Mock.bytes "OK"))).

Definition server (target : string) : Answer :=
  if String.eqb target (Mock.baseUrl ++ "/slow") then slow
  else
    mkAnswer (0 # 1) (0 # 1)
      (mkResponse 404 "Not Found" [] target (inr (Mock.bytes "Not Found"))).

(** The libraries of [Mock.env] with undici's [fetch] in front of the
    server. *)
Definition env : Env :=
  mkEnv object (list Mock.Node) Mock.Node (fetch_ server) string_of_list_byte
    Mock.toBase64 Mock.parseJson Mock.stringify Mock.stringify Mock.parse Mock.select
    Mock.byId Mock.markup Mock.select_empty.

(** A timeout of 100 milliseconds. *)
Definition brief : number := 100 # 1.

End Undici.

(** ** The statements' vocabulary *)

(** What a handler answers for the outcome of its [try] block: the serialized
    result, or the error envelope with the operation's tag. *)
Definition answer (E : Env) (tag : string) (o : Error + object) : Mcp.CallToolResult :=
  match o with
  | inr result => success E result
  | inl error => failure (tag ++ message error)
  end.

(** Events that read or parse a response body. *)
Definition touches_body (ev : Event) : bool :=
  match ev with
  | ReadBody _ | ParseHtml _ => true
  | _ => false
  end.

(** The requests a trace issues. *)
Fixpoint requests (t : list Event) : list (string * RequestInit) :=
  match t with
  | [] => []
  | Fetch target options :: rest => (target, options) :: requests rest
  | _ :: rest => requests rest
  end.

(** An error rethrown behind a prefix. *)
Definition wrapped (prefix : string) (e : Error) : Error := mkError (prefix ++ message e).

(** What the [switch (responseType)] computes, without the events. *)
Definition transformed (E : Env) (args : FetchUrlArgs.t) (r : Response) (result : object)
    : Error + object :=
  match FetchUrlArgs.responseType args with
  | ResponseType.text =>
      match payload r with
      | inl e => inl e
      | inr bytes => inr (set "content" (JStr (decode E bytes)) result)
      end
  | ResponseType.json =>
      match payload r with
      | inl e => inl (wrapped "Failed to parse response as JSON: " e)
      | inr bytes =>
          match JSON_parse E (decode E bytes) with
          | inl e => inl (wrapped "Failed to parse response as JSON: " e)
          | inr parsed =>
              inr (set "content" (JStr (JSON_stringify_parsed E parsed)) result)
          end
      end
  | ResponseType.binary =>
      match payload r with
      | inl e => inl e
      | inr bytes =>
          inr (set "encoding" (JStr "base64") (set "content" (JStr (base64 E bytes)) result))
      end
  | ResponseType.html_fragment =>
      match payload r with
      | inl e => inl (wrapped "Failed to parse or extract HTML fragment: " e)
      | inr bytes =>
          match JSDOM E (decode E bytes) with
          | inl e => inl (wrapped "Failed to parse or extract HTML fragment: " e)
          | inr document =>
              match nonempty (FetchUrlArgs.fragmentSelector args) with
              | None =>
                  inr (set "contentType" (JStr "text/html")
                         (set "content" (JStr (decode E bytes)) result))
              | Some selector =>
                  match querySelectorAll E document selector with
                  | inl e => inl (wrapped "Failed to parse or extract HTML fragment: " e)
                  | inr [] =>
                      inl (wrapped "Failed to parse or extract HTML fragment: "
                             (mkError (no_elements_found selector)))
                  | inr [el] =>
                      inr (set "contentType" (JStr "text/html")
                             (set "matchCount" (JNum 1)
                                (set "content" (JStr (outerHTML E el)) result)))
                  | inr elements =>
                      inr (set "contentType" (JStr "text/html")
                             (set "matchCount" (JNum (Z.of_nat (length elements)))
                                (set "content"
                                   (JStr (join LF (map (outerHTML E) elements))) result)))
                  end
              end
          end
      end
  end.

(** The same response under another status code. *)
Definition with_status (code : Z) (r : Response) : Response :=
  mkResponse code (statusText r) (entries r) (url r) (payload r).

(** The environment in which every [fetch] resolves to [r]. *)
Definition serving (E : Env) (r : Response) : Env :=
  {| Json := Json E;
     Document := Document E;
     Element := Element E;
     fetch := fun _ _ => inr r;
     decode := decode E;
     base64 := base64 E;
     JSON_parse := JSON_parse E;
     JSON_stringify_parsed := JSON_stringify_parsed E;
     JSON_stringify := JSON_stringify E;
     JSDOM := JSDOM E;
     querySelectorAll := querySelectorAll E;
     getElementById := getElementById E;
     outerHTML := outerHTML E;
     empty_selector_invalid := empty_selector_invalid E |}.

(** The environment whose [JSON] is the engine with the literals of [L]; the
    other libraries are those of [E]. *)
Definition with_engine (L : JSON.Lexicon) (E : Env) : Env :=
  {| Json := JSON.t L;
     Document := Document E;
     Element := Element E;
     fetch := fetch E;
     decode := decode E;
     base64 := base64 E;
     JSON_parse := JSON.parse L;
     JSON_stringify_parsed := JSON.stringify L;
     JSON_stringify := JSON_stringify E;
     JSDOM := JSDOM E;
     querySelectorAll := querySelectorAll E;
     getElementById := getElementById E;
     outerHTML := outerHTML E;
     empty_selector_invalid := empty_selector_invalid E |}.

(** The error of the [if (anchorId)] block, if it throws. *)
Definition missing_anchor (E : Env) (document : Document E) (anchorId : option string)
    : option Error :=
  match nonempty anchorId with
  | Some id =>
      match getElementById E document id with
      | Some _ => None
      | None => Some (mkError (anchor_not_found id))
      end
  | None => None
  end.

(** The result object of extract-html-fragment for the matched elements. *)
Definition fragment (E : Env) (selector : string) (r : Response)
    (elements : list (Element E)) : object :=
  [ ("status", JNum (status r));
    ("statusText", JStr (statusText r));
    ("url", JStr (url r));
    ("selector", JStr selector);
    ("matchCount", JNum (Z.of_nat (length elements)));
    ("html", match elements with
             | [el] => JStr (outerHTML E el)
             | _ => JArr (map (outerHTML E) elements)
             end) ].

(** What extract-html-fragment computes from a response, without the events. *)
Definition extracted (E : Env) (args : ExtractHtmlFragmentArgs.t) (r : Response)
    : Error + object :=
  if ok r then
    match payload r with
    | inl e => inl e
    | inr bytes =>
        match JSDOM E (decode E bytes) with
        | inl e => inl e
        | inr document =>
            match missing_anchor E document (ExtractHtmlFragmentArgs.anchorId args) with
            | Some e => inl e
            | None =>
                match querySelectorAll E document (ExtractHtmlFragmentArgs.selector args) with
                | inl e => inl e
                | inr [] =>
                    inl (mkError (no_elements_found (ExtractHtmlFragmentArgs.selector args)))
                | inr elements =>
                    inr (fragment E (ExtractHtmlFragmentArgs.selector args) r elements)
                end
            end
        end
    end
  else inl (mkError (http_failure r)).

(** The call gets the document: [fetch] resolves to [r], the body of [r] is
    readable and parses to [document]. *)
Definition Fetched (E : Env) (target : string) (options : RequestInit)
    (r : Response) (document : Document E) : Prop :=
  fetch E target options = inr r
  /\ exists bytes : list byte,
       payload r = inr bytes /\ JSDOM E (decode E bytes) = inr document.

(** The same call without its [anchorId]. *)
Definition without_anchor (args : ExtractHtmlFragmentArgs.t) : ExtractHtmlFragmentArgs.t :=
  ExtractHtmlFragmentArgs.mk
    (ExtractHtmlFragmentArgs.url args) (ExtractHtmlFragmentArgs.selector args) None
    (ExtractHtmlFragmentArgs.method args) (ExtractHtmlFragmentArgs.headers args)
    (ExtractHtmlFragmentArgs.body args) (ExtractHtmlFragmentArgs.timeout args)
    (ExtractHtmlFragmentArgs.followRedirects args).

(** The prefix behind which [handleFetchUrl] rethrows a fault of the body read. *)
Definition rethrown (responseType : ResponseType.t) : string :=
  match responseType with
  | ResponseType.json => "Failed to parse response as JSON: "
  | ResponseType.html_fragment => "Failed to parse or extract HTML fragment: "
  | ResponseType.text | ResponseType.binary => ""
  end.

(** A result object that carries a status code and a URL. *)
Definition Carries (result : object) (code : Z) (target : string) : Prop :=
  get "status" result = Some (JNum code) /\ get "url" result = Some (JStr target).

(** ** Validation: the argument schemas *)

(** The untyped arguments of a [tools/call] request: a JSON value, or
    [undefined] for a key that is not there.  An object lists each of its
    keys once, in their order. *)
Module Raw.

#[warnings="-register-all"]
Inductive t : Type :=
| Undefined
| Null
| Bool (b : bool)
| Num (n : number)
| Str (s : string)
| Arr (items : list t)
| Obj (props : list (string * t)).

(** [data[key]]. *)
Fixpoint field (key : string) (props : list (string * t)) : t :=
  match props with
  | [] => Undefined
  | (k, v) :: rest => if String.eqb key k then v else field key rest
  end.

End Raw.

(** The combinators of zod that the schemas are built from.  A schema reads a
    raw value and gives the typed one, or nothing where [parse] throws a
    [ZodError]. *)
Module Zod.

Definition schema (A : Type) : Type := Raw.t -> option A.

(** [z.string()]. *)
Definition string_ : schema string :=
  fun input => match input with Raw.Str s => Some s | _ => None end.

(** [z.string().url()]: [isUrl] is the URL parser's verdict. *)
Definition url (isUrl : string -> bool) : schema string :=
  fun input =>
    match input with
    | Raw.Str s => if isUrl s then Some s else None
    | _ => None
    end.

(** [z.enum([...])], each name with the value it stands for. *)
Fixpoint named {A : Type} (name : string) (values : list (string * A)) : option A :=
  match values with
  | [] => None
  | (k, v) :: rest => if String.eqb name k then Some v else named name rest
  end.

Definition enum {A : Type} (values : list (string * A)) : schema A :=
  fun input => match input with Raw.Str s => named s values | _ => None end.

(** [z.boolean()]. *)
Definition boolean : schema bool :=
  fun input => match input with Raw.Bool b => Some b | _ => None end.

(** [z.number().positive()]. *)
Definition is_positive (n : number) : bool := negb (Qle_bool n 0).

Definition positive : schema number :=
  fun input =>
    match input with
    | Raw.Num n => if is_positive n then Some n else None
    | _ => None
    end.

(** [z.record(z.string())]: an object all of whose values are strings. *)
Fixpoint strings (props : list (string * Raw.t)) : option (list (string * string)) :=
  match props with
  | [] => Some []
  | (k, Raw.Str v) :: rest =>
      match strings rest with
      | Some l => Some ((k, v) :: l)
      | None => None
      end
  | _ => None
  end.

Definition record : schema (list (string * string)) :=
  fun input => match input with Raw.Obj props => strings props | _ => None end.

(** [.optional()]: [undefined] is let through. *)
Definition optional {A : Type} (inner : schema A) : schema (option A) :=
  fun input =>
    match input with
    | Raw.Undefined => Some None
    | _ => option_map Some (inner input)
    end.

(** [.default(value)]: [undefined] is read as [value]. *)
Definition default {A : Type} (value : A) (inner : schema A) : schema A :=
  fun input =>
    match input with
    | Raw.Undefined => Some value
    | _ => inner input
    end.

(** The keys of a [z.object] are parsed one after the other. *)
Definition and_then {A B : Type} (x : option A) (k : A -> option B) : option B :=
  match x with
  | Some a => k a
  | None => None
  end.

End Zod.

Notation "x <-? m ;; k" := (Zod.and_then m (fun x => k))
  (at level 61, m at next level, right associativity) : js_scope.

Definition all_methods : list (string * Method) :=
  [ ("GET", GET); ("POST", POST); ("PUT", PUT); ("DELETE", DELETE);
    ("HEAD", HEAD); ("OPTIONS", OPTIONS); ("PATCH", PATCH) ].

Definition response_types : list (string * ResponseType.t) :=
  [ ("text", ResponseType.text); ("json", ResponseType.json);
    ("binary", ResponseType.binary); ("html-fragment", ResponseType.html_fragment) ].

Section Schemas.

(** Whether [new URL(s)] accepts the string. *)
Variable isUrl : string -> bool.

(** [FetchUrlArgsSchema.parse].  A [z.object] wants an object and drops the
    keys it does not name. *)
Definition FetchUrlArgsSchema : Zod.schema FetchUrlArgs.t :=
  fun input =>
    match input with
    | Raw.Obj props =>
        url <-? Zod.url isUrl (Raw.field "url" props) ;;
        method <-? Zod.default GET (Zod.enum all_methods) (Raw.field "method" props) ;;
        headers <-? Zod.optional Zod.record (Raw.field "headers" props) ;;
        body <-? Zod.optional Zod.string_ (Raw.field "body" props) ;;
        timeout <-? Zod.optional Zod.positive (Raw.field "timeout" props) ;;
        responseType <-?
          Zod.default ResponseType.text (Zod.enum response_types)
            (Raw.field "responseType" props) ;;
        followRedirects <-?
          Zod.default true Zod.boolean (Raw.field "followRedirects" props) ;;
        fragmentSelector <-?
          Zod.optional Zod.string_ (Raw.field "fragmentSelector" props) ;;
        Some (FetchUrlArgs.mk url method headers body timeout responseType
                followRedirects fragmentSelector)
    | _ => None
    end.

Definition ExtractHtmlFragmentArgsSchema : Zod.schema ExtractHtmlFragmentArgs.t :=
  fun input =>
    match input with
    | Raw.Obj props =>
        url <-? Zod.url isUrl (Raw.field "url" props) ;;
        selector <-? Zod.string_ (Raw.field "selector" props) ;;
        anchorId <-? Zod.optional Zod.string_ (Raw.field "anchorId" props) ;;
        method <-?
          Zod.default GET (Zod.enum [("GET", GET); ("POST", POST)])
            (Raw.field "method" props) ;;
        headers <-? Zod.optional Zod.record (Raw.field "headers" props) ;;
        body <-? Zod.optional Zod.string_ (Raw.field "body" props) ;;
        timeout <-? Zod.optional Zod.positive (Raw.field "timeout" props) ;;
        followRedirects <-?
          Zod.default true Zod.boolean (Raw.field "followRedirects" props) ;;
        Some (ExtractHtmlFragmentArgs.mk url selector anchorId method headers body
                timeout followRedirects)
    | _ => None
    end.

Definition CheckStatusArgsSchema : Zod.schema CheckStatusArgs.t :=
  fun input =>
    match input with
    | Raw.Obj props =>
        url <-? Zod.url isUrl (Raw.field "url" props) ;;
        timeout <-? Zod.optional Zod.positive (Raw.field "timeout" props) ;;
        Some (CheckStatusArgs.mk url timeout)
    | _ => None
    end.

End Schemas.

(** ** Dispatch: the [tools/list] and [tools/call] handlers *)

Module Property.
Record t : Type := mk {
  type : string;
  enum : option (list string);
  default : option Raw.t;
  additionalProperties : option string;
  description : string
}.
End Property.

Module InputSchema.
Record t : Type := mk {
  type : string;
  properties : list (string * Property.t);
  required : list string
}.
End InputSchema.

Module Tool.
Record t : Type := mk {
  name : string;
  description : string;
  inputSchema : InputSchema.t
}.
End Tool.

Definition plain (type description : string) : Property.t :=
  Property.mk type None None None description.

(** [TOOLS], as [tools/list] returns it. *)
Definition TOOLS : list Tool.t :=
  [ Tool.mk "extract-html-fragment"
      "Extract a specific HTML fragment from a webpage using CSS selectors"
      (InputSchema.mk "object"
         [ ("url", plain "string" "URL to fetch");
           ("selector", plain "string" "CSS selector for the HTML fragment to extract");
           ("anchorId",
            plain "string" "Optional anchor ID to locate a specific fragment");
           ("method",
            Property.mk "string" (Some ["GET"; "POST"]) (Some (Raw.Str "GET")) None
              "HTTP method");
           ("headers",
            Property.mk "object" None None (Some "string") "HTTP headers");
           ("body", plain "string" "Request body for POST requests");
           ("timeout", plain "number" "Request timeout in milliseconds");
           ("followRedirects",
            Property.mk "boolean" None (Some (Raw.Bool true)) None
              "Whether to follow redirects");
           ("fragmentSelector",
            plain "string"
              "CSS selector for the HTML fragment to extract (when responseType is html-fragment)") ]
         ["url"; "selector"]);
    Tool.mk "fetch-url" "Fetch content from a URL"
      (InputSchema.mk "object"
         [ ("url", plain "string" "URL to fetch");
           ("method",
            Property.mk "string"
              (Some ["GET"; "POST"; "PUT"; "DELETE"; "HEAD"; "OPTIONS"; "PATCH"])
              (Some (Raw.Str "GET")) None "HTTP method");
           ("headers",
            Property.mk "object" None None (Some "string") "HTTP headers");
           ("body", plain "string" "Request body for POST/PUT/PATCH requests");
           ("timeout", plain "number" "Request timeout in milliseconds");
           ("responseType",
            Property.mk "string" (Some ["text"; "json"; "binary"; "html-fragment"])
              (Some (Raw.Str "text")) None "How to parse the response");
           ("followRedirects",
            Property.mk "boolean" None (Some (Raw.Bool true)) None
              "Whether to follow redirects") ]
         ["url"]);
    Tool.mk "check-status" "Check if a URL is accessible (HEAD request)"
      (InputSchema.mk "object"
         [ ("url", plain "string" "URL to check");
           ("timeout", plain "number" "Request timeout in milliseconds") ]
         ["url"]) ].

Section Dispatch.

Variable E : Env.
Variable isUrl : string -> bool.

(** The error that [parse] throws for an input the schema of the named tool
    rejects. *)
Variable ZodError : string -> Raw.t -> Error.

(** [Schema.parse(args)]. *)
Definition parse {A : Type} (tool : string) (schema : Zod.schema A) (args : Raw.t) : M A :=
  match schema args with
  | Some a => ret a
  | None => throw (ZodError tool args)
  end.

(** The [tools/list] handler. *)
Definition listTools : list Tool.t := TOOLS.

(** The [tools/call] handler: [switch (name)]. *)
Definition callTool (name : string) (args : Raw.t) : M Mcp.CallToolResult :=
  if String.eqb name "fetch-url" then
    a <- parse "fetch-url" (FetchUrlArgsSchema isUrl) args ;;
    handleFetchUrl E a
  else if String.eqb name "extract-html-fragment" then
    a <- parse "extract-html-fragment" (ExtractHtmlFragmentArgsSchema isUrl) args ;;
    handleExtractHtmlFragment E a
  else if String.eqb name "check-status" then
    a <- parse "check-status" (CheckStatusArgsSchema isUrl) args ;;
    handleCheckStatus E a
  else
    ret (failure ("Unknown tool: " ++ name)).

End Dispatch.

(** ** The previous revision of the server *)

(** The revision before [extract-html-fragment] and the [html-fragment]
    response type were added: its [fetch-url] arguments, handler and
    dispatcher.  Its [handleCheckStatus] is the one above, letter for letter. *)
Module Previous.

Module ResponseType.
Inductive t : Type := text | json | binary.
End ResponseType.

Module FetchUrlArgs.
Record t : Type := mk {
  url : string;
  method : Method;
  headers : option (list (string * string));
  body : option string;
  timeout : option number;
  responseType : ResponseType.t;
  followRedirects : bool
}.
End FetchUrlArgs.

Definition response_types : list (string * ResponseType.t) :=
  [ ("text", ResponseType.text); ("json", ResponseType.json);
    ("binary", ResponseType.binary) ].

Section Revision.

Variable E : Env.
Variable isUrl : string -> bool.
Variable ZodError : string -> Raw.t -> Error.

Definition FetchUrlArgsSchema : Zod.schema FetchUrlArgs.t :=
  fun input =>
    match input with
    | Raw.Obj props =>
        url <-? Zod.url isUrl (Raw.field "url" props) ;;
        method <-? Zod.default GET (Zod.enum all_methods) (Raw.field "method" props) ;;
        headers <-? Zod.optional Zod.record (Raw.field "headers" props) ;;
        body <-? Zod.optional Zod.string_ (Raw.field "body" props) ;;
        timeout <-? Zod.optional Zod.positive (Raw.field "timeout" props) ;;
        responseType <-?
          Zod.default ResponseType.text (Zod.enum response_types)
            (Raw.field "responseType" props) ;;
        followRedirects <-?
          Zod.default true Zod.boolean (Raw.field "followRedirects" props) ;;
        Some (FetchUrlArgs.mk url method headers body timeout responseType
                followRedirects)
    | _ => None
    end.

Definition fetchUrlOptions (args : FetchUrlArgs.t) : RequestInit :=
  {| method := FetchUrlArgs.method args;
     headers := Some (or_empty (FetchUrlArgs.headers args));
     body := nonempty (FetchUrlArgs.body args);
     redirect := Some (if FetchUrlArgs.followRedirects args then follow else manual);
     bodyTimeout := nonzero (FetchUrlArgs.timeout args);
     headersTimeout := nonzero (FetchUrlArgs.timeout args) |}.

Definition processResponse (args : FetchUrlArgs.t) (response : Response)
    (result : object) : M object :=
  match FetchUrlArgs.responseType args with
  | ResponseType.json =>
      try_catch
        (jsonContent <- response_json E response ;;
         ret (set "content" (JStr (JSON_stringify_parsed E jsonContent)) result))
        (fun e => throw (mkError ("Failed to parse response as JSON: " ++ message e)))
  | ResponseType.binary =>
      buffer <- response_arrayBuffer response ;;
      let result := set "content" (JStr (base64 E buffer)) result in
      ret (set "encoding" (JStr "base64") result)
  | ResponseType.text =>
      content <- response_text E response ;;
      ret (set "content" (JStr content) result)
  end.

Definition fetchUrlResult (args : FetchUrlArgs.t) : M object :=
  let url := FetchUrlArgs.url args in
  console_error ("Fetching " ++ url ++ " with method "
                   ++ method_name (FetchUrlArgs.method args)) ;;
  response <- await_fetch E url (fetchUrlOptions args) ;;
  processResponse args response (metadata response).

Definition handleFetchUrl (args : FetchUrlArgs.t) : M Mcp.CallToolResult :=
  try_catch
    (result <- fetchUrlResult args ;;
     ret (success E result))
    (fun error =>
       console_error_with "Error fetching URL:" error ;;
       ret (failure ("Error fetching URL: " ++ message error))).

Definition callTool (name : string) (args : Raw.t) : M Mcp.CallToolResult :=
  if String.eqb name "fetch-url" then
    a <- parse ZodError "fetch-url" FetchUrlArgsSchema args ;;
    handleFetchUrl a
  else if String.eqb name "check-status" then
    a <- parse ZodError "check-status" (CheckStatusArgsSchema isUrl) args ;;
    handleCheckStatus E a
  else
    ret (failure ("Unknown tool: " ++ name)).

End Revision.

End Previous.

(** ** The local server of the tests *)

Module TestServer.

(** [http.IncomingMessage]: the server reads nothing of it but the URL. *)
Record IncomingMessage : Type := mkRequest { url : option string }.

(** [http.ServerResponse], as the route handlers leave it: the status code
    (200 until it is assigned), the headers set, the body that [end] was
    called with, and whether the socket has been destroyed. *)
Record ServerResponse : Type := mkResponse {
  statusCode : Z;
  headers : list (string * string);
  ended : option string;
  destroyed : bool
}.

Definition fresh : ServerResponse := mkResponse 200 [] None false.

(** [res.statusCode = code]. *)
Definition setStatusCode (code : Z) (res : ServerResponse) : ServerResponse :=
  mkResponse code (headers res) (ended res) (destroyed res).

(** [res.setHeader(name, value)]. *)
Definition setHeader (name value : string) (res : ServerResponse) : ServerResponse :=
  mkResponse (statusCode res) (put name value (headers res)) (ended res) (destroyed res).

(** [res.end(body)]. *)
Definition end_ (content : string) (res : ServerResponse) : ServerResponse :=
  mkResponse (statusCode res) (headers res) (Some content) (destroyed res).

(** [res.socket?.destroy()], on a response that has its socket. *)
Definition destroySocket (res : ServerResponse) : ServerResponse :=
  mkResponse (statusCode res) (headers res) (ended res) true.

Definition Handler : Type := IncomingMessage -> ServerResponse -> ServerResponse.

(** A [Map] from paths to handlers: [get] and [set]. *)
Fixpoint Map_get (key : string) (m : list (string * Handler)) : option Handler :=
  match m with
  | [] => None
  | (k, h) :: rest => if String.eqb key k then Some h else Map_get key rest
  end.

Fixpoint Map_set (key : string) (h : Handler) (m : list (string * Handler))
    : list (string * Handler) :=
  match m with
  | [] => [(key, h)]
  | (k, h') :: rest =>
      if String.eqb key k then (k, h) :: rest else (k, h') :: Map_set key h rest
  end.

Record t : Type := mk {
  routes : list (string * Handler);
  port : Z
}.

(** [new TestServer(routes)]. *)
Definition create (routes : option (list (string * Handler))) : t :=
  mk (or_empty routes) 0.

(** [handleRequest]. *)
Definition handleRequest (server : t) (req : IncomingMessage) (res : ServerResponse)
    : ServerResponse :=
  let url := match nonempty (url req) with Some u => u | None => "/" end in
  match Map_get url (routes server) with
  | Some handler => handler req res
  | None => end_ "Not Found" (setStatusCode 404 res)
  end.

(** [getBaseUrl]. *)
Definition getBaseUrl (server : t) : string :=
  "http://localhost:" ++ string_of_Z (port server).

(** [addRoute]. *)
Definition addRoute (path : string) (handler : Handler) (server : t) : t :=
  mk (Map_set path handler (routes server)) (port server).

Definition indented (n : nat) (line : string) : string :=
  String.concat "" (repeat " " n) ++ line ++ LF.

(** The template literal of the root route. *)
Definition rootPage : string :=
  LF
    ++ indented 8 "<!DOCTYPE html>"
    ++ indented 8 "<html>"
    ++ indented 10 "<head><title>Test Page</title></head>"
    ++ indented 10 "<body>"
    ++ indented 12 "<h1>Test Heading</h1>"
    ++ indented 12 ("<div class=" ++ quote ++ "content" ++ quote ++ ">")
    ++ indented 14 "<p>This is a test paragraph.</p>"
    ++ indented 12 "</div>"
    ++ indented 10 "</body>"
    ++ indented 8 "</html>"
    ++ "      ".

(** [JSON.stringify({ id: 1, title: 'Test Post', body: 'This is a test post
    body' })]. *)
Definition post : string :=
  "{" ++ quote ++ "id" ++ quote ++ ":1," ++ quote ++ "title" ++ quote ++ ":"
    ++ quote ++ "Test Post" ++ quote ++ "," ++ quote ++ "body" ++ quote ++ ":"
    ++ quote ++ "This is a test post body" ++ quote ++ "}".

Definition root : Handler :=
  fun _ res => end_ rootPage (setHeader "Content-Type" "text/html" res).

Definition json : Handler :=
  fun _ res => end_ post (setHeader "Content-Type" "application/json" res).

(** [res.end()] without data ends the response with an empty body. *)
Definition redirect : Handler :=
  fun _ res => end_ "" (setHeader "Location" "/" (setStatusCode 302 res)).

Definition status : Handler :=
  fun _ res => end_ "OK" (setStatusCode 200 res).

Definition error : Handler :=
  fun _ res => destroySocket res.

(** [addCommonRoutes]. *)
Definition addCommonRoutes (server : t) : t :=
  addRoute "/error" error
    (addRoute "/status" status
       (addRoute "/redirect" redirect
          (addRoute "/json" json
             (addRoute "/" root server)))).

End TestServer.

(** ** Calls used as concrete instances *)

Module Calls.

(** A URL parser that knows the two schemes of the web. *)
Definition isUrl (s : string) : bool :=
  String.prefix "http://" s || String.prefix "https://" s.

Definition ZodError (tool : string) (input : Raw.t) : Error :=
  mkError ("Invalid arguments for tool " ++ tool).

Definition to (path : string) : Raw.t := Raw.Str (Mock.baseUrl ++ path).

End Calls.

(** ** More vocabulary *)

(** How often a trace reads a response body, and how often it parses HTML. *)
Fixpoint body_reads (t : list Event) : nat :=
  match t with
  | [] => 0
  | ReadBody _ :: rest => S (body_reads rest)
  | _ :: rest => body_reads rest
  end.

Fixpoint html_parses (t : list Event) : nat :=
  match t with
  | [] => 0
  | ParseHtml _ :: rest => S (html_parses rest)
  | _ :: rest => html_parses rest
  end.

(** No HTML is parsed before a body has been read: every [ParseHtml] of the
    trace has a [ReadBody] somewhere before it.  [read] says whether a body
    was read before the trace starts. *)
Fixpoint parses_follow_reads (read : bool) (t : list Event) : bool :=
  match t with
  | [] => true
  | ReadBody _ :: rest => parses_follow_reads true rest
  | ParseHtml _ :: rest => read && parses_follow_reads read rest
  | _ :: rest => parses_follow_reads read rest
  end.

(** The names of the fields of a fetch-url result, in their order. *)
Definition fetchUrlFields (args : FetchUrlArgs.t) : list string :=
  ["status"; "statusText"; "headers"; "url"; "content"]
    ++ match FetchUrlArgs.responseType args with
       | ResponseType.text | ResponseType.json => []
       | ResponseType.binary => ["encoding"]
       | ResponseType.html_fragment =>
           match nonempty (FetchUrlArgs.fragmentSelector args) with
           | Some _ => ["matchCount"; "contentType"]
           | None => ["contentType"]
           end
       end.

(** The same call without its [fragmentSelector]. *)
Definition without_selector (args : FetchUrlArgs.t) : FetchUrlArgs.t :=
  FetchUrlArgs.mk
    (FetchUrlArgs.url args) (FetchUrlArgs.method args) (FetchUrlArgs.headers args)
    (FetchUrlArgs.body args) (FetchUrlArgs.timeout args) (FetchUrlArgs.responseType args)
    (FetchUrlArgs.followRedirects args) None.

(** A key that is there only when it has a value. *)
Definition given {A : Type} (key : string) (to_raw : A -> Raw.t) (x : option A)
    : list (string * Raw.t) :=
  match x with
  | Some a => [(key, to_raw a)]
  | None => []
  end.

Definition record_of (entries : list (string * string)) : Raw.t :=
  Raw.Obj (map (fun kv => (fst kv, Raw.Str (snd kv))) entries).

Definition response_type_name (r : ResponseType.t) : string :=
  match r with
  | ResponseType.text => "text"
  | ResponseType.json => "json"
  | ResponseType.binary => "binary"
  | ResponseType.html_fragment => "html-fragment"
  end.

(** Typed arguments written out as the JSON object a client sends. *)
Definition fetchUrlArguments (a : FetchUrlArgs.t) : Raw.t :=
  Raw.Obj
    ([ ("url", Raw.Str (FetchUrlArgs.url a));
       ("method", Raw.Str (method_name (FetchUrlArgs.method a)));
       ("responseType", Raw.Str (response_type_name (FetchUrlArgs.responseType a)));
       ("followRedirects", Raw.Bool (FetchUrlArgs.followRedirects a)) ]
       ++ given "headers" record_of (FetchUrlArgs.headers a)
       ++ given "body" Raw.Str (FetchUrlArgs.body a)
       ++ given "timeout" Raw.Num (FetchUrlArgs.timeout a)
       ++ given "fragmentSelector" Raw.Str (FetchUrlArgs.fragmentSelector a))%list.

Definition extractHtmlFragmentArguments (a : ExtractHtmlFragmentArgs.t) : Raw.t :=
  Raw.Obj
    ([ ("url", Raw.Str (ExtractHtmlFragmentArgs.url a));
       ("selector", Raw.Str (ExtractHtmlFragmentArgs.selector a));
       ("method", Raw.Str (method_name (ExtractHtmlFragmentArgs.method a)));
       ("followRedirects", Raw.Bool (ExtractHtmlFragmentArgs.followRedirects a)) ]
       ++ given "anchorId" Raw.Str (ExtractHtmlFragmentArgs.anchorId a)
       ++ given "headers" record_of (ExtractHtmlFragmentArgs.headers a)
       ++ given "body" Raw.Str (ExtractHtmlFragmentArgs.body a)
       ++ given "timeout" Raw.Num (ExtractHtmlFragmentArgs.timeout a))%list.

Definition checkStatusArguments (a : CheckStatusArgs.t) : Raw.t :=
  Raw.Obj
    ([ ("url", Raw.Str (CheckStatusArgs.url a)) ]
       ++ given "timeout" Raw.Num (CheckStatusArgs.timeout a))%list.

(** A timeout that is there is positive. *)
Definition positive_timeout (timeout : option number) : Prop :=
  forall T : number, timeout = Some T -> (0 < T)%Q.

(** The revision's arguments read as arguments of the present one. *)
Definition upgraded (a : Previous.FetchUrlArgs.t) (fragmentSelector : option string)
    : FetchUrlArgs.t :=
  FetchUrlArgs.mk
    (Previous.FetchUrlArgs.url a) (Previous.FetchUrlArgs.method a)
    (Previous.FetchUrlArgs.headers a) (Previous.FetchUrlArgs.body a)
    (Previous.FetchUrlArgs.timeout a)
    match Previous.FetchUrlArgs.responseType a with
    | Previous.ResponseType.text => ResponseType.text
    | Previous.ResponseType.json => ResponseType.json
    | Previous.ResponseType.binary => ResponseType.binary
    end
    (Previous.FetchUrlArgs.followRedirects a) fragmentSelector.

(** The URL a request is routed by: [req.url || '/']. *)
Definition requested (req : TestServer.IncomingMessage) : string :=
  match nonempty (TestServer.url req) with
  | Some u => u
  | None => "/"
  end.

(** The paths of [addCommonRoutes]. *)
Definition commonPaths : list string := ["/"; "/json"; "/redirect"; "/status"; "/error"].

(** The keys that each schema names. *)
Definition fetchUrlKeys : list string :=
  [ "url"; "method"; "headers"; "body"; "timeout"; "responseType"; "followRedirects";
    "fragmentSelector" ].

Definition extractHtmlFragmentKeys : list string :=
  [ "url"; "selector"; "anchorId"; "method"; "headers"; "body"; "timeout";
    "followRedirects" ].

Definition checkStatusKeys : list string := ["url"; "timeout"].

(** Two objects that hold the same under each of the keys. *)
Definition agree_on (keys : list string) (props props' : list (string * Raw.t)) : Prop :=
  forall key : string, In key keys -> Raw.field key props = Raw.field key props'.

(** The schema [tools/call] holds the arguments of a tool against. *)
Definition accepts (isUrl : string -> bool) (tool : string) (input : Raw.t) : bool :=
  if String.eqb tool "fetch-url" then
    match FetchUrlArgsSchema isUrl input with Some _ => true | None => false end
  else if String.eqb tool "extract-html-fragment" then
    match ExtractHtmlFragmentArgsSchema isUrl input with Some _ => true | None => false end
  else if String.eqb tool "check-status" then
    match CheckStatusArgsSchema isUrl input with Some _ => true | None => false end
  else false.

(** ** Laws of the effect monad *)

Lemma outcome_bind {A B : Type} (m : M A) (k : A -> M B) :
  outcome (bind m k) =
  match outcome m with
  | inl e => inl e
  | inr a => outcome (k a)
  end.
Proof.
  destruct m as [t [e | a]]; simpl; [reflexivity |].
  destruct (k a); reflexivity.
Qed.

Lemma trace_bind {A B : Type} (m : M A) (k : A -> M B) :
  trace (bind m k) =
  (trace m ++ match outcome m with
              | inl _ => []
              | inr a => trace (k a)
              end)%list.
Proof.
  destruct m as [t [e | a]]; simpl.
  - now rewrite app_nil_r.
  - destruct (k a); reflexivity.
Qed.

Lemma outcome_try_catch {A : Type} (m : M A) (h : Error -> M A) :
  outcome (try_catch m h) =
  match outcome m with
  | inl e => outcome (h e)
  | inr a => inr a
  end.
Proof.
  destruct m as [t [e | a]]; simpl; [| reflexivity].
  destruct (h e); reflexivity.
Qed.

Lemma trace_try_catch {A : Type} (m : M A) (h : Error -> M A) :
  trace (try_catch m h) =
  (trace m ++ match outcome m with
              | inl e => trace (h e)
              | inr _ => []
              end)%list.
Proof.
  destruct m as [t [e | a]]; simpl.
  - destruct (h e); reflexivity.
  - now rewrite app_nil_r.
Qed.

Lemma requests_app (t u : list Event) :
  requests (t ++ u)%list = (requests t ++ requests u)%list.
Proof.
  induction t as [| ev t IH]; simpl; [reflexivity |].
  destruct ev; simpl; now rewrite IH.
Qed.

(** ** The envelope of each handler *)

Section Envelopes.

Variable E : Env.

Lemma envelope_outcome (m : M object) (line tag : string) :
  outcome
    (try_catch (result <- m ;; ret (success E result))
       (fun error =>
          console_error_with line error ;; ret (failure (tag ++ message error))))
  = inr (answer E tag (outcome m)).
Proof.
  rewrite outcome_try_catch, outcome_bind.
  destruct (outcome m); reflexivity.
Qed.

Lemma envelope_trace (m : M object) (line tag : string) :
  trace
    (try_catch (result <- m ;; ret (success E result))
       (fun error =>
          console_error_with line error ;; ret (failure (tag ++ message error))))
  = (trace m ++ match outcome m with
                | inl e => [ConsoleError line (Some e)]
                | inr _ => []
                end)%list.
Proof.
  rewrite trace_try_catch, trace_bind, outcome_bind.
  destruct (outcome m); simpl; now rewrite ?app_nil_r.
Qed.

Lemma handleFetchUrl_outcome (args : FetchUrlArgs.t) :
  outcome (handleFetchUrl E args)
  = inr (answer E "Error fetching URL: " (outcome (fetchUrlResult E args))).
Proof. apply envelope_outcome. Qed.

Lemma handleExtractHtmlFragment_outcome (args : ExtractHtmlFragmentArgs.t) :
  outcome (handleExtractHtmlFragment E args)
  = inr (answer E "Error extracting HTML fragment: "
           (outcome (extractHtmlFragmentResult E args))).
Proof. apply envelope_outcome. Qed.

Lemma handleCheckStatus_outcome (args : CheckStatusArgs.t) :
  outcome (handleCheckStatus E args)
  = inr (answer E "Error checking URL status: " (outcome (checkStatusResult E args))).
Proof. apply envelope_outcome. Qed.

(** The [try] blocks, once [fetch] has answered. *)
Lemma checkStatusResult_fetched (args : CheckStatusArgs.t) (r : Response) :
  fetch E (CheckStatusArgs.url args) (checkStatusOptions args) = inr r ->
  outcome (checkStatusResult E args)
  = inr [ ("status", JNum (status r));
          ("statusText", JStr (statusText r));
          ("headers", fromEntries (entries r));
          ("url", JStr (url r));
          ("isAvailable", JBool (ok r)) ].
Proof.
  intros H. unfold checkStatusResult, await_fetch, perform, console_error, emit.
  rewrite H. reflexivity.
Qed.

Lemma fetchUrlResult_fetched (args : FetchUrlArgs.t) (r : Response) :
  fetch E (FetchUrlArgs.url args) (fetchUrlOptions args) = inr r ->
  outcome (fetchUrlResult E args) = outcome (processResponse E args r (metadata r)).
Proof.
  intros H. unfold fetchUrlResult, await_fetch, perform, console_error, emit.
  rewrite H. simpl.
  destruct (processResponse E args r (metadata r)); reflexivity.
Qed.

End Envelopes.

(** ** The response transformer *)

Lemma processResponse_outcome E args r result :
  outcome (processResponse E args r result) = transformed E args r result.
Proof.
  unfold processResponse, transformed.
  destruct (FetchUrlArgs.responseType args).
  - unfold response_text, perform. destruct (payload r); reflexivity.
  - unfold response_json, perform. destruct (payload r) as [e | bytes]; [reflexivity |].
    destruct (JSON_parse E (decode E bytes)); reflexivity.
  - unfold response_arrayBuffer, perform. destruct (payload r); reflexivity.
  - unfold response_text, new_JSDOM, perform, call.
    destruct (payload r) as [e | bytes]; [reflexivity |].
    cbn.
    destruct (JSDOM E (decode E bytes)) as [e | document]; [reflexivity |].
    destruct (nonempty (FetchUrlArgs.fragmentSelector args)) as [selector |];
      [| reflexivity].
    destruct (querySelectorAll E document selector) as [e | [| el [| el' rest]]];
      reflexivity.
Qed.

(** ** check-status: availability *)

Lemma ok_iff_2xx (r : Response) : ok r = true <-> 200 <= status r <= 299.
Proof. unfold ok. rewrite andb_true_iff, !Z.leb_le. tauto. Qed.

(** C1, as amended.  For every check-status call whose HTTP exchange completes
    with status code S, the call returns a result that carries S and whose
    [isAvailable] is [response.ok]: it is [true] if and only if S is in the
    range 200 to 299 inclusive. *)
Theorem check_status_available_iff_2xx
    (E : Env) (args : CheckStatusArgs.t) (r : Response) :
  fetch E (CheckStatusArgs.url args) (checkStatusOptions args) = inr r ->
  exists (result : object) (isAvailable : bool),
    outcome (checkStatusResult E args) = inr result
    /\ outcome (handleCheckStatus E args) = inr (success E result)
    /\ get "status" result = Some (JNum (status r))
    /\ get "isAvailable" result = Some (JBool isAvailable)
    /\ (isAvailable = true <-> 200 <= status r <= 299).
Proof.
  intros H.
  eexists; exists (ok r).
  rewrite handleCheckStatus_outcome, (checkStatusResult_fetched E args r H).
  split; [reflexivity |].
  split; [reflexivity |].
  split; [reflexivity |].
  split; [reflexivity | apply ok_iff_2xx].
Qed.

Lemma check_status_available_iff_2xx_witness :
  fetch Mock.env (CheckStatusArgs.url (Samples.check "/status" None))
    (checkStatusOptions (Samples.check "/status" None)) = inr Samples.okStatus
  /\ exists (result : object) (isAvailable : bool),
       outcome (checkStatusResult Mock.env (Samples.check "/status" None)) = inr result
       /\ outcome (handleCheckStatus Mock.env (Samples.check "/status" None))
          = inr (success Mock.env result)
       /\ get "status" result = Some (JNum (status Samples.okStatus))
       /\ get "isAvailable" result = Some (JBool isAvailable)
       /\ (isAvailable = true <-> 200 <= status Samples.okStatus <= 299).
Proof.
  split; [reflexivity |].
  apply (check_status_available_iff_2xx Mock.env (Samples.check "/status" None)
           Samples.okStatus).
  reflexivity.
Defined.

(** C1, as stated, fails at status 304: the status is in the range 200 to 399
    and the call reports [isAvailable = false]. *)
Lemma check_status_304_not_available :
  fetch Mock.env (CheckStatusArgs.url (Samples.check "/not-modified" None))
    (checkStatusOptions (Samples.check "/not-modified" None)) = inr Samples.notModified
  /\ status Samples.notModified = 304
  /\ 200 <= status Samples.notModified <= 399
  /\ outcome (checkStatusResult Mock.env (Samples.check "/not-modified" None))
     = inr [ ("status", JNum 304);
             ("statusText", JStr "Not Modified");
             ("headers", JRec []);
             ("url", JStr "http://localhost:8080/not-modified");
             ("isAvailable", JBool false) ]
  /\ outcome (handleCheckStatus Mock.env (Samples.check "/not-modified" None))
     = inr (success Mock.env
              [ ("status", JNum 304);
                ("statusText", JStr "Not Modified");
                ("headers", JRec []);
                ("url", JStr "http://localhost:8080/not-modified");
                ("isAvailable", JBool false) ]).
Proof.
  split; [reflexivity |].
  split; [reflexivity |].
  split; [simpl; lia |].
  split; reflexivity.
Qed.

(** The transformer reads the payload only: the status code and the result
    object it fills in decide nothing about its failures. *)
Lemma transformed_error_irrelevant
    (E : Env) (args : FetchUrlArgs.t) (r r' : Response) (o o' : object) (e : Error) :
  payload r = payload r' ->
  transformed E args r o = inl e <-> transformed E args r' o' = inl e.
Proof.
  intros Hp. unfold transformed. rewrite <- Hp.
  destruct (FetchUrlArgs.responseType args);
    destruct (payload r) as [e0 | bytes]; try tauto;
    try (split; intros H; discriminate H).
  - destruct (JSON_parse E (decode E bytes)); [tauto | split; intros H; discriminate H].
  - destruct (JSDOM E (decode E bytes)) as [e1 | document]; [tauto |].
    destruct (nonempty (FetchUrlArgs.fragmentSelector args)) as [selector |];
      [| split; intros H; discriminate H].
    destruct (querySelectorAll E document selector) as [e2 | [| el [| el' rest]]];
      try tauto; split; intros H; discriminate H.
Qed.

(** Whatever the transformer adds, the metadata stays. *)
Lemma transformed_metadata
    (E : Env) (args : FetchUrlArgs.t) (r : Response) (result : object) :
  transformed E args r (metadata r) = inr result ->
  get "status" result = Some (JNum (status r))
  /\ get "statusText" result = Some (JStr (statusText r))
  /\ get "headers" result = Some (fromEntries (entries r))
  /\ get "url" result = Some (JStr (url r)).
Proof.
  unfold transformed.
  destruct (FetchUrlArgs.responseType args);
    destruct (payload r) as [e0 | bytes]; try discriminate.
  - intros H; injection H as <-; repeat split.
  - destruct (JSON_parse E (decode E bytes)); [discriminate |].
    intros H; injection H as <-; repeat split.
  - intros H; injection H as <-; repeat split.
  - destruct (JSDOM E (decode E bytes)) as [e1 | document]; [discriminate |].
    destruct (nonempty (FetchUrlArgs.fragmentSelector args)) as [selector |].
    + destruct (querySelectorAll E document selector) as [e2 | [| el [| el' rest]]];
        try discriminate; intros H; injection H as <-; repeat split.
    + intros H; injection H as <-; repeat split.
Qed.

Lemma fetchUrlResult_serving (E : Env) (args : FetchUrlArgs.t) (r : Response) :
  outcome (fetchUrlResult (serving E r) args) = transformed E args r (metadata r).
Proof.
  rewrite (fetchUrlResult_fetched (serving E r) args r eq_refl).
  rewrite processResponse_outcome. reflexivity.
Qed.

(** The answer of extract-html-fragment to a response that is not [ok]. *)
Lemma handleExtractHtmlFragment_not_ok
    (E : Env) (args : ExtractHtmlFragmentArgs.t) (r : Response) :
  fetch E (ExtractHtmlFragmentArgs.url args) (extractOptions args) = inr r ->
  ok r = false ->
  handleExtractHtmlFragment E args
  = ([ ConsoleError
         ("Extracting HTML fragment from " ++ ExtractHtmlFragmentArgs.url args
            ++ " using selector " ++ quote ++ ExtractHtmlFragmentArgs.selector args
            ++ quote) None;
       Fetch (ExtractHtmlFragmentArgs.url args) (extractOptions args);
       ConsoleError "Error extracting HTML fragment:" (Some (mkError (http_failure r))) ],
     inr (failure ("Error extracting HTML fragment: " ++ http_failure r))).
Proof.
  intros H Hok.
  unfold handleExtractHtmlFragment, extractHtmlFragmentResult, await_fetch, perform.
  rewrite H. cbn. rewrite Hok. reflexivity.
Qed.

(** ** Status codes outside 200 to 299 *)

(** C2.  For every HTTP exchange that completes with a non-2xx status code:
    check-status returns a success result that carries the status; fetch-url
    returns a success result that carries the status whenever the requested
    representation can be produced from the body (always so for [text] and
    [binary] when the body is readable), and the status by itself is never an
    error for it: under any other status code the same response fails with
    exactly the same errors; extract-html-fragment fails with the message
    [Failed to fetch URL: HTTP <status> <statusText>], which includes the
    status code, and it neither reads nor parses the response body. *)
Theorem non_2xx_status (E : Env) (r : Response) :
  ok r = false ->
  (forall args : CheckStatusArgs.t,
     fetch E (CheckStatusArgs.url args) (checkStatusOptions args) = inr r ->
     exists result : object,
       outcome (checkStatusResult E args) = inr result
       /\ outcome (handleCheckStatus E args) = inr (success E result)
       /\ get "status" result = Some (JNum (status r))
       /\ get "statusText" result = Some (JStr (statusText r)))
  /\ (forall args : FetchUrlArgs.t,
        fetch E (FetchUrlArgs.url args) (fetchUrlOptions args) = inr r ->
        (forall result : object,
           outcome (fetchUrlResult E args) = inr result ->
           outcome (handleFetchUrl E args) = inr (success E result)
           /\ get "status" result = Some (JNum (status r))
           /\ get "statusText" result = Some (JStr (statusText r)))
        /\ (forall bytes : list byte,
              payload r = inr bytes ->
              FetchUrlArgs.responseType args = ResponseType.text
              \/ FetchUrlArgs.responseType args = ResponseType.binary ->
              exists result : object, outcome (fetchUrlResult E args) = inr result)
        /\ (forall (code : Z) (e : Error),
              outcome (fetchUrlResult (serving E (with_status code r)) args) = inl e
              <-> outcome (fetchUrlResult E args) = inl e))
  /\ (forall args : ExtractHtmlFragmentArgs.t,
        fetch E (ExtractHtmlFragmentArgs.url args) (extractOptions args) = inr r ->
        outcome (handleExtractHtmlFragment E args)
        = inr (failure ("Error extracting HTML fragment: " ++ http_failure r))
        /\ includes ("Error extracting HTML fragment: " ++ http_failure r)
             (string_of_Z (status r))
        /\ existsb touches_body (trace (handleExtractHtmlFragment E args)) = false).
Proof.
  intros Hok. split; [| split].
  - intros args H. eexists.
    rewrite handleCheckStatus_outcome, (checkStatusResult_fetched E args r H).
    repeat split.
  - intros args H.
    rewrite handleFetchUrl_outcome, (fetchUrlResult_fetched E args r H),
      processResponse_outcome.
    split; [| split].
    + intros result Hres. rewrite Hres.
      destruct (transformed_metadata E args r result Hres) as (Hs & Ht & _).
      auto.
    + intros bytes Hp Hmode. unfold transformed.
      destruct Hmode as [-> | ->]; rewrite Hp; eexists; reflexivity.
    + intros code e. rewrite fetchUrlResult_serving.
      apply transformed_error_irrelevant. reflexivity.
  - intros args H.
    rewrite (handleExtractHtmlFragment_not_ok E args r H Hok).
    split; [reflexivity | split; [| reflexivity]].
    exists "Error extracting HTML fragment: Failed to fetch URL: HTTP ".
    exists (" " ++ statusText r). reflexivity.
Qed.

Lemma non_2xx_status_witness :
  ok Samples.notFound = false
  /\ (exists result : object,
        outcome (handleCheckStatus Mock.env (Samples.check "/missing" None))
        = inr (success Mock.env result)
        /\ get "status" result = Some (JNum 404))
  /\ (exists result : object,
        outcome (handleFetchUrl Mock.env (Samples.get_as "/missing" ResponseType.text None))
        = inr (success Mock.env result)
        /\ get "status" result = Some (JNum 404))
  /\ outcome (handleExtractHtmlFragment Mock.env (Samples.extract "/missing" "h1" None))
     = inr (failure "Error extracting HTML fragment: Failed to fetch URL: HTTP 404 Not Found").
Proof.
  destruct (non_2xx_status Mock.env Samples.notFound eq_refl) as (Hcheck & Hfetch & Hextract).
  split; [reflexivity |].
  split; [| split].
  - destruct (Hcheck (Samples.check "/missing" None) eq_refl) as (result & _ & H & Hs & _).
    exists result. split; assumption.
  - destruct (Hfetch (Samples.get_as "/missing" ResponseType.text None) eq_refl)
      as (Hdescribes & Hreadable & _).
    destruct (Hreadable (Mock.bytes "Not Found") eq_refl (or_introl eq_refl))
      as (result & Hres).
    exists result. destruct (Hdescribes result Hres) as (H & Hs & _).
    split; assumption.
  - destruct (Hextract (Samples.extract "/missing" "h1" None) eq_refl) as (H & _).
    exact H.
Defined.

(** ** Fragments *)

Lemma extractHtmlFragmentResult_fetched
    (E : Env) (args : ExtractHtmlFragmentArgs.t) (r : Response) :
  fetch E (ExtractHtmlFragmentArgs.url args) (extractOptions args) = inr r ->
  outcome (extractHtmlFragmentResult E args) = extracted E args r.
Proof.
  intros H.
  unfold extractHtmlFragmentResult, extracted, await_fetch, response_text, new_JSDOM,
    checkAnchor, missing_anchor, perform, call.
  rewrite H. cbn.
  destruct (ok r); [| reflexivity]. cbn.
  destruct (payload r) as [e | bytes]; [reflexivity |]. cbn.
  destruct (JSDOM E (decode E bytes)) as [e | document]; [reflexivity |]. cbn.
  destruct (nonempty (ExtractHtmlFragmentArgs.anchorId args)) as [id |]; cbn.
  - destruct (getElementById E document id) as [anchor |]; [| reflexivity]. cbn.
    destruct (querySelectorAll E document (ExtractHtmlFragmentArgs.selector args))
      as [e | [| el [| el' rest]]]; reflexivity.
  - destruct (querySelectorAll E document (ExtractHtmlFragmentArgs.selector args))
      as [e | [| el [| el' rest]]]; reflexivity.
Qed.

(** A selector that the DOM accepts is not the empty string. *)
Lemma accepted_selector_nonempty
    (E : Env) (document : Document E) (selector : string) (elements : list (Element E)) :
  querySelectorAll E document selector = inr elements ->
  nonempty (Some selector) = Some selector.
Proof.
  intros H. destruct selector as [| c rest]; [| reflexivity].
  destruct (empty_selector_invalid E document) as [e He].
  rewrite He in H. discriminate H.
Qed.

(** C3.  For every document and selector matching N > 1 elements: fetch-url
    with responseType=html-fragment returns [content] equal to the N elements'
    outer markup, in the order of the match, joined by line feeds into one
    string, with [matchCount = N]; extract-html-fragment returns [html] as the
    array of the N elements' outer markup, one string per element in the same
    order, with [matchCount = N]. *)
Theorem many_matches
    (E : Env) (r : Response) (document : Document E) (selector : string)
    (elements : list (Element E)) :
  querySelectorAll E document selector = inr elements ->
  (1 < length elements)%nat ->
  (forall args : FetchUrlArgs.t,
     FetchUrlArgs.responseType args = ResponseType.html_fragment ->
     FetchUrlArgs.fragmentSelector args = Some selector ->
     Fetched E (FetchUrlArgs.url args) (fetchUrlOptions args) r document ->
     exists result : object,
       outcome (fetchUrlResult E args) = inr result
       /\ outcome (handleFetchUrl E args) = inr (success E result)
       /\ get "content" result = Some (JStr (join LF (map (outerHTML E) elements)))
       /\ get "matchCount" result = Some (JNum (Z.of_nat (length elements))))
  /\ (forall args : ExtractHtmlFragmentArgs.t,
        ExtractHtmlFragmentArgs.selector args = selector ->
        Fetched E (ExtractHtmlFragmentArgs.url args) (extractOptions args) r document ->
        ok r = true ->
        missing_anchor E document (ExtractHtmlFragmentArgs.anchorId args) = None ->
        exists result : object,
          outcome (extractHtmlFragmentResult E args) = inr result
          /\ outcome (handleExtractHtmlFragment E args) = inr (success E result)
          /\ get "html" result = Some (JArr (map (outerHTML E) elements))
          /\ get "matchCount" result = Some (JNum (Z.of_nat (length elements)))).
Proof.
  intros Hq Hn.
  destruct elements as [| el [| el' rest]]; simpl in Hn; try lia.
  split.
  - intros args Hmode Hsel (Hf & bytes & Hp & Hd).
    rewrite handleFetchUrl_outcome, (fetchUrlResult_fetched E args r Hf),
      processResponse_outcome.
    unfold transformed.
    rewrite Hmode, Hp, Hd, Hsel, (accepted_selector_nonempty E document selector _ Hq), Hq.
    eexists. repeat split.
  - intros args Hsel (Hf & bytes & Hp & Hd) Hok Ha.
    rewrite handleExtractHtmlFragment_outcome,
      (extractHtmlFragmentResult_fetched E args r Hf).
    unfold extracted. rewrite Hok, Hp, Hd, Ha, Hsel, Hq.
    eexists. repeat split.
Qed.

Lemma many_matches_witness :
  querySelectorAll Mock.env Mock.sectionsDocument "p"
  = inr [Mock.mkNode "p" None "<p>One</p>"; Mock.mkNode "p" None "<p>Two</p>"]
  /\ (exists result : object,
        outcome (handleFetchUrl Mock.env
                   (Samples.get_as "/sections" ResponseType.html_fragment (Some "p")))
        = inr (success Mock.env result)
        /\ get "content" result = Some (JStr ("<p>One</p>" ++ LF ++ "<p>Two</p>"))
        /\ get "matchCount" result = Some (JNum 2))
  /\ (exists result : object,
        outcome (handleExtractHtmlFragment Mock.env (Samples.extract "/sections" "p" None))
        = inr (success Mock.env result)
        /\ get "html" result = Some (JArr ["<p>One</p>"; "<p>Two</p>"])
        /\ get "matchCount" result = Some (JNum 2)).
Proof.
  destruct (many_matches Mock.env Samples.sections Mock.sectionsDocument "p"
              [Mock.mkNode "p" None "<p>One</p>"; Mock.mkNode "p" None "<p>Two</p>"]
              eq_refl (le_n 2)) as (Hfetch & Hextract).
  split; [reflexivity |].
  split.
  - destruct (Hfetch (Samples.get_as "/sections" ResponseType.html_fragment (Some "p"))
                eq_refl eq_refl
                (conj eq_refl (ex_intro _ (Mock.bytes Mock.sectionsPage)
                                 (conj eq_refl eq_refl))))
      as (result & _ & H & Hc & Hn).
    exists result. repeat split; assumption.
  - destruct (Hextract (Samples.extract "/sections" "p" None) eq_refl
                (conj eq_refl (ex_intro _ (Mock.bytes Mock.sectionsPage)
                                 (conj eq_refl eq_refl)))
                eq_refl eq_refl)
      as (result & _ & H & Hh & Hn).
    exists result. repeat split; assumption.
Defined.

(** The outcome of the [try] block of fetch-url, in every case. *)
Lemma fetchUrlResult_outcome (E : Env) (args : FetchUrlArgs.t) :
  outcome (fetchUrlResult E args)
  = match fetch E (FetchUrlArgs.url args) (fetchUrlOptions args) with
    | inl e => inl e
    | inr r => transformed E args r (metadata r)
    end.
Proof.
  destruct (fetch E (FetchUrlArgs.url args) (fetchUrlOptions args)) as [e | r] eqn:H.
  - unfold fetchUrlResult, await_fetch, perform. rewrite H. reflexivity.
  - rewrite (fetchUrlResult_fetched E args r H). apply processResponse_outcome.
Qed.

Lemma extractHtmlFragmentResult_outcome (E : Env) (args : ExtractHtmlFragmentArgs.t) :
  outcome (extractHtmlFragmentResult E args)
  = match fetch E (ExtractHtmlFragmentArgs.url args) (extractOptions args) with
    | inl e => inl e
    | inr r => extracted E args r
    end.
Proof.
  destruct (fetch E (ExtractHtmlFragmentArgs.url args) (extractOptions args))
    as [e | r] eqn:H.
  - unfold extractHtmlFragmentResult, await_fetch, perform. rewrite H. reflexivity.
  - apply (extractHtmlFragmentResult_fetched E args r H).
Qed.

(** A count that a result carries is the length of a list that is not empty. *)
Lemma transformed_matchCount
    (E : Env) (args : FetchUrlArgs.t) (r : Response) (result : object) (n : Z) :
  transformed E args r (metadata r) = inr result ->
  get "matchCount" result = Some (JNum n) ->
  1 <= n.
Proof.
  unfold transformed.
  destruct (FetchUrlArgs.responseType args);
    destruct (payload r) as [e0 | bytes]; try discriminate.
  - intros H; injection H as <-; discriminate.
  - destruct (JSON_parse E (decode E bytes)); [discriminate |].
    intros H; injection H as <-; discriminate.
  - intros H; injection H as <-; discriminate.
  - destruct (JSDOM E (decode E bytes)) as [e1 | document]; [discriminate |].
    destruct (nonempty (FetchUrlArgs.fragmentSelector args)) as [selector |].
    + destruct (querySelectorAll E document selector) as [e2 | [| el [| el' rest]]];
        try discriminate; intros H; injection H as <-; intros Hn;
        injection Hn as <-; simpl length; lia.
    + intros H; injection H as <-; discriminate.
Qed.

Lemma extracted_matchCount
    (E : Env) (args : ExtractHtmlFragmentArgs.t) (r : Response) (result : object) (n : Z) :
  extracted E args r = inr result ->
  get "matchCount" result = Some (JNum n) ->
  1 <= n.
Proof.
  unfold extracted.
  destruct (ok r); [| discriminate].
  destruct (payload r) as [e0 | bytes]; [discriminate |].
  destruct (JSDOM E (decode E bytes)) as [e1 | document]; [discriminate |].
  destruct (missing_anchor E document (ExtractHtmlFragmentArgs.anchorId args));
    [discriminate |].
  destruct (querySelectorAll E document (ExtractHtmlFragmentArgs.selector args))
    as [e2 | [| el elements]]; try discriminate.
  intros H; injection H as <-; intros Hn; injection Hn as <-.
  simpl length. lia.
Qed.

(** C6.  For every document and every selector that matches zero elements,
    both fragment-extraction paths fail with the message
    [No elements found matching selector "<selector>"], which contains the
    selector text: fetch-url with responseType=html-fragment and a
    fragmentSelector, and extract-html-fragment once its anchor check has
    passed.  Neither path ever returns a result whose [matchCount] is 0. *)
Theorem no_match (E : Env) :
  (forall (r : Response) (document : Document E) (selector : string),
     querySelectorAll E document selector = inr [] ->
     (forall args : FetchUrlArgs.t,
        FetchUrlArgs.responseType args = ResponseType.html_fragment ->
        FetchUrlArgs.fragmentSelector args = Some selector ->
        Fetched E (FetchUrlArgs.url args) (fetchUrlOptions args) r document ->
        outcome (handleFetchUrl E args)
        = inr (failure ("Error fetching URL: Failed to parse or extract HTML fragment: "
                          ++ no_elements_found selector))
        /\ includes
             ("Error fetching URL: Failed to parse or extract HTML fragment: "
                ++ no_elements_found selector) selector)
     /\ (forall args : ExtractHtmlFragmentArgs.t,
           ExtractHtmlFragmentArgs.selector args = selector ->
           Fetched E (ExtractHtmlFragmentArgs.url args) (extractOptions args) r document ->
           ok r = true ->
           missing_anchor E document (ExtractHtmlFragmentArgs.anchorId args) = None ->
           outcome (handleExtractHtmlFragment E args)
           = inr (failure ("Error extracting HTML fragment: " ++ no_elements_found selector))
           /\ includes ("Error extracting HTML fragment: " ++ no_elements_found selector)
                selector))
  /\ (forall (args : FetchUrlArgs.t) (result : object) (n : Z),
        outcome (fetchUrlResult E args) = inr result ->
        get "matchCount" result = Some (JNum n) ->
        1 <= n)
  /\ (forall (args : ExtractHtmlFragmentArgs.t) (result : object) (n : Z),
        outcome (extractHtmlFragmentResult E args) = inr result ->
        get "matchCount" result = Some (JNum n) ->
        1 <= n).
Proof.
  split; [| split].
  - intros r document selector Hq. split.
    + intros args Hmode Hsel (Hf & bytes & Hp & Hd).
      rewrite handleFetchUrl_outcome, (fetchUrlResult_fetched E args r Hf),
        processResponse_outcome.
      unfold transformed.
      rewrite Hmode, Hp, Hd, Hsel, (accepted_selector_nonempty E document selector _ Hq), Hq.
      split; [reflexivity |].
      exists ("Error fetching URL: Failed to parse or extract HTML fragment: "
                ++ "No elements found matching selector " ++ quote).
      exists quote. reflexivity.
    + intros args Hsel (Hf & bytes & Hp & Hd) Hok Ha.
      rewrite handleExtractHtmlFragment_outcome,
        (extractHtmlFragmentResult_fetched E args r Hf).
      unfold extracted. rewrite Hok, Hp, Hd, Ha, Hsel, Hq.
      split; [reflexivity |].
      exists ("Error extracting HTML fragment: "
                ++ "No elements found matching selector " ++ quote).
      exists quote. reflexivity.
  - intros args result n. rewrite fetchUrlResult_outcome.
    destruct (fetch E (FetchUrlArgs.url args) (fetchUrlOptions args)) as [e | r];
      [discriminate |].
    apply transformed_matchCount.
  - intros args result n. rewrite extractHtmlFragmentResult_outcome.
    destruct (fetch E (ExtractHtmlFragmentArgs.url args) (extractOptions args))
      as [e | r]; [discriminate |].
    apply extracted_matchCount.
Qed.

Lemma no_match_witness :
  querySelectorAll Mock.env Mock.testDocument "nonexistent-element" = inr []
  /\ outcome (handleFetchUrl Mock.env
                (Samples.get_as "/" ResponseType.html_fragment (Some "nonexistent-element")))
     = inr (failure ("Error fetching URL: Failed to parse or extract HTML fragment: "
                       ++ no_elements_found "nonexistent-element"))
  /\ outcome (handleExtractHtmlFragment Mock.env
                (Samples.extract "/" "nonexistent-element" None))
     = inr (failure ("Error extracting HTML fragment: "
                       ++ no_elements_found "nonexistent-element")).
Proof.
  destruct (no_match Mock.env) as (Hnone & _ & _).
  destruct (Hnone Samples.home Mock.testDocument "nonexistent-element" eq_refl)
    as (Hfetch & Hextract).
  split; [reflexivity |].
  split.
  - refine (proj1 (Hfetch (Samples.get_as "/" ResponseType.html_fragment
                                (Some "nonexistent-element")) eq_refl eq_refl _)).
    split; [reflexivity |].
    exists (Mock.bytes Mock.testPage). split; reflexivity.
  - refine (proj1 (Hextract (Samples.extract "/" "nonexistent-element" None)
                     eq_refl _ eq_refl eq_refl)).
    split; [reflexivity |].
    exists (Mock.bytes Mock.testPage). split; reflexivity.
Defined.

(** ** The anchor check *)

Lemma nonempty_some (s : string) : s <> "" -> nonempty (Some s) = Some s.
Proof. destruct s; [congruence | reflexivity]. Qed.

(** Without a (non-empty) anchor id, or with one that the document holds, the
    anchor check does nothing at all. *)
Lemma handleExtractHtmlFragment_anchor_passes
    (E : Env) (args : ExtractHtmlFragmentArgs.t) :
  (forall (r : Response) (document : Document E),
     Fetched E (ExtractHtmlFragmentArgs.url args) (extractOptions args) r document ->
     missing_anchor E document (ExtractHtmlFragmentArgs.anchorId args) = None) ->
  handleExtractHtmlFragment E args = handleExtractHtmlFragment E (without_anchor args).
Proof.
  intros Hpass.
  destruct args as [target selector anchorId method headers body timeout followRedirects].
  unfold handleExtractHtmlFragment, extractHtmlFragmentResult, await_fetch,
    response_text, new_JSDOM, perform, call, without_anchor, extractOptions in *.
  cbn in *.
  match goal with
  | |- context [fetch E target ?o] => destruct (fetch E target o) as [e | r] eqn:Hf
  end; [reflexivity |].
  cbn. destruct (ok r); [| reflexivity]. cbn.
  destruct (payload r) as [e | bytes] eqn:Hp; [reflexivity |]. cbn.
  destruct (JSDOM E (decode E bytes)) as [e | document] eqn:Hd; [reflexivity |]. cbn.
  specialize (Hpass r document (conj Hf (ex_intro _ bytes (conj Hp Hd)))).
  unfold checkAnchor, missing_anchor in *.
  destruct (nonempty anchorId) as [id |]; [| reflexivity].
  destruct (getElementById E document id); [reflexivity | discriminate Hpass].
Qed.

(** C5, as amended.  For every extract-html-fragment call supplying a
    non-empty anchorId: if the fetched document contains no element whose id
    equals anchorId, the call fails with the message
    [Anchor element with ID "<anchorId>" not found], which contains the anchor
    id; if such an element exists, the call is the same call without anchorId,
    with the same events and the same answer.  An empty anchorId is not
    checked: that call too is the same call without anchorId. *)
Theorem anchor_gate (E : Env) (args : ExtractHtmlFragmentArgs.t) :
  (forall (id : string) (r : Response) (document : Document E),
     ExtractHtmlFragmentArgs.anchorId args = Some id ->
     id <> "" ->
     Fetched E (ExtractHtmlFragmentArgs.url args) (extractOptions args) r document ->
     ok r = true ->
     (getElementById E document id = None ->
      outcome (handleExtractHtmlFragment E args)
      = inr (failure ("Error extracting HTML fragment: " ++ anchor_not_found id))
      /\ includes ("Error extracting HTML fragment: " ++ anchor_not_found id) id)
     /\ (getElementById E document id <> None ->
         handleExtractHtmlFragment E args
         = handleExtractHtmlFragment E (without_anchor args)))
  /\ (ExtractHtmlFragmentArgs.anchorId args = Some "" ->
      handleExtractHtmlFragment E args = handleExtractHtmlFragment E (without_anchor args)).
Proof.
  split.
  - intros id r document Hid Hne (Hf & bytes & Hp & Hd) Hok. split.
    + intros Hnone.
      rewrite handleExtractHtmlFragment_outcome,
        (extractHtmlFragmentResult_fetched E args r Hf).
      unfold extracted, missing_anchor.
      rewrite Hok, Hp, Hd, Hid, (nonempty_some id Hne), Hnone.
      split; [reflexivity |].
      exists ("Error extracting HTML fragment: " ++ "Anchor element with ID " ++ quote).
      exists (quote ++ " not found"). reflexivity.
    + intros Hsome. apply handleExtractHtmlFragment_anchor_passes.
      intros r' document' (Hf' & bytes' & Hp' & Hd').
      rewrite Hf in Hf'. injection Hf' as <-.
      rewrite Hp in Hp'. injection Hp' as <-.
      rewrite Hd in Hd'. injection Hd' as <-.
      unfold missing_anchor. rewrite Hid, (nonempty_some id Hne).
      destruct (getElementById E document id); [reflexivity | congruence].
  - intros Hid. apply handleExtractHtmlFragment_anchor_passes.
    intros r document _. unfold missing_anchor. rewrite Hid. reflexivity.
Qed.

Lemma anchor_gate_witness :
  (getElementById Mock.env Mock.sectionsDocument "nowhere" = None
   /\ outcome (handleExtractHtmlFragment Mock.env
                 (Samples.extract "/sections" "p" (Some "nowhere")))
      = inr (failure ("Error extracting HTML fragment: " ++ anchor_not_found "nowhere")))
  /\ (getElementById Mock.env Mock.sectionsDocument "intro" <> None
      /\ handleExtractHtmlFragment Mock.env (Samples.extract "/sections" "p" (Some "intro"))
         = handleExtractHtmlFragment Mock.env (Samples.extract "/sections" "p" None)).
Proof.
  assert (Hfetched :
            Fetched Mock.env (Samples.at_path "/sections")
              (extractOptions (Samples.extract "/sections" "p" None))
              Samples.sections Mock.sectionsDocument).
  { split; [reflexivity |].
    exists (Mock.bytes Mock.sectionsPage). split; reflexivity. }
  split.
  - split; [reflexivity |].
    destruct (anchor_gate Mock.env (Samples.extract "/sections" "p" (Some "nowhere")))
      as (Hgate & _).
    refine (proj1 (proj1 (Hgate "nowhere" Samples.sections Mock.sectionsDocument
                            eq_refl _ Hfetched eq_refl) eq_refl)).
    discriminate.
  - assert (Hthere : getElementById Mock.env Mock.sectionsDocument "intro" <> None)
      by discriminate.
    split; [exact Hthere |].
    destruct (anchor_gate Mock.env (Samples.extract "/sections" "p" (Some "intro")))
      as (Hgate & _).
    refine (proj2 (Hgate "intro" Samples.sections Mock.sectionsDocument
                     eq_refl _ Hfetched eq_refl) Hthere).
    discriminate.
Defined.

(** C5, as stated, fails for the empty anchorId: the document holds no
    element of that id, and the call returns the matched elements. *)
Lemma empty_anchor_not_checked :
  Fetched Mock.env (Samples.at_path "/sections")
    (extractOptions (Samples.extract "/sections" "p" (Some "")))
    Samples.sections Mock.sectionsDocument
  /\ getElementById Mock.env Mock.sectionsDocument "" = None
  /\ outcome (handleExtractHtmlFragment Mock.env (Samples.extract "/sections" "p" (Some "")))
     = inr (success Mock.env
              [ ("status", JNum 200);
                ("statusText", JStr "OK");
                ("url", JStr "http://localhost:8080/sections");
                ("selector", JStr "p");
                ("matchCount", JNum 2);
                ("html", JArr ["<p>One</p>"; "<p>Two</p>"]) ]).
Proof.
  split; [| split; reflexivity].
  split; [reflexivity |].
  exists (Mock.bytes Mock.sectionsPage). split; reflexivity.
Qed.

(** ** One request per call *)

Lemma processResponse_requests
    (E : Env) (args : FetchUrlArgs.t) (r : Response) (o : object) :
  requests (trace (processResponse E args r o)) = [].
Proof.
  unfold processResponse, response_text, response_json, response_arrayBuffer,
    new_JSDOM, perform, call.
  destruct (FetchUrlArgs.responseType args);
    destruct (payload r) as [e | bytes]; try reflexivity; cbn.
  - destruct (JSON_parse E (decode E bytes)); reflexivity.
  - destruct (JSDOM E (decode E bytes)) as [e | document]; [reflexivity |]. cbn.
    destruct (nonempty (FetchUrlArgs.fragmentSelector args)) as [selector |];
      [| reflexivity]. cbn.
    destruct (querySelectorAll E document selector) as [e | [| el [| el' rest]]];
      reflexivity.
Qed.

Lemma fetchUrlResult_requests (E : Env) (args : FetchUrlArgs.t) :
  requests (trace (fetchUrlResult E args))
  = [(FetchUrlArgs.url args, fetchUrlOptions args)].
Proof.
  unfold fetchUrlResult. rewrite !trace_bind, !requests_app.
  unfold await_fetch, perform, console_error, emit. cbn.
  destruct (fetch E (FetchUrlArgs.url args) (fetchUrlOptions args)) as [e | r];
    [reflexivity |].
  now rewrite processResponse_requests.
Qed.

Lemma envelope_requests (E : Env) (m : M object) (line tag : string) :
  requests
    (trace
       (try_catch (result <- m ;; ret (success E result))
          (fun error =>
             console_error_with line error ;; ret (failure (tag ++ message error)))))
  = requests (trace m).
Proof.
  rewrite envelope_trace, requests_app.
  destruct (outcome m); simpl; apply app_nil_r.
Qed.

Lemma handleFetchUrl_requests (E : Env) (args : FetchUrlArgs.t) :
  requests (trace (handleFetchUrl E args))
  = [(FetchUrlArgs.url args, fetchUrlOptions args)].
Proof.
  unfold handleFetchUrl. rewrite envelope_requests. apply fetchUrlResult_requests.
Qed.

Lemma handleExtractHtmlFragment_requests (E : Env) (args : ExtractHtmlFragmentArgs.t) :
  requests (trace (handleExtractHtmlFragment E args))
  = [(ExtractHtmlFragmentArgs.url args, extractOptions args)].
Proof.
  unfold handleExtractHtmlFragment. rewrite envelope_requests.
  unfold extractHtmlFragmentResult, await_fetch, response_text, new_JSDOM,
    checkAnchor, perform, call, console_error, emit.
  destruct (fetch E (ExtractHtmlFragmentArgs.url args) (extractOptions args))
    as [e | r]; [reflexivity |]. cbn.
  destruct (ok r); [| reflexivity]. cbn.
  destruct (payload r) as [e | bytes]; [reflexivity |]. cbn.
  destruct (JSDOM E (decode E bytes)) as [e | document]; [reflexivity |]. cbn.
  destruct (nonempty (ExtractHtmlFragmentArgs.anchorId args)) as [id |]; cbn.
  - destruct (getElementById E document id) as [anchor |]; [| reflexivity]. cbn.
    destruct (querySelectorAll E document (ExtractHtmlFragmentArgs.selector args))
      as [e | [| el [| el' rest]]]; reflexivity.
  - destruct (querySelectorAll E document (ExtractHtmlFragmentArgs.selector args))
      as [e | [| el [| el' rest]]]; reflexivity.
Qed.

Lemma handleCheckStatus_requests (E : Env) (args : CheckStatusArgs.t) :
  requests (trace (handleCheckStatus E args))
  = [(CheckStatusArgs.url args, checkStatusOptions args)].
Proof.
  unfold handleCheckStatus. rewrite envelope_requests.
  unfold checkStatusResult, await_fetch, perform, console_error, emit.
  destruct (fetch E (CheckStatusArgs.url args) (checkStatusOptions args));
    reflexivity.
Qed.

(** ** The empty request body *)

(** C9.  For every fetch-url or extract-html-fragment call whose body argument
    is the empty string, the one HTTP request of the call is issued with no
    body, and the call is the same call without the body argument: the same
    events and the same answer. *)
Theorem empty_body_is_no_body (E : Env) :
  (forall (url : string) (method : Method) (headers : option (list (string * string)))
          (timeout : option number) (responseType : ResponseType.t)
          (followRedirects : bool) (fragmentSelector : option string),
     handleFetchUrl E
       (FetchUrlArgs.mk url method headers (Some "") timeout responseType
          followRedirects fragmentSelector)
     = handleFetchUrl E
         (FetchUrlArgs.mk url method headers None timeout responseType
            followRedirects fragmentSelector)
     /\ exists options : RequestInit,
          requests
            (trace
               (handleFetchUrl E
                  (FetchUrlArgs.mk url method headers (Some "") timeout responseType
                     followRedirects fragmentSelector)))
          = [(url, options)]
          /\ body options = None)
  /\ (forall (url selector : string) (anchorId : option string) (method : Method)
             (headers : option (list (string * string))) (timeout : option number)
             (followRedirects : bool),
        handleExtractHtmlFragment E
          (ExtractHtmlFragmentArgs.mk url selector anchorId method headers (Some "")
             timeout followRedirects)
        = handleExtractHtmlFragment E
            (ExtractHtmlFragmentArgs.mk url selector anchorId method headers None
               timeout followRedirects)
        /\ exists options : RequestInit,
             requests
               (trace
                  (handleExtractHtmlFragment E
                     (ExtractHtmlFragmentArgs.mk url selector anchorId method headers
                        (Some "") timeout followRedirects)))
             = [(url, options)]
             /\ body options = None).
Proof.
  split; intros; (split; [reflexivity |]); eexists.
  - rewrite handleFetchUrl_requests. split; reflexivity.
  - rewrite handleExtractHtmlFragment_requests. split; reflexivity.
Qed.

(** ** The content type of a fragment *)

(** C10.  Every successful fetch-url result with responseType=html-fragment,
    with or without a fragmentSelector, has the field [contentType] equal to
    [text/html]; no other responseType sets the field.  When the
    fragmentSelector is absent (or empty), the result has no [matchCount] and
    its [content] is the text of the response body as it was read, not a
    serialization of the parsed document. *)
Theorem html_fragment_contentType
    (E : Env) (args : FetchUrlArgs.t) (result : object) :
  outcome (fetchUrlResult E args) = inr result ->
  (FetchUrlArgs.responseType args = ResponseType.html_fragment ->
   get "contentType" result = Some (JStr "text/html"))
  /\ (FetchUrlArgs.responseType args <> ResponseType.html_fragment ->
      get "contentType" result = None)
  /\ (FetchUrlArgs.responseType args = ResponseType.html_fragment ->
      nonempty (FetchUrlArgs.fragmentSelector args) = None ->
      get "matchCount" result = None
      /\ exists (r : Response) (bytes : list byte),
           fetch E (FetchUrlArgs.url args) (fetchUrlOptions args) = inr r
           /\ payload r = inr bytes
           /\ get "content" result = Some (JStr (decode E bytes))).
Proof.
  rewrite fetchUrlResult_outcome.
  destruct (fetch E (FetchUrlArgs.url args) (fetchUrlOptions args)) as [e | r];
    [discriminate |].
  unfold transformed.
  destruct (FetchUrlArgs.responseType args);
    destruct (payload r) as [e0 | bytes] eqn:Hp; try discriminate.
  - intros H; injection H as <-.
    split; [discriminate | split; [reflexivity | discriminate]].
  - destruct (JSON_parse E (decode E bytes)); [discriminate |].
    intros H; injection H as <-.
    split; [discriminate | split; [reflexivity | discriminate]].
  - intros H; injection H as <-.
    split; [discriminate | split; [reflexivity | discriminate]].
  - destruct (JSDOM E (decode E bytes)) as [e1 | document]; [discriminate |].
    destruct (nonempty (FetchUrlArgs.fragmentSelector args)) as [selector |].
    + destruct (querySelectorAll E document selector) as [e2 | [| el [| el' rest]]];
        try discriminate; intros H; injection H as <-;
        (split; [reflexivity | split; [congruence | discriminate]]).
    + intros H; injection H as <-.
      split; [reflexivity | split; [congruence |]].
      intros _ _. split; [reflexivity |].
      exists r, bytes. split; [reflexivity | split; [exact Hp | reflexivity]].
Qed.

Lemma html_fragment_contentType_witness :
  outcome (fetchUrlResult Mock.env (Samples.get_as "/" ResponseType.html_fragment None))
  = inr [ ("status", JNum 200);
          ("statusText", JStr "OK");
          ("headers", JRec [("content-type", "text/html")]);
          ("url", JStr "http://localhost:8080/");
          ("content", JStr Mock.testPage);
          ("contentType", JStr "text/html") ]
  /\ get "contentType"
       [ ("status", JNum 200);
         ("statusText", JStr "OK");
         ("headers", JRec [("content-type", "text/html")]);
         ("url", JStr "http://localhost:8080/");
         ("content", JStr Mock.testPage);
         ("contentType", JStr "text/html") ]
     = Some (JStr "text/html").
Proof.
  split; [reflexivity |].
  refine (proj1 (html_fragment_contentType Mock.env
                   (Samples.get_as "/" ResponseType.html_fragment None) _ eq_refl)
            eq_refl).
Defined.

(** ** The timeout of a call *)

(** C4.  The timeout of a call does not bound its exchange.  The handlers
    write T into the [options] they hand to [fetch], as [bodyTimeout] and
    [headersTimeout] (check-status: [headersTimeout] only), and undici's
    [fetch] reads neither.  Against a server that takes 1000 ms to send its
    headers, a call with a timeout of 100 ms is answered with the response,
    where an exchange bounded by 100 ms fails. *)
Theorem timeout_not_enforced :
  requests (trace (handleFetchUrl Undici.env (Samples.get_within "/slow" Undici.brief)))
  = [ (Samples.at_path "/slow",
       mkInit GET (Some []) None (Some follow) (Some Undici.brief) (Some Undici.brief)) ]
  /\ outcome (handleFetchUrl Undici.env (Samples.get_within "/slow" Undici.brief))
     = inr (success Undici.env
              [ ("status", JNum 200);
                ("statusText", JStr "OK");
                ("headers", JRec []);
                ("url", JStr "http://localhost:8080/slow");
                ("content", JStr "OK") ])
  /\ Undici.exchange (Undici.mkBounds Undici.brief Undici.brief) Undici.slow
     = inl (mkError "fetch failed")
  /\ requests (trace (handleCheckStatus Undici.env
                        (Samples.check "/slow" (Some Undici.brief))))
     = [ (Samples.at_path "/slow",
          mkInit HEAD None None None None (Some Undici.brief)) ]
  /\ outcome (handleCheckStatus Undici.env (Samples.check "/slow" (Some Undici.brief)))
     = inr (success Undici.env
              [ ("status", JNum 200);
                ("statusText", JStr "OK");
                ("headers", JRec []);
                ("url", JStr "http://localhost:8080/slow");
                ("isAvailable", JBool true) ])
  /\ outcome (handleExtractHtmlFragment Undici.env
                (Samples.extract_within "/slow" "body" Undici.brief))
     = inr (success Undici.env
              [ ("status", JNum 200);
                ("statusText", JStr "OK");
                ("url", JStr "http://localhost:8080/slow");
                ("selector", JStr "body");
                ("matchCount", JNum 1);
                ("html", JStr "<body>OK</body>") ]).
Proof.
  split; [reflexivity |]. split; [reflexivity |]. split; [reflexivity |].
  split; [reflexivity |]. split; reflexivity.
Qed.

(** ** Redirects *)

Section Redirecting.

Variable exchange : string -> RequestInit -> Error + Response.
Variable location : Response -> option string.

(** Following reaches what the chain of redirects reaches, when the chain is
    no longer than the capability's limit. *)
Lemma follow_from_reached
    (options : RequestInit) (n : nat) (target last : string) (r : Response) :
  Redirects.Reached exchange location options n target last r ->
  forall fuel : nat,
    (n <= fuel)%nat ->
    Redirects.follow_from exchange location fuel target options
    = inr (Redirects.at_url last r).
Proof.
  induction 1 as [target r Hx Hnone | n target next last r r' Hx Hnext Hrest IH];
    intros fuel Hfuel.
  - destruct fuel; simpl; rewrite Hx, Hnone; reflexivity.
  - destruct fuel as [| fuel]; [lia |].
    simpl. rewrite Hx, Hnext. apply IH. lia.
Qed.

Lemma policy_follow
    (options : RequestInit) (n : nat) (target last : string) (r : Response) :
  redirect options = Some follow ->
  Redirects.Reached exchange location options n target last r ->
  (n <= Redirects.max_redirects)%nat ->
  Redirects.policy exchange location target options = inr (Redirects.at_url last r).
Proof.
  intros Hmode Hreached Hn. unfold Redirects.policy. rewrite Hmode.
  now apply (follow_from_reached options n).
Qed.

Lemma policy_manual (options : RequestInit) (target : string) (r : Response) :
  redirect options = Some manual ->
  exchange target options = inr r ->
  Redirects.policy exchange location target options = inr (Redirects.at_url target r).
Proof.
  intros Hmode Hx. unfold Redirects.policy. now rewrite Hmode, Hx.
Qed.

End Redirecting.

Lemma fetchUrlResult_carries
    (E : Env) (args : FetchUrlArgs.t) (r : Response) (target : string) :
  fetch E (FetchUrlArgs.url args) (fetchUrlOptions args) = inr (Redirects.at_url target r) ->
  (forall result : object,
     outcome (fetchUrlResult E args) = inr result -> Carries result (status r) target)
  /\ (FetchUrlArgs.responseType args = ResponseType.text ->
      forall bytes : list byte,
        payload r = inr bytes ->
        exists result : object, outcome (fetchUrlResult E args) = inr result).
Proof.
  intros Hf. rewrite fetchUrlResult_outcome, Hf. split.
  - intros result Hres.
    destruct (transformed_metadata E args _ result Hres) as (Hs & _ & _ & Hu).
    split; assumption.
  - intros Hmode bytes Hp. unfold transformed. rewrite Hmode. cbn. rewrite Hp.
    eexists; reflexivity.
Qed.

Lemma extractHtmlFragmentResult_carries
    (E : Env) (args : ExtractHtmlFragmentArgs.t) (r : Response) (target : string) :
  fetch E (ExtractHtmlFragmentArgs.url args) (extractOptions args)
  = inr (Redirects.at_url target r) ->
  (forall result : object,
     outcome (extractHtmlFragmentResult E args) = inr result ->
     Carries result (status r) target)
  /\ (ok r = false ->
      outcome (handleExtractHtmlFragment E args)
      = inr (failure ("Error extracting HTML fragment: " ++ http_failure r))).
Proof.
  intros Hf. split.
  - rewrite extractHtmlFragmentResult_outcome, Hf. unfold extracted.
    destruct (ok (Redirects.at_url target r)); [| discriminate]. cbn.
    destruct (payload r) as [e0 | bytes]; [discriminate |].
    destruct (JSDOM E (decode E bytes)) as [e1 | document]; [discriminate |].
    destruct (missing_anchor E document (ExtractHtmlFragmentArgs.anchorId args));
      [discriminate |].
    destruct (querySelectorAll E document (ExtractHtmlFragmentArgs.selector args))
      as [e2 | [| el elements]]; try discriminate.
    intros result H; injection H as <-. split; reflexivity.
  - intros Hok.
    rewrite handleExtractHtmlFragment_outcome, extractHtmlFragmentResult_outcome, Hf.
    unfold extracted.
    replace (ok (Redirects.at_url target r)) with (ok r) by reflexivity.
    rewrite Hok. reflexivity.
Qed.

(** C8, as amended.  Over an HTTP capability that keeps the redirect policy:
    a fetch-url call with followRedirects true follows the redirects, and its
    result carries the status of the last response and the last URL reached,
    after zero or more redirects; with followRedirects false the first
    response is not followed, a 3xx response included, and the result carries
    its status and the URL of the request.  An extract-html-fragment call
    issues its request in the same way, and a result of it carries the last
    URL reached, or the URL of the request when redirects are not followed;
    but a 3xx response that is not followed is not returned: like every
    response that is not ok it is answered with the message
    [Failed to fetch URL: HTTP <status> <statusText>]. *)
Theorem redirect_policy
    (E : Env) (exchange : string -> RequestInit -> Error + Response)
    (location : Response -> option string) :
  Redirects.Keeps E exchange location ->
  (forall (args : FetchUrlArgs.t) (n : nat) (last : string) (r : Response),
     FetchUrlArgs.followRedirects args = true ->
     Redirects.Reached exchange location (fetchUrlOptions args) n
       (FetchUrlArgs.url args) last r ->
     (n <= Redirects.max_redirects)%nat ->
     (forall result : object,
        outcome (fetchUrlResult E args) = inr result -> Carries result (status r) last)
     /\ (FetchUrlArgs.responseType args = ResponseType.text ->
         forall bytes : list byte,
           payload r = inr bytes ->
           exists result : object, outcome (fetchUrlResult E args) = inr result))
  /\ (forall (args : FetchUrlArgs.t) (r : Response),
        FetchUrlArgs.followRedirects args = false ->
        exchange (FetchUrlArgs.url args) (fetchUrlOptions args) = inr r ->
        (forall result : object,
           outcome (fetchUrlResult E args) = inr result ->
           Carries result (status r) (FetchUrlArgs.url args))
        /\ (FetchUrlArgs.responseType args = ResponseType.text ->
            forall bytes : list byte,
              payload r = inr bytes ->
              exists result : object, outcome (fetchUrlResult E args) = inr result))
  /\ (forall (args : ExtractHtmlFragmentArgs.t) (n : nat) (last : string) (r : Response),
        ExtractHtmlFragmentArgs.followRedirects args = true ->
        Redirects.Reached exchange location (extractOptions args) n
          (ExtractHtmlFragmentArgs.url args) last r ->
        (n <= Redirects.max_redirects)%nat ->
        (forall result : object,
           outcome (extractHtmlFragmentResult E args) = inr result ->
           Carries result (status r) last)
        /\ (ok r = false ->
            outcome (handleExtractHtmlFragment E args)
            = inr (failure ("Error extracting HTML fragment: " ++ http_failure r))))
  /\ (forall (args : ExtractHtmlFragmentArgs.t) (r : Response),
        ExtractHtmlFragmentArgs.followRedirects args = false ->
        exchange (ExtractHtmlFragmentArgs.url args) (extractOptions args) = inr r ->
        (forall result : object,
           outcome (extractHtmlFragmentResult E args) = inr result ->
           Carries result (status r) (ExtractHtmlFragmentArgs.url args))
        /\ (ok r = false ->
            outcome (handleExtractHtmlFragment E args)
            = inr (failure ("Error extracting HTML fragment: " ++ http_failure r)))).
Proof.
  intros Hkeeps. split; [| split; [| split]].
  - intros args n last r Hmode Hreached Hn.
    apply fetchUrlResult_carries. rewrite Hkeeps.
    apply (policy_follow exchange location _ n); try assumption.
    unfold fetchUrlOptions; cbn. now rewrite Hmode.
  - intros args r Hmode Hx.
    apply fetchUrlResult_carries. rewrite Hkeeps.
    apply policy_manual; [| assumption].
    unfold fetchUrlOptions; cbn. now rewrite Hmode.
  - intros args n last r Hmode Hreached Hn.
    apply extractHtmlFragmentResult_carries. rewrite Hkeeps.
    apply (policy_follow exchange location _ n); try assumption.
    unfold extractOptions; cbn. now rewrite Hmode.
  - intros args r Hmode Hx.
    apply extractHtmlFragmentResult_carries. rewrite Hkeeps.
    apply policy_manual; [| assumption].
    unfold extractOptions; cbn. now rewrite Hmode.
Qed.

Lemma redirect_policy_witness :
  Redirects.Keeps Mock.env Mock.exchange Mock.location
  /\ (exists result : object,
        outcome (fetchUrlResult Mock.env (Samples.get_redirect true)) = inr result
        /\ Carries result 200 (Samples.at_path "/"))
  /\ (exists result : object,
        outcome (fetchUrlResult Mock.env (Samples.get_redirect false)) = inr result
        /\ Carries result 302 (Samples.at_path "/redirect"))
  /\ (exists result : object,
        outcome (extractHtmlFragmentResult Mock.env (Samples.extract_redirect true))
        = inr result
        /\ Carries result 200 (Samples.at_path "/")).
Proof.
  assert (Hkeeps : Redirects.Keeps Mock.env Mock.exchange Mock.location)
    by (intros target options; reflexivity).
  destruct (redirect_policy Mock.env Mock.exchange Mock.location Hkeeps)
    as (Hfollow & Hmanual & Hextract & _).
  assert (Hreached :
            forall options : RequestInit,
              Redirects.Reached Mock.exchange Mock.location options 1
                (Samples.at_path "/redirect") (Samples.at_path "/")
                (Samples.answered 200 "OK" [("content-type", "text/html")] Mock.testPage)).
  { intros options.
    apply (Redirects.reached_next Mock.exchange Mock.location options 0
             (Samples.at_path "/redirect") (Samples.at_path "/") (Samples.at_path "/")
             (Samples.answered 302 "Found" [("location", "/")] ""));
      [reflexivity | reflexivity |].
    apply Redirects.reached_here; reflexivity. }
  assert (Hwithin : (1 <= Redirects.max_redirects)%nat)
    by (unfold Redirects.max_redirects; lia).
  split; [exact Hkeeps |].
  split; [| split].
  - destruct (Hfollow (Samples.get_redirect true) 1%nat (Samples.at_path "/") _
                eq_refl (Hreached _) Hwithin) as (Hcarries & Hreturns).
    destruct (Hreturns eq_refl (Mock.bytes Mock.testPage) eq_refl) as (result & Hres).
    exists result. split; [exact Hres | exact (Hcarries result Hres)].
  - destruct (Hmanual (Samples.get_redirect false)
                (Samples.answered 302 "Found" [("location", "/")] "") eq_refl eq_refl)
      as (Hcarries & Hreturns).
    destruct (Hreturns eq_refl (Mock.bytes "") eq_refl) as (result & Hres).
    exists result. split; [exact Hres | exact (Hcarries result Hres)].
  - destruct (Hextract (Samples.extract_redirect true) 1%nat (Samples.at_path "/") _
                eq_refl (Hreached _) Hwithin) as (Hcarries & _).
    eexists. split; [reflexivity |].
    apply Hcarries. reflexivity.
Defined.

(** C8, as stated, fails for extract-html-fragment: with followRedirects
    false the 302 response is not returned as it is, the call is answered with
    an error. *)
Lemma unfollowed_redirect_is_an_error :
  Redirects.Keeps Mock.env Mock.exchange Mock.location
  /\ Mock.exchange (Samples.at_path "/redirect")
       (extractOptions (Samples.extract_redirect false))
     = inr (Samples.answered 302 "Found" [("location", "/")] "")
  /\ fetch Mock.env (Samples.at_path "/redirect")
       (extractOptions (Samples.extract_redirect false))
     = inr Samples.found
  /\ outcome (handleExtractHtmlFragment Mock.env (Samples.extract_redirect false))
     = inr (failure
              "Error extracting HTML fragment: Failed to fetch URL: HTTP 302 Found").
Proof.
  split; [intros target options; reflexivity |].
  split; [reflexivity |].
  split; reflexivity.
Qed.

(** ** The engine's [JSON]: what is read back *)

Lemma append_associative (a b c : string) : ((a ++ b) ++ c = a ++ b ++ c)%string.
Proof. induction a as [| x a IH]; simpl; [reflexivity | now rewrite IH]. Qed.

Lemma append_empty (a : string) : (a ++ "" = a)%string.
Proof. induction a as [| x a IH]; simpl; [reflexivity | now rewrite IH]. Qed.

Lemma length_append (a b : string) :
  String.length (a ++ b) = (String.length a + String.length b)%nat.
Proof. induction a as [| x a IH]; simpl; [reflexivity | now rewrite IH]. Qed.

Section ReadingBack.

Variable L : JSON.Lexicon.

(** Induction on a value, with the hypothesis for every element and every
    property. *)
Lemma value_induction (P : JSON.t L -> Prop) :
  P JSON.Null ->
  (forall b : bool, P (JSON.Bool b)) ->
  (forall d : JSON.double L, P (JSON.Number d)) ->
  (forall s : string, P (JSON.Str s)) ->
  (forall items : list (JSON.t L), Forall P items -> P (JSON.Array items)) ->
  (forall props : list (string * JSON.t L),
     Forall (fun kv => P (snd kv)) props -> P (JSON.Object props)) ->
  forall v : JSON.t L, P v.
Proof.
  intros HNull HBool HNumber HStr HArray HObject.
  fix IH 1. intros [| b | d | s | items | props].
  - exact HNull.
  - apply HBool.
  - apply HNumber.
  - apply HStr.
  - apply HArray. induction items as [| x items IHitems]; constructor.
    + apply IH.
    + exact IHitems.
  - apply HObject. induction props as [| [k x] props IHprops]; constructor.
    + apply IH.
    + exact IHprops.
Qed.

(** *** The parser, one call at a time *)

Lemma value_step (fuel : nat) (s : string) :
  JSON.value L (S fuel) s
  = match JSON.skip s with
    | EmptyString => None
    | String c rest =>
        if JSON.numeric c then
          match JSON.readNumber L (String c rest) with
          | Some (d, rest) => Some (JSON.Number d, rest)
          | None => None
          end
        else if Ascii.eqb c JSON.doubleQuote then
          match JSON.readString L (String c rest) with
          | Some (x, rest) => Some (JSON.Str x, rest)
          | None => None
          end
        else if Ascii.eqb c "[" then
          match JSON.closes "]" (JSON.skip rest) with
          | Some rest => Some (JSON.Array [], rest)
          | None =>
              match JSON.elements L fuel rest with
              | Some (items, rest) => Some (JSON.Array items, rest)
              | None => None
              end
          end
        else if Ascii.eqb c "{" then
          match JSON.closes "}" (JSON.skip rest) with
          | Some rest => Some (JSON.Object [], rest)
          | None =>
              match JSON.members L fuel rest [] with
              | Some (props, rest) => Some (JSON.Object props, rest)
              | None => None
              end
          end
        else
          match JSON.after "null" (String c rest) with
          | Some rest => Some (JSON.Null, rest)
          | None =>
              match JSON.after "true" (String c rest) with
              | Some rest => Some (JSON.Bool true, rest)
              | None =>
                  match JSON.after "false" (String c rest) with
                  | Some rest => Some (JSON.Bool false, rest)
                  | None => None
                  end
              end
          end
    end.
Proof. reflexivity. Qed.

Lemma elements_step (fuel : nat) (s : string) :
  JSON.elements L (S fuel) s
  = match JSON.value L fuel s with
    | Some (v, rest) =>
        match JSON.skip rest with
        | String c rest =>
            if Ascii.eqb c "," then
              match JSON.elements L fuel rest with
              | Some (items, rest) => Some (v :: items, rest)
              | None => None
              end
            else if Ascii.eqb c "]" then Some ([v], rest)
            else None
        | EmptyString => None
        end
    | None => None
    end.
Proof. reflexivity. Qed.

Lemma members_step (fuel : nat) (s : string) (o : list (string * JSON.t L)) :
  JSON.members L (S fuel) s o
  = match JSON.skip s with
    | String c rest =>
        if Ascii.eqb c JSON.doubleQuote then
          match JSON.readString L (String c rest) with
          | Some (k, rest) =>
              match JSON.closes ":" (JSON.skip rest) with
              | Some rest =>
                  match JSON.value L fuel rest with
                  | Some (v, rest) =>
                      match JSON.skip rest with
                      | String c rest =>
                          if Ascii.eqb c "," then
                            JSON.members L fuel rest (JSON.define k v o)
                          else if Ascii.eqb c "}" then Some (JSON.define k v o, rest)
                          else None
                      | EmptyString => None
                      end
                  | None => None
                  end
              | None => None
              end
          | None => None
          end
        else None
    | EmptyString => None
    end.
Proof. reflexivity. Qed.

(** *** White space *)

Lemma skip_skip (s : string) : JSON.skip (JSON.skip s) = JSON.skip s.
Proof.
  induction s as [| c s IH]; simpl; [reflexivity |].
  destruct (JSON.whitespace c) eqn:Hc; [exact IH |].
  simpl. now rewrite Hc.
Qed.

Lemma skip_indentation (depth : nat) (s : string) :
  JSON.skip (JSON.indentation depth ++ s) = JSON.skip s.
Proof. induction depth as [| depth IH]; simpl; [reflexivity | exact IH]. Qed.

Lemma skip_line (depth : nat) (s : string) :
  JSON.skip (LF ++ JSON.indentation depth ++ s) = JSON.skip s.
Proof. simpl. apply skip_indentation. Qed.

Lemma value_skip (fuel : nat) (s : string) : JSON.value L fuel (JSON.skip s) = JSON.value L fuel s.
Proof.
  destruct fuel; [reflexivity |].
  rewrite ?value_step, ?members_step. now rewrite skip_skip.
Qed.

Lemma members_skip (fuel : nat) (s : string) (o : list (string * JSON.t L)) :
  JSON.members L fuel (JSON.skip s) o = JSON.members L fuel s o.
Proof.
  destruct fuel; [reflexivity |].
  rewrite ?value_step, ?members_step. now rewrite skip_skip.
Qed.

Lemma elements_skip (fuel : nat) (s : string) :
  JSON.elements L fuel (JSON.skip s) = JSON.elements L fuel s.
Proof.
  destruct fuel; [reflexivity |]. rewrite !elements_step. now rewrite value_skip.
Qed.

(** *** The first character of a printed value *)

Lemma opening_not_blank (c : ascii) :
  JSON.opening c = true ->
  JSON.whitespace c = false
  /\ Ascii.eqb c "]" = false /\ Ascii.eqb c "}" = false /\ Ascii.eqb c "," = false.
Proof.
  destruct c as [[] [] [] [] [] [] [] []]; cbv; intros H;
    solve [discriminate H | repeat split].
Qed.

Lemma numeric_not_blank (c : ascii) :
  JSON.numeric c = true -> JSON.whitespace c = false.
Proof.
  destruct c as [[] [] [] [] [] [] [] []]; cbv; intros H;
    solve [discriminate H | reflexivity].
Qed.

Lemma print_head (depth : nat) (v : JSON.t L) :
  JSON.preserved L v = true ->
  exists (c : ascii) (tail : string),
    JSON.print L depth v = String c tail /\ JSON.opening c = true.
Proof.
  destruct v as [| [] | d | s | [| x items] | [| kv props]]; simpl; intros Hv;
    try (eexists; eexists; split; [reflexivity | reflexivity]).
  - apply andb_true_iff in Hv. destruct Hv as [Hfinite _]. rewrite Hfinite.
    destruct (JSON.toString_head L d Hfinite) as (c & tail & -> & Hc).
    exists c, tail. split; [reflexivity |]. unfold JSON.opening. now rewrite Hc.
  - destruct (JSON.quoteString_head L s) as (tail & ->).
    exists JSON.doubleQuote, tail. split; reflexivity.
Qed.

Lemma skip_print (depth : nat) (v : JSON.t L) (rest : string) :
  JSON.preserved L v = true ->
  JSON.skip (JSON.print L depth v ++ rest) = (JSON.print L depth v ++ rest)%string.
Proof.
  intros Hv. destruct (print_head depth v Hv) as (c & tail & -> & Hc).
  simpl. now rewrite (proj1 (opening_not_blank c Hc)).
Qed.

Lemma closes_print (bracket : ascii) (depth : nat) (v : JSON.t L) (rest : string) :
  bracket = "]"%char \/ bracket = "}"%char ->
  JSON.preserved L v = true ->
  JSON.closes bracket (JSON.print L depth v ++ rest) = None.
Proof.
  intros Hb Hv. destruct (print_head depth v Hv) as (c & tail & -> & Hc).
  destruct (opening_not_blank c Hc) as (_ & H1 & H2 & _).
  simpl. destruct Hb as [-> | ->]; [now rewrite H1 | now rewrite H2].
Qed.

(** *** The order of the keys *)

Lemma ordered_cons (k : string) (keys : list string) :
  JSON.ordered (k :: keys) = true <->
  (forall k' : string, In k' keys -> k' <> k /\ JSON.precedes k' k = false)
  /\ JSON.ordered keys = true.
Proof.
  simpl. rewrite andb_true_iff, forallb_forall. split.
  - intros [Hall Hrest]. split; [| exact Hrest].
    intros k' Hin. specialize (Hall k' Hin).
    apply andb_true_iff in Hall. destruct Hall as [Hne Hp].
    apply negb_true_iff in Hne, Hp. split; [| exact Hp].
    now apply String.eqb_neq.
  - intros [Hall Hrest]. split; [| exact Hrest].
    intros k' Hin. destruct (Hall k' Hin) as [Hne Hp].
    apply String.eqb_neq in Hne. now rewrite Hne, Hp.
Qed.

Lemma ordered_app (keys keys' : list string) :
  JSON.ordered (keys ++ keys') = true ->
  JSON.ordered keys' = true
  /\ forall k k' : string,
       In k keys -> In k' keys' -> k' <> k /\ JSON.precedes k' k = false.
Proof.
  induction keys as [| k0 keys IH]; intros H.
  - split; [exact H |]. intros k k' [].
  - change ((k0 :: keys) ++ keys')%list with (k0 :: (keys ++ keys'))%list in H.
    apply ordered_cons in H. destruct H as [Hall Hrest].
    destruct (IH Hrest) as [Hkeys' Hcross]. split; [exact Hkeys' |].
    intros k k' [<- | Hin] Hin'.
    + apply Hall. apply in_or_app. now right.
    + now apply Hcross.
Qed.

Lemma define_keys (k : string) (v : JSON.t L) (o : list (string * JSON.t L)) (x : string) :
  In x (map fst (JSON.define k v o)) -> x = k \/ In x (map fst o).
Proof.
  induction o as [| [k' v'] o IH]; simpl.
  - intros [<- | []]. now left.
  - destruct (String.eqb k k') eqn:Heq; [simpl; tauto |].
    destruct (JSON.precedes k k'); simpl.
    + intros [<- | H]; [now left | now right].
    + intros [<- | H]; [right; now left |].
      destruct (IH H) as [-> | Hin]; [now left | right; now right].
Qed.

(** A key that goes before [k'] goes before every key that may come after
    [k']. *)
Lemma precedes_later (k k' x : string) :
  JSON.precedes k k' = true ->
  JSON.precedes x k' = false ->
  JSON.precedes x k = false.
Proof.
  unfold JSON.precedes.
  destruct (JSON.arrayIndex k) as [i |]; [| discriminate].
  destruct (JSON.arrayIndex x) as [j |]; [| reflexivity].
  destruct (JSON.arrayIndex k') as [i' |]; [| discriminate].
  rewrite !N.ltb_lt, !N.ltb_ge. lia.
Qed.

Lemma precedes_asymmetric (k k' : string) :
  JSON.precedes k k' = true -> JSON.precedes k' k = false.
Proof.
  unfold JSON.precedes.
  destruct (JSON.arrayIndex k) as [i |]; [| discriminate].
  destruct (JSON.arrayIndex k') as [i' |]; [| reflexivity].
  rewrite N.ltb_lt, N.ltb_ge. lia.
Qed.

Lemma define_ordered (k : string) (v : JSON.t L) (o : list (string * JSON.t L)) :
  JSON.ordered (map fst o) = true ->
  JSON.ordered (map fst (JSON.define k v o)) = true.
Proof.
  induction o as [| [k' v'] o IH]; intros Ho; [reflexivity |].
  simpl in Ho |- *. change (JSON.ordered (k' :: map fst o) = true) in Ho.
  destruct (String.eqb k k') eqn:Heq; [exact Ho |].
  apply String.eqb_neq in Heq.
  pose proof Ho as Ho'. apply ordered_cons in Ho'. destruct Ho' as [Hall Hrest].
  destruct (JSON.precedes k k') eqn:Hp.
  - change (JSON.ordered (k :: k' :: map fst o) = true).
    apply ordered_cons. split; [| exact Ho].
    intros x [<- | Hin].
    + split; [congruence | now apply precedes_asymmetric].
    + destruct (Hall x Hin) as [Hne Hx]. split.
      * intros ->. congruence.
      * exact (precedes_later k k' x Hp Hx).
  - change (JSON.ordered (k' :: map fst (JSON.define k v o)) = true).
    apply ordered_cons. split; [| now apply IH].
    intros x Hin. destruct (define_keys k v o x Hin) as [-> | Hin'].
    + now split.
    + now apply Hall.
Qed.

Lemma define_values (P : JSON.t L -> bool) (k : string) (v : JSON.t L)
    (o : list (string * JSON.t L)) :
  P v = true ->
  forallb (fun kv => P (snd kv)) o = true ->
  forallb (fun kv => P (snd kv)) (JSON.define k v o) = true.
Proof.
  intros Hv. induction o as [| [k' v'] o IH]; simpl; intros Ho.
  - now rewrite Hv.
  - apply andb_true_iff in Ho. destruct Ho as [Hv' Ho].
    destruct (String.eqb k k'); simpl.
    + now rewrite Hv, Ho.
    + destruct (JSON.precedes k k'); simpl.
      * now rewrite Hv, Hv', Ho.
      * now rewrite Hv', (IH Ho).
Qed.

(** A new key that goes after all the keys of an object becomes its last
    property. *)
Lemma define_last (k : string) (v : JSON.t L) (o : list (string * JSON.t L)) :
  (forall k' : string, In k' (map fst o) -> k <> k' /\ JSON.precedes k k' = false) ->
  JSON.define k v o = (o ++ [(k, v)])%list.
Proof.
  induction o as [| [k' v'] o IH]; intros H; [reflexivity |].
  simpl. destruct (H k' (or_introl eq_refl)) as [Hne Hp].
  apply String.eqb_neq in Hne. rewrite Hne, Hp.
  rewrite IH; [reflexivity |].
  intros x Hin. apply H. now right.
Qed.

(** Defining the properties of an object whose keys are in their order, one
    after the other, gives that object. *)
Lemma define_all (props o : list (string * JSON.t L)) :
  JSON.ordered (map fst (o ++ props)) = true ->
  fold_left (fun o kv => JSON.define (fst kv) (snd kv) o) props o = (o ++ props)%list.
Proof.
  revert o. induction props as [| [k v] props IH]; intros o H; simpl.
  - now rewrite app_nil_r.
  - rewrite define_last.
    + rewrite IH; rewrite <- app_assoc; [reflexivity | exact H].
    + intros k' Hin. rewrite map_app in H.
      destruct (ordered_app _ _ H) as [_ Hcross].
      apply (Hcross k' k Hin). now left.
Qed.

(** *** What the parser gives is canonical *)

Lemma define_canonical (k : string) (v : JSON.t L) (o : list (string * JSON.t L)) :
  JSON.canonical L v = true ->
  JSON.canonical_object L o = true ->
  JSON.canonical_object L (JSON.define k v o) = true.
Proof.
  unfold JSON.canonical_object. intros Hv Ho.
  apply andb_true_iff in Ho. destruct Ho as [Hkeys Hvalues].
  apply andb_true_iff. split.
  - now apply define_ordered.
  - now apply (define_values (JSON.canonical L)).
Qed.

Lemma parser_canonical (fuel : nat) :
  (forall (s rest : string) (v : JSON.t L),
     JSON.value L fuel s = Some (v, rest) -> JSON.canonical L v = true)
  /\ (forall (s rest : string) (items : list (JSON.t L)),
        JSON.elements L fuel s = Some (items, rest) -> forallb (JSON.canonical L) items = true)
  /\ (forall (s rest : string) (o props : list (string * JSON.t L)),
        JSON.members L fuel s o = Some (props, rest) ->
        JSON.canonical_object L o = true -> JSON.canonical_object L props = true).
Proof.
  induction fuel as [| fuel (IHvalue & IHelements & IHmembers)].
  - repeat split; intros; discriminate.
  - split; [| split].
    + intros s rest v. rewrite value_step.
      destruct (JSON.skip s) as [| c s']; [discriminate |].
      destruct (JSON.numeric c).
      { destruct (JSON.readNumber L (String c s')) as [[d r] |]; [| discriminate].
        intros H. injection H as <- _. reflexivity. }
      destruct (Ascii.eqb c JSON.doubleQuote).
      { destruct (JSON.readString L (String c s')) as [[x r] |]; [| discriminate].
        intros H. injection H as <- _. reflexivity. }
      destruct (Ascii.eqb c "[").
      { destruct (JSON.closes "]" (JSON.skip s')) as [r |].
        - intros H. injection H as <- _. reflexivity.
        - destruct (JSON.elements L fuel s') as [[items r] |] eqn:He; [| discriminate].
          intros H. injection H as <- _. simpl. exact (IHelements _ _ _ He). }
      destruct (Ascii.eqb c "{").
      { destruct (JSON.closes "}" (JSON.skip s')) as [r |].
        - intros H. injection H as <- _. reflexivity.
        - destruct (JSON.members L fuel s' []) as [[props r] |] eqn:Hm; [| discriminate].
          intros H. injection H as <- _.
          exact (IHmembers _ _ _ _ Hm eq_refl). }
      destruct (JSON.after "null" (String c s')) as [r |].
      { intros H. injection H as <- _. reflexivity. }
      destruct (JSON.after "true" (String c s')) as [r |].
      { intros H. injection H as <- _. reflexivity. }
      destruct (JSON.after "false" (String c s')) as [r |]; [| discriminate].
      intros H. injection H as <- _. reflexivity.
    + intros s rest items. rewrite elements_step.
      destruct (JSON.value L fuel s) as [[v r] |] eqn:Hv; [| discriminate].
      destruct (JSON.skip r) as [| c r']; [discriminate |].
      destruct (Ascii.eqb c ",").
      { destruct (JSON.elements L fuel r') as [[items' r''] |] eqn:He; [| discriminate].
        intros H. injection H as <- _. simpl.
        now rewrite (IHvalue _ _ _ Hv), (IHelements _ _ _ He). }
      destruct (Ascii.eqb c "]"); [| discriminate].
      intros H. injection H as <- _. simpl. now rewrite (IHvalue _ _ _ Hv).
    + intros s rest o props. rewrite members_step.
      destruct (JSON.skip s) as [| c s']; [discriminate |].
      destruct (Ascii.eqb c JSON.doubleQuote); [| discriminate].
      destruct (JSON.readString L (String c s')) as [[k r] |]; [| discriminate].
      destruct (JSON.closes ":" (JSON.skip r)) as [r1 |]; [| discriminate].
      destruct (JSON.value L fuel r1) as [[v r2] |] eqn:Hv; [| discriminate].
      destruct (JSON.skip r2) as [| c2 r3]; [discriminate |].
      destruct (Ascii.eqb c2 ",").
      { intros Hm Ho. apply (IHmembers _ _ _ _ Hm).
        apply define_canonical; [exact (IHvalue _ _ _ Hv) | exact Ho]. }
      destruct (Ascii.eqb c2 "}"); [| discriminate].
      intros H Ho. injection H as <- _.
      apply define_canonical; [exact (IHvalue _ _ _ Hv) | exact Ho].
Qed.

Lemma parse_canonical (text : string) (v : JSON.t L) :
  JSON.parse L text = inr v -> JSON.canonical L v = true.
Proof.
  unfold JSON.parse.
  destruct (JSON.value L (2 * String.length text + 2) text) as [[v' rest] |] eqn:Hv;
    [| discriminate].
  destruct (JSON.skip rest); [| discriminate].
  intros H. injection H as <-.
  exact (proj1 (parser_canonical _) _ _ _ Hv).
Qed.

(** *** Reading back what was printed *)

Lemma print_array (depth : nat) (x : JSON.t L) (items : list (JSON.t L)) :
  JSON.print L depth (JSON.Array (x :: items))
  = "[" ++ LF ++ JSON.indentation (S depth)
      ++ join (JSON.separator (S depth)) (map (JSON.print L (S depth)) (x :: items))
      ++ LF ++ JSON.indentation depth ++ "]".
Proof. reflexivity. Qed.

Lemma print_object (depth : nat) (kv : string * JSON.t L)
    (props : list (string * JSON.t L)) :
  JSON.print L depth (JSON.Object (kv :: props))
  = "{" ++ LF ++ JSON.indentation (S depth)
      ++ join (JSON.separator (S depth)) (map (JSON.member L (S depth)) (kv :: props))
      ++ LF ++ JSON.indentation depth ++ "}".
Proof. reflexivity. Qed.

Lemma join_cons (sep a b : string) (l : list string) :
  join sep (a :: b :: l) = a ++ sep ++ join sep (b :: l).
Proof. reflexivity. Qed.

Lemma elements_print (items : list (JSON.t L)) :
  Forall (JSON.Reads L) items ->
  forallb (JSON.preserved L) items = true ->
  forallb (JSON.canonical L) items = true ->
  items <> [] ->
  forall (n m : nat) (rest : string) (fuel : nat),
    (list_sum (map (fun x => S (JSON.cost L x)) items) <= fuel)%nat ->
    JSON.elements L fuel
      (LF ++ JSON.indentation n
         ++ join (JSON.separator n) (map (JSON.print L n) items)
         ++ LF ++ JSON.indentation m ++ "]" ++ rest)
    = Some (items, rest).
Proof.
  induction items as [| x items IH]; intros Hreads Hp Hc Hne n m rest fuel Hfuel;
    [congruence |].
  inversion Hreads as [| ? ? Hx Hitems]; subst.
  simpl in Hp, Hc. apply andb_true_iff in Hp, Hc.
  destruct Hp as [Hpx Hpitems]. destruct Hc as [Hcx Hcitems].
  simpl in Hfuel. destruct fuel as [| fuel]; [lia |].
  rewrite elements_step, <- value_skip, skip_line, value_skip.
  destruct items as [| y items].
  - simpl map. unfold join. simpl String.concat.
    rewrite (Hx Hpx Hcx n _ fuel); [| reflexivity | simpl in Hfuel; lia].
    rewrite skip_line. reflexivity.
  - simpl map. rewrite join_cons, append_associative.
    unfold JSON.separator at 1. rewrite !append_associative.
    rewrite (Hx Hpx Hcx n _ fuel); [| reflexivity | simpl in Hfuel; lia].
    change (JSON.skip ("," ++ ?s)%string) with ("," ++ s)%string.
    cbn [JSON.skip JSON.whitespace append Ascii.eqb Bool.eqb orb].
    change (JSON.print L n y :: map (JSON.print L n) items)
      with (map (JSON.print L n) (y :: items)).
    fold (JSON.separator n).
    change (String "]" rest) with ("]" ++ rest)%string.
    rewrite (IH Hitems Hpitems Hcitems ltac:(discriminate) n m rest fuel);
      [reflexivity |].
    simpl in Hfuel |- *. lia.
Qed.

Lemma members_print (props : list (string * JSON.t L)) :
  Forall (fun kv => JSON.Reads L (snd kv)) props ->
  forallb (fun kv => JSON.preserved L (snd kv)) props = true ->
  forallb (fun kv => JSON.canonical L (snd kv)) props = true ->
  props <> [] ->
  forall (n m : nat) (rest : string) (fuel : nat) (o : list (string * JSON.t L)),
    (list_sum (map (fun kv => S (JSON.cost L (snd kv))) props) <= fuel)%nat ->
    JSON.members L fuel
      (LF ++ JSON.indentation n
         ++ join (JSON.separator n) (map (JSON.member L n) props)
         ++ LF ++ JSON.indentation m ++ "}" ++ rest) o
    = Some (fold_left (fun o kv => JSON.define (fst kv) (snd kv) o) props o, rest).
Proof.
  induction props as [| [k x] props IH];
    intros Hreads Hp Hc Hne n m rest fuel o Hfuel; [congruence |].
  inversion Hreads as [| ? ? Hx Hprops]; subst. simpl in Hx.
  simpl in Hp, Hc. apply andb_true_iff in Hp, Hc.
  destruct Hp as [Hpx Hpprops]. destruct Hc as [Hcx Hcprops].
  simpl in Hfuel. destruct fuel as [| fuel]; [lia |].
  rewrite <- members_skip, skip_line, members_skip.
  destruct (JSON.quoteString_head L k) as (tail & Hq).
  assert (Hkey : forall after : string,
            JSON.members L (S fuel) (JSON.quoteString L k ++ ": " ++ after) o
            = match JSON.value L fuel after with
              | Some (v, rest) =>
                  match JSON.skip rest with
                  | String c rest =>
                      if Ascii.eqb c "," then JSON.members L fuel rest (JSON.define k v o)
                      else if Ascii.eqb c "}" then Some (JSON.define k v o, rest)
                      else None
                  | EmptyString => None
                  end
              | None => None
              end).
  { intros text. rewrite members_step.
    replace (JSON.skip (JSON.quoteString L k ++ ": " ++ text))
      with (String JSON.doubleQuote (tail ++ ": " ++ text))
      by (rewrite Hq; reflexivity).
    change (Ascii.eqb JSON.doubleQuote JSON.doubleQuote) with true. cbv iota.
    change (String JSON.doubleQuote (tail ++ ": " ++ text))
      with (String JSON.doubleQuote tail ++ ": " ++ text)%string.
    rewrite <- Hq, JSON.readString_quoteString.
    change (JSON.closes ":" (JSON.skip (": " ++ text))) with (Some (" " ++ text)%string).
    cbv iota. rewrite <- value_skip.
    change (JSON.skip (" " ++ text)) with (JSON.skip text).
    now rewrite value_skip. }
  destruct props as [| [k' y] props].
  - cbn [map]. unfold join. cbn [String.concat]. unfold JSON.member at 1.
    rewrite !append_associative, Hkey.
    rewrite (Hx Hpx Hcx n _ fuel); [| reflexivity | simpl in Hfuel; lia].
    rewrite skip_line. reflexivity.
  - cbn [map]. rewrite join_cons. unfold JSON.member at 1.
    unfold JSON.separator at 1. rewrite !append_associative, Hkey.
    rewrite (Hx Hpx Hcx n _ fuel); [| reflexivity | simpl in Hfuel; lia].
    change (JSON.skip ("," ++ ?s)%string) with ("," ++ s)%string.
    cbn [JSON.skip JSON.whitespace append Ascii.eqb Bool.eqb orb].
    change (JSON.member L n (k', y) :: map (JSON.member L n) props)
      with (map (JSON.member L n) ((k', y) :: props)).
    fold (JSON.separator n).
    change (String "}" rest) with ("}" ++ rest)%string.
    rewrite (IH Hprops Hpprops Hcprops ltac:(discriminate) n m rest fuel);
      [reflexivity |].
    simpl in Hfuel |- *. lia.
Qed.

Lemma join_first (sep a : string) (l : list string) (r : string) :
  exists r' : string, (join sep (a :: l) ++ r = a ++ r')%string.
Proof.
  destruct l as [| b l].
  - now exists r.
  - exists (sep ++ join sep (b :: l) ++ r)%string.
    now rewrite join_cons, !append_associative.
Qed.

Lemma value_array (fuel : nat) (s : string) :
  JSON.value L (S fuel) ("[" ++ s)
  = match JSON.closes "]" (JSON.skip s) with
    | Some rest => Some (JSON.Array [], rest)
    | None =>
        match JSON.elements L fuel s with
        | Some (items, rest) => Some (JSON.Array items, rest)
        | None => None
        end
    end.
Proof. reflexivity. Qed.

Lemma value_object (fuel : nat) (s : string) :
  JSON.value L (S fuel) ("{" ++ s)
  = match JSON.closes "}" (JSON.skip s) with
    | Some rest => Some (JSON.Object [], rest)
    | None =>
        match JSON.members L fuel s [] with
        | Some (props, rest) => Some (JSON.Object props, rest)
        | None => None
        end
    end.
Proof. reflexivity. Qed.

(** Every value whose numbers are preserved and whose keys are in their
    order is read back from what [JSON.stringify] prints of it. *)
Lemma reads_back (x : JSON.t L) : JSON.Reads L x.
Proof.
  induction x as [| b | d | s | items IH | props IH] using value_induction;
    intros Hp Hc depth rest fuel Hrest Hfuel.
  - destruct fuel as [| fuel]; [simpl in Hfuel; lia | reflexivity].
  - destruct fuel as [| fuel]; [simpl in Hfuel; lia |]. destruct b; reflexivity.
  - destruct fuel as [| fuel]; [simpl in Hfuel; lia |].
    simpl in Hp. apply andb_true_iff in Hp. destruct Hp as [Hfinite Hzero].
    apply negb_true_iff in Hzero.
    destruct (JSON.toString_head L d Hfinite) as (c & tail & Hd & Hnumeric).
    rewrite value_step. simpl JSON.print. rewrite Hfinite.
    replace (JSON.skip (JSON.toString L d ++ rest)) with (String c (tail ++ rest))
      by (rewrite Hd; simpl; now rewrite (numeric_not_blank c Hnumeric)).
    rewrite Hnumeric.
    change (String c (tail ++ rest)) with (String c tail ++ rest)%string.
    rewrite <- Hd, (JSON.readNumber_toString L d rest Hfinite Hzero Hrest).
    reflexivity.
  - destruct fuel as [| fuel]; [simpl in Hfuel; lia |].
    destruct (JSON.quoteString_head L s) as (tail & Hs).
    rewrite value_step. simpl JSON.print.
    replace (JSON.skip (JSON.quoteString L s ++ rest))
      with (String JSON.doubleQuote (tail ++ rest))
      by (rewrite Hs; reflexivity).
    change (JSON.numeric JSON.doubleQuote) with false.
    change (Ascii.eqb JSON.doubleQuote JSON.doubleQuote) with true. cbv iota.
    change (String JSON.doubleQuote (tail ++ rest))
      with (String JSON.doubleQuote tail ++ rest)%string.
    now rewrite <- Hs, JSON.readString_quoteString.
  - destruct fuel as [| fuel]; [simpl in Hfuel; lia |].
    destruct items as [| x items]; [reflexivity |].
    simpl in Hp, Hc, Hfuel.
    rewrite print_array, !append_associative, value_array, skip_line.
    destruct (join_first (JSON.separator (S depth)) (JSON.print L (S depth) x)
                (map (JSON.print L (S depth)) items)
                (LF ++ JSON.indentation depth ++ "]" ++ rest)) as (r' & Hjoin).
    cbn [map]. rewrite Hjoin.
    apply andb_true_iff in Hp. destruct Hp as [Hpx Hpitems].
    rewrite (skip_print _ _ _ Hpx), (closes_print _ _ _ _ (or_introl eq_refl) Hpx).
    rewrite <- Hjoin.
    change (JSON.print L (S depth) x :: map (JSON.print L (S depth)) items)
      with (map (JSON.print L (S depth)) (x :: items)).
    rewrite (elements_print (x :: items) IH); try reflexivity.
    + simpl. now rewrite Hpx, Hpitems.
    + exact Hc.
    + discriminate.
    + simpl. lia.
  - destruct fuel as [| fuel]; [simpl in Hfuel; lia |].
    destruct props as [| [k x] props]; [reflexivity |].
    simpl in Hp, Hfuel.
    simpl in Hc. apply andb_true_iff in Hc. destruct Hc as [Hkeys Hcprops].
    rewrite print_object, !append_associative, value_object, skip_line.
    destruct (join_first (JSON.separator (S depth)) (JSON.member L (S depth) (k, x))
                (map (JSON.member L (S depth)) props)
                (LF ++ JSON.indentation depth ++ "}" ++ rest)) as (r' & Hjoin).
    cbn [map]. rewrite Hjoin.
    destruct (JSON.quoteString_head L k) as (tail & Hk).
    unfold JSON.member at 1. rewrite !append_associative, Hk.
    change (JSON.closes "}" (JSON.skip (String JSON.doubleQuote tail ++ ?s)))
      with (@None string).
    cbv iota. rewrite <- Hjoin.
    change (JSON.member L (S depth) (k, x) :: map (JSON.member L (S depth)) props)
      with (map (JSON.member L (S depth)) ((k, x) :: props)).
    rewrite (members_print ((k, x) :: props) IH); try reflexivity.
    + rewrite (define_all ((k, x) :: props) []); [reflexivity | exact Hkeys].
    + exact Hp.
    + exact Hcprops.
    + discriminate.
    + simpl. lia.
Qed.

(** *** The nested calls that reading back takes *)

Lemma sum_le_join {A : Type} (f : A -> string) (c : A -> nat) (sep : string)
    (l : list A) :
  Forall (fun x => (c x <= String.length (f x))%nat) l ->
  (1 <= String.length sep)%nat ->
  (list_sum (map (fun x => S (c x)) l) <= String.length (join sep (map f l)) + 1)%nat.
Proof.
  intros Hl Hsep. induction Hl as [| a l Ha Hl IH]; [simpl; lia |].
  destruct l as [| b l].
  - simpl. unfold join. simpl. lia.
  - simpl map in IH |- *. rewrite join_cons, !length_append.
    simpl list_sum in IH |- *. lia.
Qed.

Lemma separator_length (depth : nat) : (1 <= String.length (JSON.separator depth))%nat.
Proof. unfold JSON.separator. simpl. lia. Qed.

Lemma cost_le_length (x : JSON.t L) :
  JSON.preserved L x = true ->
  forall depth : nat, (JSON.cost L x <= String.length (JSON.print L depth x))%nat.
Proof.
  induction x as [| b | d | s | items IH | props IH] using value_induction;
    intros Hp depth.
  - simpl. lia.
  - destruct b; simpl; lia.
  - destruct (print_head depth (JSON.Number d) Hp) as (c & tail & -> & _). simpl. lia.
  - destruct (print_head depth (JSON.Str s) Hp) as (c & tail & -> & _). simpl. lia.
  - destruct items as [| x items]; [simpl; lia |].
    rewrite print_array. change (JSON.cost L (JSON.Array (x :: items)))
      with (S (list_sum (map (fun x => S (JSON.cost L x)) (x :: items)))).
    rewrite !length_append.
    assert (H : Forall (fun x => (JSON.cost L x
                                  <= String.length (JSON.print L (S depth) x))%nat)
                  (x :: items)).
    { change (forallb (JSON.preserved L) (x :: items) = true) in Hp.
      rewrite forallb_forall in Hp. rewrite Forall_forall in IH |- *.
      intros y Hy. apply (IH y Hy). now apply Hp. }
    pose proof (sum_le_join (JSON.print L (S depth)) (JSON.cost L)
                  (JSON.separator (S depth)) (x :: items) H (separator_length _)).
    change (String.length LF) with 1%nat. cbn [String.length]. lia.
  - destruct props as [| [k x] props]; [simpl; lia |].
    rewrite print_object. change (JSON.cost L (JSON.Object ((k, x) :: props)))
      with (S (list_sum (map (fun kv => S (JSON.cost L (snd kv))) ((k, x) :: props)))).
    rewrite !length_append.
    assert (H : Forall (fun kv => (JSON.cost L (snd kv)
                                   <= String.length (JSON.member L (S depth) kv))%nat)
                  ((k, x) :: props)).
    { change (forallb (fun kv => JSON.preserved L (snd kv)) ((k, x) :: props) = true)
        in Hp.
      rewrite forallb_forall in Hp. rewrite Forall_forall in IH |- *.
      intros [k' y] Hy. unfold JSON.member. rewrite !length_append.
      specialize (IH (k', y) Hy (Hp (k', y) Hy) (S depth)). simpl in IH |- *. lia. }
    pose proof (sum_le_join (JSON.member L (S depth)) (fun kv => JSON.cost L (snd kv))
                  (JSON.separator (S depth)) ((k, x) :: props) H (separator_length _)).
    change (String.length LF) with 1%nat. cbn [String.length]. lia.
Qed.

(** [JSON.parse(JSON.stringify(value, null, 2))] is the value, when every
    number in it is finite and not the negative zero and the keys of its
    objects are in their order. *)
Lemma parse_stringify (v : JSON.t L) :
  JSON.preserved L v = true ->
  JSON.canonical L v = true ->
  JSON.parse L (JSON.stringify L v) = inr v.
Proof.
  intros Hp Hc. unfold JSON.parse, JSON.stringify.
  pose proof (reads_back v Hp Hc 0%nat ""
                (2 * String.length (JSON.print L 0 v) + 2)%nat eq_refl) as H.
  rewrite append_empty in H. rewrite H; [reflexivity |].
  pose proof (cost_le_length v Hp 0%nat). lia.
Qed.

(** A value that was parsed from a text is read back from its own
    serialization, unless a number in it is not preserved. *)
Lemma parse_round_trip (text : string) (v : JSON.t L) :
  JSON.parse L text = inr v ->
  JSON.preserved L v = true ->
  JSON.parse L (JSON.stringify L v) = inr v.
Proof.
  intros Hparse Hp. apply parse_stringify; [exact Hp |].
  exact (parse_canonical text v Hparse).
Qed.

End ReadingBack.

(** ** The test double of the engine's literals keeps the laws *)

Lemma span_every (p : ascii -> bool) (s rest : string) :
  Plain.every p s = true ->
  match rest with
  | EmptyString => True
  | String c _ => p c = false
  end ->
  Plain.span p (s ++ rest) = (s, rest).
Proof.
  intros Hs Hrest. induction s as [| c s IH]; simpl.
  - destruct rest as [| c rest]; [reflexivity |]. simpl. now rewrite Hrest.
  - simpl in Hs. apply andb_true_iff in Hs. destruct Hs as [Hc Hs].
    now rewrite Hc, (IH Hs).
Qed.

Lemma digits_numeric (d : Decimal.uint) :
  Plain.every JSON.numeric (NilEmpty.string_of_uint d) = true.
Proof. induction d; simpl; auto. Qed.

Lemma string_of_Z_numeric (z : Z) :
  Plain.every JSON.numeric (string_of_Z z) = true
  /\ exists (c : ascii) (tail : string),
       string_of_Z z = String c tail /\ JSON.numeric c = true.
Proof.
  assert (Huint : forall d : Decimal.uint,
            Plain.every JSON.numeric (NilZero.string_of_uint d) = true
            /\ exists (c : ascii) (tail : string),
                 NilZero.string_of_uint d = String c tail /\ JSON.numeric c = true).
  { intros d. split.
    - destruct d; try reflexivity; apply (digits_numeric (_ d)).
    - destruct d; simpl; eexists; eexists; split; reflexivity. }
  unfold string_of_Z. destruct (Z.to_int z) as [d | d]; simpl.
  - apply Huint.
  - split.
    + apply (proj1 (Huint d)).
    + eexists; eexists; split; reflexivity.
Qed.

Lemma to_int_read (z : Z) :
  NilZero.int_of_string (string_of_Z z) = Some (Z.to_int z).
Proof.
  unfold string_of_Z. apply NilZero.isi.
  - destruct z; simpl; try discriminate.
    intros H. injection H as H. exact (DecimalPos.Unsigned.to_uint_nonnil _ H).
  - destruct z; simpl; try discriminate.
    intros H. injection H as H. exact (DecimalPos.Unsigned.to_uint_nonnil _ H).
Qed.

Lemma to_int_not_negative_zero (z : Z) : Plain.negativeZero (Z.to_int z) = false.
Proof.
  unfold Plain.negativeZero. destruct (Z.to_int z) eqn:Hz; [reflexivity |].
  rewrite <- Hz, DecimalZ.of_to. destruct z; try discriminate Hz. reflexivity.
Qed.

Lemma delimited_not_numeric (rest : string) :
  JSON.delimited rest = true ->
  match rest with
  | EmptyString => True
  | String c _ => JSON.numeric c = false
  end.
Proof.
  destruct rest as [| c rest]; [exact (fun _ => I) |].
  unfold JSON.delimited, JSON.continues. intros H.
  apply negb_true_iff in H.
  do 4 (apply orb_false_iff in H; destruct H as [H _]). exact H.
Qed.

Lemma delimited_no_exponent (rest : string) :
  JSON.delimited rest = true -> Plain.exponent rest = Some (0%N, rest).
Proof.
  destruct rest as [| c rest]; [reflexivity |].
  unfold JSON.delimited, JSON.continues, Plain.exponent. intros H.
  apply negb_true_iff in H.
  apply orb_false_iff in H. destruct H as [H HE].
  apply orb_false_iff in H. destruct H as [_ He].
  now rewrite He, HE.
Qed.

Lemma plain_quoteString_head (s : string) :
  exists tail : string, Plain.quoteString s = String JSON.doubleQuote tail.
Proof. eexists. reflexivity. Qed.

Lemma characters_escape (s rest : string) :
  Plain.characters (Mock.escape s ++ quote ++ rest) = Some (s, rest).
Proof.
  induction s as [| c s IH]; [reflexivity |].
  cbn [Mock.escape].
  destruct (Ascii.eqb c (ascii_of_nat 34)) eqn:Hquote.
  { apply Ascii.eqb_eq in Hquote. subst c.
    rewrite append_associative.
    change (("\" ++ quote) ++ ?x)%string
      with (String (ascii_of_nat 92) (String JSON.doubleQuote x)).
    cbn [Plain.characters]. rewrite IH. reflexivity. }
  destruct (Ascii.eqb c (ascii_of_nat 92)) eqn:Hslash.
  { apply Ascii.eqb_eq in Hslash. subst c.
    rewrite append_associative.
    change ("\\" ++ ?x)%string
      with (String (ascii_of_nat 92) (String (ascii_of_nat 92) x)).
    cbn [Plain.characters]. rewrite IH. reflexivity. }
  destruct (Ascii.eqb c (ascii_of_nat 10)) eqn:Hline.
  { apply Ascii.eqb_eq in Hline. subst c.
    rewrite append_associative.
    change ("\n" ++ ?x)%string with (String (ascii_of_nat 92) (String "n" x)).
    cbn [Plain.characters]. rewrite IH. reflexivity. }
  rewrite append_associative.
  change (String c "" ++ ?x)%string with (String c x).
  cbn [Plain.characters].
  change JSON.doubleQuote with (ascii_of_nat 34).
  now rewrite Hquote, Hslash, IH.
Qed.

Lemma plain_readString_quoteString (s rest : string) :
  Plain.readString (Plain.quoteString s ++ rest) = Some (s, rest).
Proof.
  unfold Plain.quoteString, Mock.quoted. rewrite !append_associative.
  change (quote ++ ?x)%string with (String JSON.doubleQuote x) at 1.
  cbn [Plain.readString].
  change (Ascii.eqb JSON.doubleQuote JSON.doubleQuote) with true.
  apply characters_escape.
Qed.

Lemma plain_toString_head (d : Plain.num) :
  Plain.isFinite d = true ->
  exists (c : ascii) (tail : string),
    Plain.toString d = String c tail /\ JSON.numeric c = true.
Proof.
  destruct d as [z | | negative]; intros H; [| | discriminate H].
  - exact (proj2 (string_of_Z_numeric z)).
  - eexists; eexists; split; reflexivity.
Qed.

Lemma plain_readNumber_toString (d : Plain.num) (rest : string) :
  Plain.isFinite d = true ->
  Plain.isNegativeZero d = false ->
  JSON.delimited rest = true ->
  Plain.readNumber (Plain.toString d ++ rest) = Some (d, rest).
Proof.
  destruct d as [z | | negative]; intros Hfinite Hzero Hrest; try discriminate.
  unfold Plain.readNumber. cbn [Plain.toString].
  rewrite (span_every JSON.numeric (string_of_Z z) rest
             (proj1 (string_of_Z_numeric z)) (delimited_not_numeric rest Hrest)).
  rewrite to_int_read, (delimited_no_exponent rest Hrest), to_int_not_negative_zero.
  rewrite DecimalZ.of_to. change (10 ^ Z.of_N 0) with 1. rewrite Z.mul_1_r.
  cbn [Plain.isFinite] in Hfinite. now rewrite Hfinite.
Qed.

(** The test double as a lexicon. *)
Definition plainLexicon : JSON.Lexicon :=
  {| JSON.double := Plain.num;
     JSON.isFinite := Plain.isFinite;
     JSON.isNegativeZero := Plain.isNegativeZero;
     JSON.toString := Plain.toString;
     JSON.readNumber := Plain.readNumber;
     JSON.quoteString := Plain.quoteString;
     JSON.readString := Plain.readString;
     JSON.SyntaxError := Plain.SyntaxError;
     JSON.quoteString_head := plain_quoteString_head;
     JSON.readString_quoteString := plain_readString_quoteString;
     JSON.toString_head := plain_toString_head;
     JSON.readNumber_toString := plain_readNumber_toString |}.

(** ** The JSON round trip *)

(** C7, as amended.  For every fetch-url call with responseType=json whose
    body the engine parses: the result's [content] is
    [JSON.stringify(value, null, 2)] of the parsed value, and parsing that
    content again gives what parsing the body gives, provided every number
    of the value is finite and not the negative zero.  When the engine does
    not parse the body, the call is answered with the parser's message behind
    [Error fetching URL: Failed to parse response as JSON: ]. *)
Theorem json_round_trip
    (L : JSON.Lexicon) (E : Env) (args : FetchUrlArgs.t) (r : Response)
    (bytes : list byte) :
  FetchUrlArgs.responseType args = ResponseType.json ->
  fetch E (FetchUrlArgs.url args) (fetchUrlOptions args) = inr r ->
  payload r = inr bytes ->
  (forall v : JSON.t L,
     JSON.parse L (decode E bytes) = inr v ->
     exists result : object,
       outcome (fetchUrlResult (with_engine L E) args) = inr result
       /\ outcome (handleFetchUrl (with_engine L E) args)
          = inr (success (with_engine L E) result)
       /\ get "content" result = Some (JStr (JSON.stringify L v))
       /\ (JSON.preserved L v = true ->
           JSON.parse L (JSON.stringify L v) = JSON.parse L (decode E bytes)))
  /\ (forall e : Error,
        JSON.parse L (decode E bytes) = inl e ->
        outcome (handleFetchUrl (with_engine L E) args)
        = inr (failure ("Error fetching URL: Failed to parse response as JSON: "
                          ++ message e))).
Proof.
  intros Hmode Hf Hp.
  assert (Hf' : fetch (with_engine L E) (FetchUrlArgs.url args) (fetchUrlOptions args)
                = inr r) by exact Hf.
  rewrite handleFetchUrl_outcome, fetchUrlResult_outcome, Hf'.
  unfold transformed. rewrite Hmode, Hp.
  change (JSON_parse (with_engine L E) (decode (with_engine L E) bytes))
    with (JSON.parse L (decode E bytes)).
  split.
  - intros v Hparse. rewrite Hparse. eexists. repeat split.
    intros Hv. exact (parse_round_trip L _ v Hparse Hv).
  - intros e Hparse. rewrite Hparse. reflexivity.
Qed.

Lemma json_round_trip_witness :
  exists result : object,
    outcome (fetchUrlResult (with_engine plainLexicon Mock.env)
               (Samples.get_as "/json" ResponseType.json None))
    = inr result
    /\ get "content" result
       = Some (JStr (JSON.stringify plainLexicon
                       (JSON.Object
                          [ ("id", JSON.Number (L := plainLexicon) (Plain.Int 1));
                            ("title", JSON.Str "Test Post");
                            ("body", JSON.Str "This is a test post body") ])))
    /\ JSON.parse plainLexicon
         (JSON.stringify plainLexicon
            (JSON.Object
               [ ("id", JSON.Number (L := plainLexicon) (Plain.Int 1));
                 ("title", JSON.Str "Test Post");
                 ("body", JSON.Str "This is a test post body") ]))
       = JSON.parse plainLexicon Mock.jsonBody.
Proof.
  destruct (proj1 (json_round_trip plainLexicon Mock.env
                     (Samples.get_as "/json" ResponseType.json None)
                     (Samples.served 200 "OK" [("content-type", "application/json")]
                        "/json" Mock.jsonBody)
                     (Mock.bytes Mock.jsonBody) eq_refl eq_refl eq_refl)
              (JSON.Object
                 [ ("id", JSON.Number (L := plainLexicon) (Plain.Int 1));
                   ("title", JSON.Str "Test Post");
                   ("body", JSON.Str "This is a test post body") ])
              eq_refl)
    as (result & Hresult & _ & Hcontent & Hback).
  exists result. split; [exact Hresult |]. split; [exact Hcontent |].
  exact (Hback eq_refl).
Defined.

(** C7, as stated, fails for a body that is valid JSON and holds a number
    beyond the doubles: [1e400] is parsed as [Infinity], the content is
    [null], and [null] is parsed as [null].  The sign of a zero is lost in the
    same way: [-0] is parsed as the negative zero, printed as [0] and read
    back as the zero. *)
Lemma overflowing_literal_not_read_back :
  JSON.parse plainLexicon "1e400"
  = inr (JSON.Number (L := plainLexicon) (Plain.Infinity false))
  /\ outcome (fetchUrlResult
                (with_engine plainLexicon
                   (serving Mock.env (Samples.served 200 "OK" [] "/huge" "1e400")))
                (Samples.get_as "/huge" ResponseType.json None))
     = inr [ ("status", JNum 200);
             ("statusText", JStr "OK");
             ("headers", JRec []);
             ("url", JStr "http://localhost:8080/huge");
             ("content", JStr "null") ]
  /\ JSON.parse plainLexicon "null" = inr JSON.Null
  /\ JSON.parse plainLexicon "-0" = inr (JSON.Number (L := plainLexicon) Plain.NegativeZero)
  /\ JSON.stringify plainLexicon (JSON.Number (L := plainLexicon) Plain.NegativeZero) = "0"
  /\ JSON.parse plainLexicon "0" = inr (JSON.Number (L := plainLexicon) (Plain.Int 0)).
Proof.
  split; [reflexivity |]. split; [reflexivity |]. split; [reflexivity |].
  split; [reflexivity |]. split; reflexivity.
Qed.

(** ** Further properties of the handlers *)

(** X1.  For every fetch-url call with responseType=json whose exchange
    completes with a readable body: when the body parses as JSON, the result's
    [content] is [JSON.stringify] of exactly the parsed value; when the parser
    throws, the call is answered with
    [Error fetching URL: Failed to parse response as JSON: <parser message>]. *)
Theorem json_content
    (E : Env) (args : FetchUrlArgs.t) (r : Response) (bytes : list byte) :
  FetchUrlArgs.responseType args = ResponseType.json ->
  fetch E (FetchUrlArgs.url args) (fetchUrlOptions args) = inr r ->
  payload r = inr bytes ->
  (forall parsed : Json E,
     JSON_parse E (decode E bytes) = inr parsed ->
     exists result : object,
       outcome (fetchUrlResult E args) = inr result
       /\ outcome (handleFetchUrl E args) = inr (success E result)
       /\ get "content" result = Some (JStr (JSON_stringify_parsed E parsed)))
  /\ (forall e : Error,
        JSON_parse E (decode E bytes) = inl e ->
        outcome (handleFetchUrl E args)
        = inr (failure ("Error fetching URL: Failed to parse response as JSON: "
                          ++ message e))).
Proof.
  intros Hmode Hf Hp.
  rewrite handleFetchUrl_outcome, fetchUrlResult_outcome, Hf.
  unfold transformed. rewrite Hmode, Hp.
  split.
  - intros parsed Hparse. rewrite Hparse. eexists. repeat split.
  - intros e Hparse. rewrite Hparse. reflexivity.
Qed.

Lemma json_content_witness :
  outcome (handleFetchUrl Mock.env (Samples.get_as "/json" ResponseType.json None))
  = inr (success Mock.env
           [ ("status", JNum 200);
             ("statusText", JStr "OK");
             ("headers", JRec [("content-type", "application/json")]);
             ("url", JStr "http://localhost:8080/json");
             ("content",
              JStr (Mock.stringify
                      [ ("id", JNum 1);
                        ("title", JStr "Test Post");
                        ("body", JStr "This is a test post body") ])) ])
  /\ outcome (handleFetchUrl Mock.env (Samples.get_as "/status" ResponseType.json None))
     = inr (failure ("Error fetching URL: Failed to parse response as JSON: "
                       ++ "Unexpected token in JSON at position 0")).
Proof.
  split; [reflexivity |].
  exact (proj2 (json_content Mock.env (Samples.get_as "/status" ResponseType.json None)
                  Samples.okStatus (Mock.bytes "OK") eq_refl eq_refl eq_refl)
           (mkError "Unexpected token in JSON at position 0") eq_refl).
Defined.

(** X2.  For every fetch-url call with responseType=binary whose exchange
    completes with a readable body, the result's [content] is the base64
    encoding of the body's bytes and its [encoding] is [base64]. *)
Theorem binary_content
    (E : Env) (args : FetchUrlArgs.t) (r : Response) (bytes : list byte) :
  FetchUrlArgs.responseType args = ResponseType.binary ->
  fetch E (FetchUrlArgs.url args) (fetchUrlOptions args) = inr r ->
  payload r = inr bytes ->
  exists result : object,
    outcome (fetchUrlResult E args) = inr result
    /\ outcome (handleFetchUrl E args) = inr (success E result)
    /\ get "content" result = Some (JStr (base64 E bytes))
    /\ get "encoding" result = Some (JStr "base64").
Proof.
  intros Hmode Hf Hp.
  rewrite handleFetchUrl_outcome, fetchUrlResult_outcome, Hf.
  unfold transformed. rewrite Hmode, Hp.
  eexists. repeat split.
Qed.

Lemma binary_content_witness :
  exists result : object,
    outcome (fetchUrlResult Mock.env (Samples.get_as "/status" ResponseType.binary None))
    = inr result
    /\ outcome (handleFetchUrl Mock.env (Samples.get_as "/status" ResponseType.binary None))
       = inr (success Mock.env result)
    /\ get "content" result = Some (JStr (base64 Mock.env (Mock.bytes "OK")))
    /\ get "encoding" result = Some (JStr "base64").
Proof.
  exact (binary_content Mock.env (Samples.get_as "/status" ResponseType.binary None)
           Samples.okStatus (Mock.bytes "OK") eq_refl eq_refl eq_refl).
Defined.

(** X3.  For every document and selector matching exactly one element:
    fetch-url with responseType=html-fragment returns that element's outer
    markup as [content], with [matchCount = 1]; extract-html-fragment returns
    it as the single string [html], with [matchCount = 1]. *)
Theorem single_match
    (E : Env) (r : Response) (document : Document E) (selector : string)
    (el : Element E) :
  querySelectorAll E document selector = inr [el] ->
  (forall args : FetchUrlArgs.t,
     FetchUrlArgs.responseType args = ResponseType.html_fragment ->
     FetchUrlArgs.fragmentSelector args = Some selector ->
     Fetched E (FetchUrlArgs.url args) (fetchUrlOptions args) r document ->
     exists result : object,
       outcome (fetchUrlResult E args) = inr result
       /\ outcome (handleFetchUrl E args) = inr (success E result)
       /\ get "content" result = Some (JStr (outerHTML E el))
       /\ get "matchCount" result = Some (JNum 1))
  /\ (forall args : ExtractHtmlFragmentArgs.t,
        ExtractHtmlFragmentArgs.selector args = selector ->
        Fetched E (ExtractHtmlFragmentArgs.url args) (extractOptions args) r document ->
        ok r = true ->
        missing_anchor E document (ExtractHtmlFragmentArgs.anchorId args) = None ->
        exists result : object,
          outcome (extractHtmlFragmentResult E args) = inr result
          /\ outcome (handleExtractHtmlFragment E args) = inr (success E result)
          /\ get "html" result = Some (JStr (outerHTML E el))
          /\ get "matchCount" result = Some (JNum 1)).
Proof.
  intros Hq. split.
  - intros args Hmode Hsel (Hf & bytes & Hp & Hd).
    rewrite handleFetchUrl_outcome, (fetchUrlResult_fetched E args r Hf),
      processResponse_outcome.
    unfold transformed.
    rewrite Hmode, Hp, Hd, Hsel, (accepted_selector_nonempty E document selector _ Hq), Hq.
    eexists. repeat split.
  - intros args Hsel (Hf & bytes & Hp & Hd) Hok Ha.
    rewrite handleExtractHtmlFragment_outcome,
      (extractHtmlFragmentResult_fetched E args r Hf).
    unfold extracted. rewrite Hok, Hp, Hd, Ha, Hsel, Hq.
    eexists. repeat split.
Qed.

Lemma single_match_witness :
  querySelectorAll Mock.env Mock.testDocument "h1"
  = inr [Mock.mkNode "h1" None "<h1>Test Heading</h1>"]
  /\ exists result : object,
       outcome (handleExtractHtmlFragment Mock.env (Samples.extract "/" "h1" None))
       = inr (success Mock.env result)
       /\ get "html" result = Some (JStr "<h1>Test Heading</h1>")
       /\ get "matchCount" result = Some (JNum 1).
Proof.
  split; [reflexivity |].
  destruct (proj2 (single_match Mock.env Samples.home Mock.testDocument "h1"
                     (Mock.mkNode "h1" None "<h1>Test Heading</h1>") eq_refl)
              (Samples.extract "/" "h1" None) eq_refl
              (conj eq_refl (ex_intro _ (Mock.bytes Mock.testPage) (conj eq_refl eq_refl)))
              eq_refl eq_refl)
    as (result & _ & H & Hh & Hn).
  exists result. repeat split; assumption.
Defined.

(** X4.  Every call performs exactly one HTTP exchange, to the URL of its
    arguments: fetch-url and extract-html-fragment with the method, the
    headers (none given: an empty record), the body and the redirect mode of
    the arguments, check-status with the method HEAD and nothing else but its
    timeout. *)
Theorem one_request_per_call (E : Env) :
  (forall args : FetchUrlArgs.t,
     requests (trace (handleFetchUrl E args))
     = [ (FetchUrlArgs.url args,
          mkInit (FetchUrlArgs.method args)
            (Some (or_empty (FetchUrlArgs.headers args)))
            (nonempty (FetchUrlArgs.body args))
            (Some (if FetchUrlArgs.followRedirects args then follow else manual))
            (nonzero (FetchUrlArgs.timeout args))
            (nonzero (FetchUrlArgs.timeout args))) ])
  /\ (forall args : ExtractHtmlFragmentArgs.t,
        requests (trace (handleExtractHtmlFragment E args))
        = [ (ExtractHtmlFragmentArgs.url args,
             mkInit (ExtractHtmlFragmentArgs.method args)
               (Some (or_empty (ExtractHtmlFragmentArgs.headers args)))
               (nonempty (ExtractHtmlFragmentArgs.body args))
               (Some (if ExtractHtmlFragmentArgs.followRedirects args
                      then follow else manual))
               (nonzero (ExtractHtmlFragmentArgs.timeout args))
               (nonzero (ExtractHtmlFragmentArgs.timeout args))) ])
  /\ (forall args : CheckStatusArgs.t,
        requests (trace (handleCheckStatus E args))
        = [ (CheckStatusArgs.url args,
             mkInit HEAD None None None None (nonzero (CheckStatusArgs.timeout args))) ]).
Proof.
  split; [| split]; intros args.
  - apply handleFetchUrl_requests.
  - apply handleExtractHtmlFragment_requests.
  - apply handleCheckStatus_requests.
Qed.

(** X5.  No handler throws: every call is answered, with the serialized result
    of its [try] block or, when the block throws, with an error envelope whose
    text is the operation's tag followed by the error's message. *)
Theorem handlers_always_answer (E : Env) :
  (forall args : FetchUrlArgs.t,
     outcome (handleFetchUrl E args)
     = inr (answer E "Error fetching URL: " (outcome (fetchUrlResult E args))))
  /\ (forall args : ExtractHtmlFragmentArgs.t,
        outcome (handleExtractHtmlFragment E args)
        = inr (answer E "Error extracting HTML fragment: "
                 (outcome (extractHtmlFragmentResult E args))))
  /\ (forall args : CheckStatusArgs.t,
        outcome (handleCheckStatus E args)
        = inr (answer E "Error checking URL status: " (outcome (checkStatusResult E args)))).
Proof.
  split; [| split]; intros args.
  - apply handleFetchUrl_outcome.
  - apply handleExtractHtmlFragment_outcome.
  - apply handleCheckStatus_outcome.
Qed.

(** ** The shape of the results *)

Lemma transformed_fields
    (E : Env) (args : FetchUrlArgs.t) (r : Response) (result : object) :
  transformed E args r (metadata r) = inr result ->
  map fst result = fetchUrlFields args.
Proof.
  unfold transformed, fetchUrlFields.
  destruct (FetchUrlArgs.responseType args);
    destruct (payload r) as [e0 | bytes]; try discriminate.
  - intros H; injection H as <-; reflexivity.
  - destruct (JSON_parse E (decode E bytes)); [discriminate |].
    intros H; injection H as <-; reflexivity.
  - intros H; injection H as <-; reflexivity.
  - destruct (JSDOM E (decode E bytes)) as [e1 | document]; [discriminate |].
    destruct (nonempty (FetchUrlArgs.fragmentSelector args)) as [selector |].
    + destruct (querySelectorAll E document selector) as [e2 | [| el [| el' rest]]];
        try discriminate; intros H; injection H as <-; reflexivity.
    + intros H; injection H as <-; reflexivity.
Qed.

(** X6.  The fields of every result, in their order.  A fetch-url result has
    [status], [statusText], [headers], [url] and [content], then [encoding]
    for binary, or [matchCount] (only with a non-empty fragmentSelector) and
    [contentType] for html-fragment.  An extract-html-fragment result has
    [status], [statusText], [url], [selector], [matchCount] and [html], and no
    [headers].  A check-status result has [status], [statusText], [headers],
    [url] and [isAvailable]. *)
Theorem result_fields (E : Env) :
  (forall (args : FetchUrlArgs.t) (result : object),
     outcome (fetchUrlResult E args) = inr result ->
     map fst result = fetchUrlFields args)
  /\ (forall (args : ExtractHtmlFragmentArgs.t) (result : object),
        outcome (extractHtmlFragmentResult E args) = inr result ->
        map fst result
        = ["status"; "statusText"; "url"; "selector"; "matchCount"; "html"]
        /\ get "headers" result = None)
  /\ (forall (args : CheckStatusArgs.t) (result : object),
        outcome (checkStatusResult E args) = inr result ->
        map fst result = ["status"; "statusText"; "headers"; "url"; "isAvailable"]).
Proof.
  split; [| split].
  - intros args result. rewrite fetchUrlResult_outcome.
    destruct (fetch E (FetchUrlArgs.url args) (fetchUrlOptions args)) as [e | r];
      [discriminate |].
    apply transformed_fields.
  - intros args result. rewrite extractHtmlFragmentResult_outcome.
    destruct (fetch E (ExtractHtmlFragmentArgs.url args) (extractOptions args))
      as [e | r]; [discriminate |].
    unfold extracted.
    destruct (ok r); [| discriminate].
    destruct (payload r) as [e0 | bytes]; [discriminate |].
    destruct (JSDOM E (decode E bytes)) as [e1 | document]; [discriminate |].
    destruct (missing_anchor E document (ExtractHtmlFragmentArgs.anchorId args));
      [discriminate |].
    destruct (querySelectorAll E document (ExtractHtmlFragmentArgs.selector args))
      as [e2 | [| el elements]]; try discriminate.
    intros H; injection H as <-. split; reflexivity.
  - intros args result.
    unfold checkStatusResult, await_fetch, perform, console_error, emit.
    destruct (fetch E (CheckStatusArgs.url args) (checkStatusOptions args)) as [e | r];
      [discriminate |].
    intros H; injection H as <-. reflexivity.
Qed.

Lemma result_fields_witness :
  map fst
    [ ("status", JNum 200);
      ("statusText", JStr "OK");
      ("headers", JRec []);
      ("url", JStr "http://localhost:8080/status");
      ("content", JStr "T0s=");
      ("encoding", JStr "base64") ]
  = fetchUrlFields (Samples.get_as "/status" ResponseType.binary None).
Proof.
  exact (proj1 (result_fields Mock.env)
           (Samples.get_as "/status" ResponseType.binary None) _ eq_refl).
Defined.

(** ** Selectors *)

(** X7.  fetch-url consults its fragmentSelector only for
    responseType=html-fragment: with any other responseType the call is the
    same call without the selector, events and answer alike; and with
    html-fragment an empty selector is no selector. *)
Theorem fragment_selector_ignored (E : Env) (args : FetchUrlArgs.t) :
  FetchUrlArgs.responseType args <> ResponseType.html_fragment
  \/ FetchUrlArgs.fragmentSelector args = Some "" ->
  handleFetchUrl E args = handleFetchUrl E (without_selector args).
Proof.
  destruct args as [target method headers body timeout responseType follows selector].
  unfold without_selector; cbn.
  intros [Hmode | ->].
  - destruct responseType; try reflexivity. congruence.
  - destruct responseType; reflexivity.
Qed.

Lemma fragment_selector_ignored_witness :
  handleFetchUrl Mock.env (Samples.get_as "/" ResponseType.text (Some "h1"))
  = handleFetchUrl Mock.env (Samples.get_as "/" ResponseType.text None).
Proof.
  apply (fragment_selector_ignored Mock.env
           (Samples.get_as "/" ResponseType.text (Some "h1"))).
  left. discriminate.
Defined.

(** X8.  A selector that the DOM refuses: when [querySelectorAll] throws,
    fetch-url answers with the DOM's message behind
    [Error fetching URL: Failed to parse or extract HTML fragment: ] and
    extract-html-fragment behind [Error extracting HTML fragment: ].  The
    empty selector is such a selector for extract-html-fragment, which
    therefore never returns a result for it, whereas fetch-url takes it for no
    selector and returns the whole body. *)
Theorem refused_selector (E : Env) :
  (forall (r : Response) (document : Document E) (selector : string) (e : Error),
     querySelectorAll E document selector = inl e ->
     (forall args : FetchUrlArgs.t,
        FetchUrlArgs.responseType args = ResponseType.html_fragment ->
        FetchUrlArgs.fragmentSelector args = Some selector ->
        selector <> "" ->
        Fetched E (FetchUrlArgs.url args) (fetchUrlOptions args) r document ->
        outcome (handleFetchUrl E args)
        = inr (failure ("Error fetching URL: Failed to parse or extract HTML fragment: "
                          ++ message e)))
     /\ (forall args : ExtractHtmlFragmentArgs.t,
           ExtractHtmlFragmentArgs.selector args = selector ->
           Fetched E (ExtractHtmlFragmentArgs.url args) (extractOptions args) r document ->
           ok r = true ->
           missing_anchor E document (ExtractHtmlFragmentArgs.anchorId args) = None ->
           outcome (handleExtractHtmlFragment E args)
           = inr (failure ("Error extracting HTML fragment: " ++ message e))))
  /\ (forall (args : ExtractHtmlFragmentArgs.t) (result : object),
        ExtractHtmlFragmentArgs.selector args = "" ->
        outcome (extractHtmlFragmentResult E args) <> inr result)
  /\ (forall (args : FetchUrlArgs.t) (r : Response) (bytes : list byte)
             (document : Document E),
        FetchUrlArgs.responseType args = ResponseType.html_fragment ->
        FetchUrlArgs.fragmentSelector args = Some "" ->
        fetch E (FetchUrlArgs.url args) (fetchUrlOptions args) = inr r ->
        payload r = inr bytes ->
        JSDOM E (decode E bytes) = inr document ->
        exists result : object,
          outcome (fetchUrlResult E args) = inr result
          /\ get "content" result = Some (JStr (decode E bytes))).
Proof.
  split; [| split].
  - intros r document selector e Hq. split.
    + intros args Hmode Hsel Hne (Hf & bytes & Hp & Hd).
      rewrite handleFetchUrl_outcome, (fetchUrlResult_fetched E args r Hf),
        processResponse_outcome.
      unfold transformed.
      rewrite Hmode, Hp, Hd, Hsel, (nonempty_some selector Hne), Hq.
      reflexivity.
    + intros args Hsel (Hf & bytes & Hp & Hd) Hok Ha.
      rewrite handleExtractHtmlFragment_outcome,
        (extractHtmlFragmentResult_fetched E args r Hf).
      unfold extracted. rewrite Hok, Hp, Hd, Ha, Hsel, Hq.
      destruct e; reflexivity.
  - intros args result Hsel. rewrite extractHtmlFragmentResult_outcome.
    destruct (fetch E (ExtractHtmlFragmentArgs.url args) (extractOptions args))
      as [e | r]; [discriminate |].
    unfold extracted.
    destruct (ok r); [| discriminate].
    destruct (payload r) as [e0 | bytes]; [discriminate |].
    destruct (JSDOM E (decode E bytes)) as [e1 | document]; [discriminate |].
    destruct (missing_anchor E document (ExtractHtmlFragmentArgs.anchorId args));
      [discriminate |].
    rewrite Hsel.
    destruct (empty_selector_invalid E document) as [e He].
    rewrite He. discriminate.
  - intros args r bytes document Hmode Hsel Hf Hp Hd.
    rewrite fetchUrlResult_outcome, Hf. unfold transformed.
    rewrite Hmode, Hp, Hd, Hsel. cbn.
    eexists. split; reflexivity.
Qed.

Lemma refused_selector_witness :
  querySelectorAll Mock.env Mock.testDocument ""
  = inl (mkError "The string is not a valid selector")
  /\ outcome (handleExtractHtmlFragment Mock.env (Samples.extract "/" "" None))
     = inr (failure
              "Error extracting HTML fragment: The string is not a valid selector").
Proof.
  split; [reflexivity |].
  refine (proj2 (proj1 (refused_selector Mock.env) Samples.home Mock.testDocument ""
                   (mkError "The string is not a valid selector") eq_refl)
            (Samples.extract "/" "" None) eq_refl _ eq_refl eq_refl).
  split; [reflexivity |].
  exists (Mock.bytes Mock.testPage). split; reflexivity.
Defined.

(** ** How often the body is read *)

Lemma body_reads_app (t u : list Event) :
  body_reads (t ++ u)%list = (body_reads t + body_reads u)%nat.
Proof.
  induction t as [| ev t IH]; simpl; [reflexivity |].
  destruct ev; simpl; now rewrite IH.
Qed.

Lemma html_parses_app (t u : list Event) :
  html_parses (t ++ u)%list = (html_parses t + html_parses u)%nat.
Proof.
  induction t as [| ev t IH]; simpl; [reflexivity |].
  destruct ev; simpl; now rewrite IH.
Qed.

Lemma envelope_reads (E : Env) (m : M object) (line tag : string) :
  body_reads
    (trace
       (try_catch (result <- m ;; ret (success E result))
          (fun error =>
             console_error_with line error ;; ret (failure (tag ++ message error)))))
  = body_reads (trace m)
  /\ html_parses
       (trace
          (try_catch (result <- m ;; ret (success E result))
             (fun error =>
                console_error_with line error ;; ret (failure (tag ++ message error)))))
     = html_parses (trace m).
Proof.
  rewrite envelope_trace, body_reads_app, html_parses_app.
  destruct (outcome m); simpl; lia.
Qed.

Lemma processResponse_reads
    (E : Env) (args : FetchUrlArgs.t) (r : Response) (o : object) :
  body_reads (trace (processResponse E args r o)) = 1%nat
  /\ (html_parses (trace (processResponse E args r o)) <= 1)%nat
  /\ (FetchUrlArgs.responseType args <> ResponseType.html_fragment ->
      html_parses (trace (processResponse E args r o)) = 0%nat).
Proof.
  unfold processResponse, response_text, response_json, response_arrayBuffer,
    new_JSDOM, perform, call.
  destruct (FetchUrlArgs.responseType args);
    destruct (payload r) as [e | bytes]; cbn;
    try (repeat split; solve [reflexivity | lia | congruence]).
  - destruct (JSON_parse E (decode E bytes)); cbn; repeat split; lia.
  - destruct (JSDOM E (decode E bytes)) as [e | document]; cbn;
      [repeat split; solve [lia | congruence] |].
    destruct (nonempty (FetchUrlArgs.fragmentSelector args)) as [selector |]; cbn;
      [| repeat split; solve [lia | congruence]].
    destruct (querySelectorAll E document selector) as [e | [| el [| el' rest]]];
      cbn; repeat split; solve [lia | congruence].
Qed.

Lemma handleFetchUrl_parses_follow_reads (E : Env) (args : FetchUrlArgs.t) :
  parses_follow_reads false (trace (handleFetchUrl E args)) = true.
Proof.
  unfold handleFetchUrl, fetchUrlResult, processResponse, await_fetch, response_text,
    response_json, response_arrayBuffer, new_JSDOM, perform, call, console_error,
    console_error_with, emit.
  destruct (fetch E (FetchUrlArgs.url args) (fetchUrlOptions args)) as [e | r];
    [reflexivity |]. cbn.
  destruct (FetchUrlArgs.responseType args);
    destruct (payload r) as [e | bytes]; cbn; try reflexivity.
  - destruct (JSON_parse E (decode E bytes)); reflexivity.
  - destruct (JSDOM E (decode E bytes)) as [e | document]; cbn; [reflexivity |].
    destruct (nonempty (FetchUrlArgs.fragmentSelector args)) as [selector |]; cbn;
      [| reflexivity].
    destruct (querySelectorAll E document selector) as [e | [| el [| el' rest]]];
      reflexivity.
Qed.

Lemma handleExtractHtmlFragment_parses_follow_reads
    (E : Env) (args : ExtractHtmlFragmentArgs.t) :
  parses_follow_reads false (trace (handleExtractHtmlFragment E args)) = true.
Proof.
  unfold handleExtractHtmlFragment, extractHtmlFragmentResult, await_fetch,
    response_text, new_JSDOM, checkAnchor, perform, call, console_error,
    console_error_with, emit.
  destruct (fetch E (ExtractHtmlFragmentArgs.url args) (extractOptions args))
    as [e | r]; [reflexivity |]. cbn.
  destruct (ok r); [| reflexivity]. cbn.
  destruct (payload r) as [e | bytes]; [reflexivity |]. cbn.
  destruct (JSDOM E (decode E bytes)) as [e | document]; [reflexivity |]. cbn.
  destruct (nonempty (ExtractHtmlFragmentArgs.anchorId args)) as [id |]; cbn.
  - destruct (getElementById E document id) as [anchor |]; [| reflexivity]. cbn.
    destruct (querySelectorAll E document (ExtractHtmlFragmentArgs.selector args))
      as [e | [| el [| el' rest]]]; reflexivity.
  - destruct (querySelectorAll E document (ExtractHtmlFragmentArgs.selector args))
      as [e | [| el [| el' rest]]]; reflexivity.
Qed.

Lemma handleFetchUrl_reads (E : Env) (args : FetchUrlArgs.t) :
  (body_reads (trace (handleFetchUrl E args)) <= 1)%nat
  /\ (html_parses (trace (handleFetchUrl E args))
      <= body_reads (trace (handleFetchUrl E args)))%nat
  /\ (forall r : Response,
        fetch E (FetchUrlArgs.url args) (fetchUrlOptions args) = inr r ->
        body_reads (trace (handleFetchUrl E args)) = 1%nat)
  /\ (FetchUrlArgs.responseType args <> ResponseType.html_fragment ->
      html_parses (trace (handleFetchUrl E args)) = 0%nat).
Proof.
  unfold handleFetchUrl.
  destruct (envelope_reads E (fetchUrlResult E args) "Error fetching URL:"
              "Error fetching URL: ") as [-> ->].
  unfold fetchUrlResult. rewrite !trace_bind, !body_reads_app, !html_parses_app.
  unfold await_fetch, perform, console_error, emit. cbn.
  destruct (fetch E (FetchUrlArgs.url args) (fetchUrlOptions args)) as [e | r].
  - cbn. repeat split; try lia. intros r H; discriminate H.
  - destruct (processResponse_reads E args r (metadata r)) as (H1 & H2 & H3).
    rewrite H1. repeat split; try lia. intros Hmode. rewrite (H3 Hmode). lia.
Qed.

Lemma handleExtractHtmlFragment_reads (E : Env) (args : ExtractHtmlFragmentArgs.t) :
  (body_reads (trace (handleExtractHtmlFragment E args)) <= 1)%nat
  /\ (html_parses (trace (handleExtractHtmlFragment E args))
      <= body_reads (trace (handleExtractHtmlFragment E args)))%nat.
Proof.
  unfold handleExtractHtmlFragment.
  destruct (envelope_reads E (extractHtmlFragmentResult E args)
              "Error extracting HTML fragment:" "Error extracting HTML fragment: ")
    as [-> ->].
  unfold extractHtmlFragmentResult, await_fetch, response_text, new_JSDOM,
    checkAnchor, perform, call, console_error, emit.
  destruct (fetch E (ExtractHtmlFragmentArgs.url args) (extractOptions args))
    as [e | r]; [cbn; lia |]. cbn.
  destruct (ok r); [| cbn; lia]. cbn.
  destruct (payload r) as [e | bytes]; [cbn; lia |]. cbn.
  destruct (JSDOM E (decode E bytes)) as [e | document]; [cbn; lia |]. cbn.
  destruct (nonempty (ExtractHtmlFragmentArgs.anchorId args)) as [id |]; cbn.
  - destruct (getElementById E document id) as [anchor |]; [| cbn; lia]. cbn.
    destruct (querySelectorAll E document (ExtractHtmlFragmentArgs.selector args))
      as [e | [| el [| el' rest]]]; cbn; lia.
  - destruct (querySelectorAll E document (ExtractHtmlFragmentArgs.selector args))
      as [e | [| el [| el' rest]]]; cbn; lia.
Qed.

(** X9.  No call reads a response body twice or parses HTML twice, and HTML is
    parsed only after the body has been read: in the trace of every call each
    [ParseHtml] comes after a [ReadBody].  fetch-url reads the body of every
    response it gets, whatever the status, and parses HTML only for
    responseType=html-fragment; check-status reads no body and parses nothing:
    the log line and the HEAD request are all it does. *)
Theorem body_read_at_most_once (E : Env) :
  (forall args : FetchUrlArgs.t,
     (body_reads (trace (handleFetchUrl E args)) <= 1)%nat
     /\ (html_parses (trace (handleFetchUrl E args))
         <= body_reads (trace (handleFetchUrl E args)))%nat
     /\ parses_follow_reads false (trace (handleFetchUrl E args)) = true
     /\ (forall r : Response,
           fetch E (FetchUrlArgs.url args) (fetchUrlOptions args) = inr r ->
           body_reads (trace (handleFetchUrl E args)) = 1%nat)
     /\ (FetchUrlArgs.responseType args <> ResponseType.html_fragment ->
         html_parses (trace (handleFetchUrl E args)) = 0%nat))
  /\ (forall args : ExtractHtmlFragmentArgs.t,
        (body_reads (trace (handleExtractHtmlFragment E args)) <= 1)%nat
        /\ (html_parses (trace (handleExtractHtmlFragment E args))
            <= body_reads (trace (handleExtractHtmlFragment E args)))%nat
        /\ parses_follow_reads false (trace (handleExtractHtmlFragment E args)) = true)
  /\ (forall args : CheckStatusArgs.t,
        body_reads (trace (handleCheckStatus E args)) = 0%nat
        /\ html_parses (trace (handleCheckStatus E args)) = 0%nat).
Proof.
  split; [| split].
  - intros args.
    destruct (handleFetchUrl_reads E args) as (Hone & Hle & Hread & Hparse).
    split; [exact Hone |]. split; [exact Hle |].
    split; [apply handleFetchUrl_parses_follow_reads |].
    split; [exact Hread | exact Hparse].
  - intros args.
    destruct (handleExtractHtmlFragment_reads E args) as (Hone & Hle).
    split; [exact Hone |]. split; [exact Hle |].
    apply handleExtractHtmlFragment_parses_follow_reads.
  - intros args. unfold handleCheckStatus.
    destruct (envelope_reads E (checkStatusResult E args)
                "Error checking URL status:" "Error checking URL status: ")
      as [-> ->].
    unfold checkStatusResult, await_fetch, perform, console_error, emit.
    destruct (fetch E (CheckStatusArgs.url args) (checkStatusOptions args));
      cbn; lia.
Qed.

(** ** What the schemas accept *)

Lemma is_positive_iff (n : number) : Zod.is_positive n = true <-> (0 < n)%Q.
Proof.
  unfold Zod.is_positive. rewrite negb_true_iff. split.
  - intros H. apply Qnot_le_lt. intros Hle.
    apply Qle_bool_iff in Hle. congruence.
  - intros H. destruct (Qle_bool n 0) eqn:Hle; [| reflexivity].
    apply Qle_bool_iff in Hle. exfalso. exact (Qlt_not_le 0 n H Hle).
Qed.

Lemma url_accepted (isUrl : string -> bool) (input : Raw.t) (s : string) :
  Zod.url isUrl input = Some s <-> input = Raw.Str s /\ isUrl s = true.
Proof.
  unfold Zod.url. split.
  - destruct input; try discriminate.
    destruct (isUrl s0) eqn:H; [| discriminate].
    intros [= <-]. auto.
  - intros [-> ->]. reflexivity.
Qed.

Lemma string_accepted (input : Raw.t) (s : string) :
  Zod.string_ input = Some s <-> input = Raw.Str s.
Proof.
  unfold Zod.string_. split.
  - destruct input; try discriminate. now intros [= <-].
  - now intros ->.
Qed.

Lemma optional_positive_accepted (input : Raw.t) (timeout : option number) :
  Zod.optional Zod.positive input = Some timeout ->
  positive_timeout timeout
  /\ (input = Raw.Undefined /\ timeout = None
      \/ exists T : number, input = Raw.Num T /\ timeout = Some T).
Proof.
  unfold Zod.optional, Zod.positive, positive_timeout.
  destruct input; try discriminate; cbn.
  - intros [= <-]. split; [discriminate | left; auto].
  - destruct (Zod.is_positive n) eqn:Hpos; [| discriminate].
    intros [= <-]. split.
    + intros T [= <-]. now apply is_positive_iff.
    + right. now exists n.
Qed.

Lemma default_undefined {A : Type} (value : A) (inner : Zod.schema A) (input : Raw.t)
    (a : A) :
  Zod.default value inner input = Some a -> input = Raw.Undefined -> a = value.
Proof. intros H ->. cbn in H. congruence. Qed.

Lemma extract_method_accepted (input : Raw.t) (m : Method) :
  Zod.default GET (Zod.enum [("GET", GET); ("POST", POST)]) input = Some m ->
  m = GET \/ m = POST.
Proof.
  unfold Zod.default, Zod.enum.
  destruct input; try discriminate; cbn.
  - intros [= <-]. now left.
  - destruct (String.eqb s "GET"); [intros [= <-]; now left |].
    destruct (String.eqb s "POST"); [intros [= <-]; now right | discriminate].
Qed.

(** The steps of a [z.object], one key at a time. *)
Ltac next_key H name :=
  match type of H with
  | Zod.and_then ?step _ = Some _ =>
      let x := fresh name in
      let Hx := fresh "H" name in
      destruct step as [x |] eqn:Hx; [cbn [Zod.and_then] in H | discriminate H]
  end.

Lemma FetchUrlArgsSchema_sound
    (isUrl : string -> bool) (input : Raw.t) (a : FetchUrlArgs.t) :
  FetchUrlArgsSchema isUrl input = Some a ->
  exists props : list (string * Raw.t),
    input = Raw.Obj props
    /\ Raw.field "url" props = Raw.Str (FetchUrlArgs.url a)
    /\ isUrl (FetchUrlArgs.url a) = true
    /\ positive_timeout (FetchUrlArgs.timeout a)
    /\ (Raw.field "method" props = Raw.Undefined -> FetchUrlArgs.method a = GET)
    /\ (Raw.field "responseType" props = Raw.Undefined ->
        FetchUrlArgs.responseType a = ResponseType.text)
    /\ (Raw.field "followRedirects" props = Raw.Undefined ->
        FetchUrlArgs.followRedirects a = true).
Proof.
  intros H. unfold FetchUrlArgsSchema in H.
  destruct input as [| | | | | | props]; try discriminate H.
  next_key H url. next_key H method. next_key H headers. next_key H body.
  next_key H timeout. next_key H responseType. next_key H follows.
  next_key H selector.
  injection H as <-. cbn.
  apply url_accepted in Hurl. destruct Hurl as [Hfield Hvalid].
  exists props. repeat split; try assumption.
  - apply (optional_positive_accepted _ _ Htimeout).
  - intros Hu. exact (default_undefined _ _ _ _ Hmethod Hu).
  - intros Hu. exact (default_undefined _ _ _ _ HresponseType Hu).
  - intros Hu. exact (default_undefined _ _ _ _ Hfollows Hu).
Qed.

Lemma ExtractHtmlFragmentArgsSchema_sound
    (isUrl : string -> bool) (input : Raw.t) (a : ExtractHtmlFragmentArgs.t) :
  ExtractHtmlFragmentArgsSchema isUrl input = Some a ->
  exists props : list (string * Raw.t),
    input = Raw.Obj props
    /\ Raw.field "url" props = Raw.Str (ExtractHtmlFragmentArgs.url a)
    /\ isUrl (ExtractHtmlFragmentArgs.url a) = true
    /\ Raw.field "selector" props = Raw.Str (ExtractHtmlFragmentArgs.selector a)
    /\ positive_timeout (ExtractHtmlFragmentArgs.timeout a)
    /\ (ExtractHtmlFragmentArgs.method a = GET
        \/ ExtractHtmlFragmentArgs.method a = POST)
    /\ (Raw.field "method" props = Raw.Undefined ->
        ExtractHtmlFragmentArgs.method a = GET)
    /\ (Raw.field "followRedirects" props = Raw.Undefined ->
        ExtractHtmlFragmentArgs.followRedirects a = true).
Proof.
  intros H. unfold ExtractHtmlFragmentArgsSchema in H.
  destruct input as [| | | | | | props]; try discriminate H.
  next_key H url. next_key H selector. next_key H anchor. next_key H method.
  next_key H headers. next_key H body. next_key H timeout. next_key H follows.
  injection H as <-. cbn.
  apply url_accepted in Hurl. destruct Hurl as [Hfield Hvalid].
  apply string_accepted in Hselector.
  exists props. repeat split; try assumption.
  - apply (optional_positive_accepted _ _ Htimeout).
  - exact (extract_method_accepted _ _ Hmethod).
  - intros Hu. exact (default_undefined _ _ _ _ Hmethod Hu).
  - intros Hu. exact (default_undefined _ _ _ _ Hfollows Hu).
Qed.

Lemma CheckStatusArgsSchema_sound
    (isUrl : string -> bool) (input : Raw.t) (a : CheckStatusArgs.t) :
  CheckStatusArgsSchema isUrl input = Some a ->
  exists props : list (string * Raw.t),
    input = Raw.Obj props
    /\ Raw.field "url" props = Raw.Str (CheckStatusArgs.url a)
    /\ isUrl (CheckStatusArgs.url a) = true
    /\ positive_timeout (CheckStatusArgs.timeout a).
Proof.
  intros H. unfold CheckStatusArgsSchema in H.
  destruct input as [| | | | | | props]; try discriminate H.
  next_key H url. next_key H timeout.
  injection H as <-. cbn.
  apply url_accepted in Hurl. destruct Hurl as [Hfield Hvalid].
  exists props. repeat split; try assumption.
  apply (optional_positive_accepted _ _ Htimeout).
Qed.

(** X10.  What validation lets through.  Arguments that a schema accepts are
    an object whose [url] is a string the URL parser accepts, taken as it is;
    a timeout, when there is one, is positive; a [method], [responseType] or
    [followRedirects] that is not there is read as GET, text and true; the
    [selector] of extract-html-fragment is a string, taken as it is, and its
    [method] is GET or POST. *)
Theorem validated_arguments (isUrl : string -> bool) :
  (forall (input : Raw.t) (a : FetchUrlArgs.t),
     FetchUrlArgsSchema isUrl input = Some a ->
     exists props : list (string * Raw.t),
       input = Raw.Obj props
       /\ Raw.field "url" props = Raw.Str (FetchUrlArgs.url a)
       /\ isUrl (FetchUrlArgs.url a) = true
       /\ positive_timeout (FetchUrlArgs.timeout a)
       /\ (Raw.field "method" props = Raw.Undefined -> FetchUrlArgs.method a = GET)
       /\ (Raw.field "responseType" props = Raw.Undefined ->
           FetchUrlArgs.responseType a = ResponseType.text)
       /\ (Raw.field "followRedirects" props = Raw.Undefined ->
           FetchUrlArgs.followRedirects a = true))
  /\ (forall (input : Raw.t) (a : ExtractHtmlFragmentArgs.t),
        ExtractHtmlFragmentArgsSchema isUrl input = Some a ->
        exists props : list (string * Raw.t),
          input = Raw.Obj props
          /\ Raw.field "url" props = Raw.Str (ExtractHtmlFragmentArgs.url a)
          /\ isUrl (ExtractHtmlFragmentArgs.url a) = true
          /\ Raw.field "selector" props = Raw.Str (ExtractHtmlFragmentArgs.selector a)
          /\ positive_timeout (ExtractHtmlFragmentArgs.timeout a)
          /\ (ExtractHtmlFragmentArgs.method a = GET
              \/ ExtractHtmlFragmentArgs.method a = POST)
          /\ (Raw.field "method" props = Raw.Undefined ->
              ExtractHtmlFragmentArgs.method a = GET)
          /\ (Raw.field "followRedirects" props = Raw.Undefined ->
              ExtractHtmlFragmentArgs.followRedirects a = true))
  /\ (forall (input : Raw.t) (a : CheckStatusArgs.t),
        CheckStatusArgsSchema isUrl input = Some a ->
        exists props : list (string * Raw.t),
          input = Raw.Obj props
          /\ Raw.field "url" props = Raw.Str (CheckStatusArgs.url a)
          /\ isUrl (CheckStatusArgs.url a) = true
          /\ positive_timeout (CheckStatusArgs.timeout a)).
Proof.
  split; [| split]; intros input a.
  - apply FetchUrlArgsSchema_sound.
  - apply ExtractHtmlFragmentArgsSchema_sound.
  - apply CheckStatusArgsSchema_sound.
Qed.

Lemma validated_arguments_witness :
  FetchUrlArgsSchema Calls.isUrl (Raw.Obj [("url", Calls.to "/json")])
  = Some (Samples.get_as "/json" ResponseType.text None)
  /\ FetchUrlArgs.method (Samples.get_as "/json" ResponseType.text None) = GET
  /\ FetchUrlArgs.followRedirects (Samples.get_as "/json" ResponseType.text None) = true.
Proof.
  destruct (proj1 (validated_arguments Calls.isUrl)
              (Raw.Obj [("url", Calls.to "/json")])
              (Samples.get_as "/json" ResponseType.text None) eq_refl)
    as (props & Hinput & _ & _ & _ & Hmethod & _ & Hfollows).
  injection Hinput as <-.
  split; [reflexivity |].
  split; [exact (Hmethod eq_refl) | exact (Hfollows eq_refl)].
Defined.

Lemma not_positive_rejected (input : Raw.t) :
  input = Raw.Null \/ (exists n : number, input = Raw.Num n /\ (n <= 0)%Q) ->
  Zod.optional Zod.positive input = None.
Proof.
  intros [-> | (n & -> & Hn)]; [reflexivity |].
  unfold Zod.optional, Zod.positive. cbn.
  destruct (Zod.is_positive n) eqn:Hpos; [| reflexivity].
  apply is_positive_iff in Hpos.
  exfalso. exact (Qlt_not_le 0 n Hpos Hn).
Qed.

Lemma url_rejected (isUrl : string -> bool) (input : Raw.t) :
  (forall s : string, input = Raw.Str s -> isUrl s = false) ->
  Zod.url isUrl input = None.
Proof.
  intros H. unfold Zod.url. destruct input; try reflexivity.
  now rewrite (H s eq_refl).
Qed.

(** The answer of a [z.object] whose next key is refused. *)
Ltac refused :=
  repeat first
    [ reflexivity
    | match goal with
      | |- Zod.and_then ?step _ = None =>
          let x := fresh "x" in
          destruct step as [x |]; [cbn [Zod.and_then] | reflexivity]
      end ].

(** X11.  What validation refuses, for every tool and whatever the other
    arguments are: arguments that are not an object; a [url] that is missing,
    is not a string or is not accepted by the URL parser; a [timeout] that is
    zero, negative or [null].  extract-html-fragment also refuses a missing
    [selector] and every [method] but GET and POST. *)
Theorem invalid_arguments_rejected (isUrl : string -> bool) :
  (forall input : Raw.t,
     (forall props : list (string * Raw.t), input <> Raw.Obj props) ->
     FetchUrlArgsSchema isUrl input = None
     /\ ExtractHtmlFragmentArgsSchema isUrl input = None
     /\ CheckStatusArgsSchema isUrl input = None)
  /\ (forall props : list (string * Raw.t),
        (forall s : string, Raw.field "url" props = Raw.Str s -> isUrl s = false) ->
        FetchUrlArgsSchema isUrl (Raw.Obj props) = None
        /\ ExtractHtmlFragmentArgsSchema isUrl (Raw.Obj props) = None
        /\ CheckStatusArgsSchema isUrl (Raw.Obj props) = None)
  /\ (forall props : list (string * Raw.t),
        Raw.field "timeout" props = Raw.Null
        \/ (exists n : number, Raw.field "timeout" props = Raw.Num n /\ (n <= 0)%Q) ->
        FetchUrlArgsSchema isUrl (Raw.Obj props) = None
        /\ ExtractHtmlFragmentArgsSchema isUrl (Raw.Obj props) = None
        /\ CheckStatusArgsSchema isUrl (Raw.Obj props) = None)
  /\ (forall props : list (string * Raw.t),
        Raw.field "selector" props = Raw.Undefined ->
        ExtractHtmlFragmentArgsSchema isUrl (Raw.Obj props) = None)
  /\ (forall (props : list (string * Raw.t)) (name : string),
        Raw.field "method" props = Raw.Str name ->
        name <> "GET" ->
        name <> "POST" ->
        ExtractHtmlFragmentArgsSchema isUrl (Raw.Obj props) = None).
Proof.
  split; [| split; [| split; [| split]]].
  - intros input H.
    destruct input as [| | | | | | props]; try (repeat split; reflexivity).
    now destruct (H props).
  - intros props H.
    unfold FetchUrlArgsSchema, ExtractHtmlFragmentArgsSchema, CheckStatusArgsSchema.
    rewrite (url_rejected isUrl _ H). repeat split.
  - intros props H. apply not_positive_rejected in H.
    unfold FetchUrlArgsSchema, ExtractHtmlFragmentArgsSchema, CheckStatusArgsSchema.
    rewrite H. repeat split; refused.
  - intros props H. unfold ExtractHtmlFragmentArgsSchema. rewrite H.
    refused.
  - intros props name H Hget Hpost. unfold ExtractHtmlFragmentArgsSchema. rewrite H.
    assert (Hm : Zod.default GET (Zod.enum [("GET", GET); ("POST", POST)]) (Raw.Str name)
                 = None).
    { cbn. apply String.eqb_neq in Hget, Hpost. now rewrite Hget, Hpost. }
    rewrite Hm. refused.
Qed.

Lemma invalid_arguments_rejected_witness :
  FetchUrlArgsSchema Calls.isUrl
    (Raw.Obj [("url", Calls.to "/"); ("timeout", Raw.Num 0%Q)]) = None
  /\ ExtractHtmlFragmentArgsSchema Calls.isUrl
       (Raw.Obj [("url", Calls.to "/"); ("selector", Raw.Str "h1");
                 ("method", Raw.Str "PUT")]) = None
  /\ CheckStatusArgsSchema Calls.isUrl (Raw.Obj [("url", Raw.Str "localhost")]) = None.
Proof.
  destruct (invalid_arguments_rejected Calls.isUrl)
    as (_ & Hurl & Htimeout & _ & Hmethod).
  split; [| split].
  - refine (proj1 (Htimeout [("url", Calls.to "/"); ("timeout", Raw.Num 0%Q)] _)).
    right. exists 0%Q. split; [reflexivity |].
    apply Qle_refl.
  - refine (Hmethod [("url", Calls.to "/"); ("selector", Raw.Str "h1");
                     ("method", Raw.Str "PUT")] "PUT" eq_refl _ _); discriminate.
  - refine (proj2 (proj2 (Hurl [("url", Raw.Str "localhost")] _))).
    intros s H. injection H as <-. reflexivity.
Defined.

(** ** Arguments written out and read back *)

Lemma strings_of_record (entries : list (string * string)) :
  Zod.strings (map (fun kv => (fst kv, Raw.Str (snd kv))) entries) = Some entries.
Proof.
  induction entries as [| [k v] rest IH]; [reflexivity |].
  cbn. now rewrite IH.
Qed.

Lemma method_named (m : Method) : Zod.named (method_name m) all_methods = Some m.
Proof. destruct m; reflexivity. Qed.

Lemma response_type_named (r : ResponseType.t) :
  Zod.named (response_type_name r) response_types = Some r.
Proof. destruct r; reflexivity. Qed.

Lemma positive_timeout_some (T : number) :
  positive_timeout (Some T) -> Zod.is_positive T = true.
Proof. intros H. apply is_positive_iff. now apply H. Qed.

Ltac read_back :=
  cbn -[Zod.named Zod.strings Zod.is_positive method_name response_type_name];
  rewrite ?method_named, ?response_type_named, ?strings_of_record;
  cbn -[Zod.named Zod.strings Zod.is_positive method_name response_type_name].

(** X12.  Validation changes nothing it accepts.  Typed arguments whose url
    the URL parser accepts and whose timeout, if any, is positive (and, for
    extract-html-fragment, whose method is GET or POST), written out as the
    JSON object of a [tools/call] request with the absent ones left out, are
    read back by the tool's schema as the same arguments. *)
Theorem validation_round_trip (isUrl : string -> bool) :
  (forall a : FetchUrlArgs.t,
     isUrl (FetchUrlArgs.url a) = true ->
     positive_timeout (FetchUrlArgs.timeout a) ->
     FetchUrlArgsSchema isUrl (fetchUrlArguments a) = Some a)
  /\ (forall a : ExtractHtmlFragmentArgs.t,
        isUrl (ExtractHtmlFragmentArgs.url a) = true ->
        positive_timeout (ExtractHtmlFragmentArgs.timeout a) ->
        ExtractHtmlFragmentArgs.method a = GET \/ ExtractHtmlFragmentArgs.method a = POST ->
        ExtractHtmlFragmentArgsSchema isUrl (extractHtmlFragmentArguments a) = Some a)
  /\ (forall a : CheckStatusArgs.t,
        isUrl (CheckStatusArgs.url a) = true ->
        positive_timeout (CheckStatusArgs.timeout a) ->
        CheckStatusArgsSchema isUrl (checkStatusArguments a) = Some a).
Proof.
  split; [| split].
  - intros [target method headers body timeout responseType follows selector] Hurl Hpos.
    cbn in Hurl, Hpos.
    unfold FetchUrlArgsSchema, fetchUrlArguments.
    destruct headers as [headers |], body as [body |], timeout as [T |],
      selector as [selector |];
      read_back; rewrite Hurl; read_back;
      rewrite ?(positive_timeout_some _ Hpos); reflexivity.
  - intros [target selector anchor method headers body timeout follows] Hurl Hpos Hmethod.
    cbn in Hurl, Hpos, Hmethod.
    unfold ExtractHtmlFragmentArgsSchema, extractHtmlFragmentArguments.
    destruct Hmethod as [-> | ->];
      destruct anchor as [anchor |], headers as [headers |], body as [body |],
        timeout as [T |];
      read_back; rewrite Hurl; read_back;
      rewrite ?(positive_timeout_some _ Hpos); reflexivity.
  - intros [target timeout] Hurl Hpos. cbn in Hurl, Hpos.
    unfold CheckStatusArgsSchema, checkStatusArguments.
    destruct timeout as [T |];
      read_back; rewrite Hurl; read_back;
      rewrite ?(positive_timeout_some _ Hpos); reflexivity.
Qed.

Lemma validation_round_trip_witness :
  FetchUrlArgsSchema Calls.isUrl
    (fetchUrlArguments (Samples.get_within "/json" Samples.five_seconds))
  = Some (Samples.get_within "/json" Samples.five_seconds).
Proof.
  apply (proj1 (validation_round_trip Calls.isUrl)); [reflexivity |].
  intros T H. injection H as <-. reflexivity.
Defined.

(** ** Keys that no schema names *)

(** X13.  A schema reads the keys it names and nothing else: two argument
    objects that hold the same under those keys are validated alike, whatever
    else they hold.  So check-status takes no notice of a [method], and
    extract-html-fragment none of a [responseType] or a [fragmentSelector]. *)
Theorem unknown_keys_dropped
    (isUrl : string -> bool) (props props' : list (string * Raw.t)) :
  (agree_on fetchUrlKeys props props' ->
   FetchUrlArgsSchema isUrl (Raw.Obj props) = FetchUrlArgsSchema isUrl (Raw.Obj props'))
  /\ (agree_on extractHtmlFragmentKeys props props' ->
      ExtractHtmlFragmentArgsSchema isUrl (Raw.Obj props)
      = ExtractHtmlFragmentArgsSchema isUrl (Raw.Obj props'))
  /\ (agree_on checkStatusKeys props props' ->
      CheckStatusArgsSchema isUrl (Raw.Obj props)
      = CheckStatusArgsSchema isUrl (Raw.Obj props')).
Proof.
  unfold agree_on, fetchUrlKeys, extractHtmlFragmentKeys, checkStatusKeys.
  split; [| split]; intros H.
  - unfold FetchUrlArgsSchema.
    rewrite (H "url"), (H "method"), (H "headers"), (H "body"), (H "timeout"),
      (H "responseType"), (H "followRedirects"), (H "fragmentSelector");
      [reflexivity | cbn; tauto ..].
  - unfold ExtractHtmlFragmentArgsSchema.
    rewrite (H "url"), (H "selector"), (H "anchorId"), (H "method"), (H "headers"),
      (H "body"), (H "timeout"), (H "followRedirects");
      [reflexivity | cbn; tauto ..].
  - unfold CheckStatusArgsSchema.
    rewrite (H "url"), (H "timeout"); [reflexivity | cbn; tauto ..].
Qed.

Lemma unknown_keys_dropped_witness :
  CheckStatusArgsSchema Calls.isUrl
    (Raw.Obj [("method", Raw.Str "GET"); ("url", Calls.to "/status")])
  = CheckStatusArgsSchema Calls.isUrl (Raw.Obj [("url", Calls.to "/status")]).
Proof.
  apply (proj2 (proj2 (unknown_keys_dropped Calls.isUrl
                         [("method", Raw.Str "GET"); ("url", Calls.to "/status")]
                         [("url", Calls.to "/status")]))).
  intros key [<- | [<- | []]]; reflexivity.
Defined.

(** ** Calls that reach no handler *)

Lemma tool_names :
  map Tool.name TOOLS = ["extract-html-fragment"; "fetch-url"; "check-status"].
Proof. reflexivity. Qed.

(** X14.  A call that reaches no handler does nothing.  When the schema of a
    listed tool refuses the arguments, [tools/call] throws the validation
    error and nothing has happened: no log line, no request.  When the name
    is not that of a listed tool, the answer is the error envelope
    [Unknown tool: <name>], whatever the arguments are, and again nothing has
    happened. *)
Theorem unhandled_call_has_no_effect
    (E : Env) (isUrl : string -> bool) (ZodError : string -> Raw.t -> Error)
    (name : string) (input : Raw.t) :
  (In name (map Tool.name TOOLS) ->
   accepts isUrl name input = false ->
   callTool E isUrl ZodError name input = ([], inl (ZodError name input)))
  /\ (~ In name (map Tool.name TOOLS) ->
      callTool E isUrl ZodError name input
      = ([], inr (failure ("Unknown tool: " ++ name)))).
Proof.
  rewrite tool_names. unfold callTool, accepts, parse. split.
  - intros [<- | [<- | [<- | []]]]; cbn.
    + destruct (ExtractHtmlFragmentArgsSchema isUrl input); [discriminate | reflexivity].
    + destruct (FetchUrlArgsSchema isUrl input); [discriminate | reflexivity].
    + destruct (CheckStatusArgsSchema isUrl input); [discriminate | reflexivity].
  - intros H.
    destruct (String.eqb_spec name "fetch-url") as [-> | _];
      [exfalso; apply H; cbn; tauto |].
    destruct (String.eqb_spec name "extract-html-fragment") as [-> | _];
      [exfalso; apply H; cbn; tauto |].
    destruct (String.eqb_spec name "check-status") as [-> | _];
      [exfalso; apply H; cbn; tauto |].
    reflexivity.
Qed.

Lemma unhandled_call_has_no_effect_witness :
  callTool Mock.env Calls.isUrl Calls.ZodError "check-status"
    (Raw.Obj [("url", Raw.Str "localhost")])
  = ([], inl (mkError "Invalid arguments for tool check-status"))
  /\ callTool Mock.env Calls.isUrl Calls.ZodError "fetch" Raw.Undefined
     = ([], inr (failure "Unknown tool: fetch")).
Proof.
  split.
  - apply (proj1 (unhandled_call_has_no_effect Mock.env Calls.isUrl Calls.ZodError
                    "check-status" (Raw.Obj [("url", Raw.Str "localhost")])));
      [cbn; tauto | reflexivity].
  - apply (proj2 (unhandled_call_has_no_effect Mock.env Calls.isUrl Calls.ZodError
                    "fetch" Raw.Undefined)).
    cbn. intros [H | [H | [H | []]]]; discriminate H.
Defined.

(** ** The requests of validated calls *)

Lemma bind_ret {A B : Type} (a : A) (k : A -> M B) : bind (ret a) k = k a.
Proof. unfold bind, ret. destruct (k a). reflexivity. Qed.

Lemma trace_after_ret {A B : Type} (a : A) (k : A -> M B) :
  trace (bind (ret a) k) = trace (k a).
Proof. unfold bind, ret. destruct (k a). reflexivity. Qed.

Lemma nonzero_keeps_positive (timeout : option number) :
  positive_timeout timeout -> positive_timeout (nonzero timeout).
Proof.
  intros H T. unfold nonzero.
  destruct timeout as [n |]; [| discriminate].
  destruct (truthy_number n); [| discriminate].
  intros [= <-]. now apply H.
Qed.

(** X15.  What goes out over the network for a [tools/call] request.  When a
    call issues a request, it is its only one; its target is the [url] string
    of the arguments, as it was sent, and the URL parser accepts it; a
    timeout it carries is positive.  A request of extract-html-fragment has
    the method GET or POST; a request of check-status has the method HEAD and
    neither body nor headers. *)
Theorem dispatched_requests
    (E : Env) (isUrl : string -> bool) (ZodError : string -> Raw.t -> Error)
    (name : string) (input : Raw.t) (target : string) (options : RequestInit) :
  In (target, options) (requests (trace (callTool E isUrl ZodError name input))) ->
  requests (trace (callTool E isUrl ZodError name input)) = [(target, options)]
  /\ isUrl target = true
  /\ (exists props : list (string * Raw.t),
        input = Raw.Obj props /\ Raw.field "url" props = Raw.Str target)
  /\ positive_timeout (headersTimeout options)
  /\ positive_timeout (bodyTimeout options)
  /\ (name = "extract-html-fragment" -> method options = GET \/ method options = POST)
  /\ (name = "check-status" ->
      method options = HEAD /\ body options = None /\ headers options = None).
Proof.
  unfold callTool, parse.
  destruct (String.eqb_spec name "fetch-url") as [-> | _].
  { destruct (FetchUrlArgsSchema isUrl input) as [a |] eqn:Ha; [| intros []].
    rewrite trace_after_ret, handleFetchUrl_requests.
    intros [[= <- <-] | []].
    destruct (FetchUrlArgsSchema_sound isUrl input a Ha)
      as (props & -> & Hfield & Hvalid & Hpos & _).
    split; [reflexivity |]. split; [assumption |].
    split; [now exists props |].
    cbn. split; [now apply nonzero_keeps_positive |].
    split; [now apply nonzero_keeps_positive |].
    split; discriminate. }
  destruct (String.eqb_spec name "extract-html-fragment") as [-> | _].
  { destruct (ExtractHtmlFragmentArgsSchema isUrl input) as [a |] eqn:Ha; [| intros []].
    rewrite trace_after_ret, handleExtractHtmlFragment_requests.
    intros [[= <- <-] | []].
    destruct (ExtractHtmlFragmentArgsSchema_sound isUrl input a Ha)
      as (props & -> & Hfield & Hvalid & _ & Hpos & Hmethod & _).
    split; [reflexivity |]. split; [assumption |].
    split; [now exists props |].
    cbn. split; [now apply nonzero_keeps_positive |].
    split; [now apply nonzero_keeps_positive |].
    split; [intros _; exact Hmethod | discriminate]. }
  destruct (String.eqb_spec name "check-status") as [-> | _].
  { destruct (CheckStatusArgsSchema isUrl input) as [a |] eqn:Ha; [| intros []].
    rewrite trace_after_ret, handleCheckStatus_requests.
    intros [[= <- <-] | []].
    destruct (CheckStatusArgsSchema_sound isUrl input a Ha)
      as (props & -> & Hfield & Hvalid & Hpos).
    split; [reflexivity |]. split; [assumption |].
    split; [now exists props |].
    cbn. split; [now apply nonzero_keeps_positive |].
    split; [discriminate |].
    split; [discriminate | intros _; repeat split]. }
  intros [].
Qed.

Lemma dispatched_requests_witness :
  In (Samples.at_path "/status", mkInit HEAD None None None None None)
    (requests
       (trace
          (callTool Mock.env Calls.isUrl Calls.ZodError "check-status"
             (Raw.Obj [("url", Calls.to "/status"); ("method", Raw.Str "POST")]))))
  /\ method (mkInit HEAD None None None None None) = HEAD.
Proof.
  assert (H : In (Samples.at_path "/status", mkInit HEAD None None None None None)
                (requests
                   (trace
                      (callTool Mock.env Calls.isUrl Calls.ZodError "check-status"
                         (Raw.Obj [("url", Calls.to "/status");
                                   ("method", Raw.Str "POST")])))))
    by (left; reflexivity).
  split; [exact H |].
  exact (proj1 (proj2 (proj2 (proj2 (proj2 (proj2 (proj2
           (dispatched_requests Mock.env Calls.isUrl Calls.ZodError "check-status" _ _ _
              H)))))) eq_refl)).
Defined.

(** ** What the listing says is required *)

Ltac absent H key := rewrite (H key) by (cbn; intuition discriminate).

(** X16.  The [required] list of each listed tool is exactly right.  Arguments
    that lack a key the listing calls required are refused by the tool's
    schema; arguments that hold the required keys and no other, each a string
    and the [url] one that the URL parser accepts, are accepted. *)
Theorem required_arguments
    (isUrl : string -> bool) (tool : Tool.t) (props : list (string * Raw.t)) :
  In tool TOOLS ->
  (forall key : string,
     In key (InputSchema.required (Tool.inputSchema tool)) ->
     Raw.field key props = Raw.Undefined ->
     accepts isUrl (Tool.name tool) (Raw.Obj props) = false)
  /\ ((forall key : string,
         In key (InputSchema.required (Tool.inputSchema tool)) ->
         exists s : string,
           Raw.field key props = Raw.Str s /\ (key = "url" -> isUrl s = true)) ->
      (forall key : string,
         ~ In key (InputSchema.required (Tool.inputSchema tool)) ->
         Raw.field key props = Raw.Undefined) ->
      accepts isUrl (Tool.name tool) (Raw.Obj props) = true).
Proof.
  intros [<- | [<- | [<- | []]]]; cbn [Tool.name Tool.inputSchema InputSchema.required];
    unfold accepts; cbn [String.eqb Ascii.eqb Bool.eqb]; split.
  - intros key [<- | [<- | []]] H.
    + unfold ExtractHtmlFragmentArgsSchema. rewrite H. reflexivity.
    + unfold ExtractHtmlFragmentArgsSchema. rewrite H.
      destruct (Zod.url isUrl (Raw.field "url" props)); reflexivity.
  - intros Hreq Hrest.
    destruct (Hreq "url") as (u & Hu & Hvalid); [cbn; tauto |].
    destruct (Hreq "selector") as (s & Hs & _); [cbn; tauto |].
    unfold ExtractHtmlFragmentArgsSchema. rewrite Hu, Hs.
    absent Hrest "anchorId". absent Hrest "method". absent Hrest "headers".
    absent Hrest "body". absent Hrest "timeout". absent Hrest "followRedirects".
    cbn. rewrite (Hvalid eq_refl). reflexivity.
  - intros key [<- | []] H.
    unfold FetchUrlArgsSchema. rewrite H. reflexivity.
  - intros Hreq Hrest.
    destruct (Hreq "url") as (u & Hu & Hvalid); [cbn; tauto |].
    unfold FetchUrlArgsSchema. rewrite Hu.
    absent Hrest "method". absent Hrest "headers". absent Hrest "body".
    absent Hrest "timeout". absent Hrest "responseType".
    absent Hrest "followRedirects". absent Hrest "fragmentSelector".
    cbn. rewrite (Hvalid eq_refl). reflexivity.
  - intros key [<- | []] H.
    unfold CheckStatusArgsSchema. rewrite H. reflexivity.
  - intros Hreq Hrest.
    destruct (Hreq "url") as (u & Hu & Hvalid); [cbn; tauto |].
    unfold CheckStatusArgsSchema. rewrite Hu.
    absent Hrest "timeout".
    cbn. rewrite (Hvalid eq_refl). reflexivity.
Qed.

Lemma required_arguments_witness :
  accepts Calls.isUrl "extract-html-fragment" (Raw.Obj [("url", Calls.to "/")]) = false
  /\ accepts Calls.isUrl "extract-html-fragment"
       (Raw.Obj [("url", Calls.to "/"); ("selector", Raw.Str "h1")]) = true.
Proof.
  split.
  - refine (proj1 (required_arguments Calls.isUrl
                     (nth 0 TOOLS (Tool.mk "" "" (InputSchema.mk "" [] [])))
                     [("url", Calls.to "/")] _) "selector" _ eq_refl).
    + left. reflexivity.
    + right. left. reflexivity.
  - refine (proj2 (required_arguments Calls.isUrl
                     (nth 0 TOOLS (Tool.mk "" "" (InputSchema.mk "" [] [])))
                     [("url", Calls.to "/"); ("selector", Raw.Str "h1")] _) _ _).
    + left. reflexivity.
    + intros key [<- | [<- | []]].
      * exists (Mock.baseUrl ++ "/"). split; [reflexivity | reflexivity].
      * exists "h1". split; [reflexivity | discriminate].
    + intros key Hkey. cbn in Hkey.
      destruct (String.eqb_spec key "url") as [-> | Hu]; [tauto |].
      destruct (String.eqb_spec key "selector") as [-> | Hs]; [tauto |].
      cbn. apply String.eqb_neq in Hu, Hs. now rewrite Hu, Hs.
Defined.

(** ** The previous revision *)

Lemma response_type_upgraded (input : Raw.t) (r : Previous.ResponseType.t) :
  Zod.default Previous.ResponseType.text (Zod.enum Previous.response_types) input
  = Some r ->
  Zod.default ResponseType.text (Zod.enum response_types) input
  = Some match r with
         | Previous.ResponseType.text => ResponseType.text
         | Previous.ResponseType.json => ResponseType.json
         | Previous.ResponseType.binary => ResponseType.binary
         end.
Proof.
  unfold Zod.default, Zod.enum.
  destruct input; try discriminate; cbn.
  - now intros [= <-].
  - destruct (String.eqb s "text"); [now intros [= <-] |].
    destruct (String.eqb s "json"); [now intros [= <-] |].
    destruct (String.eqb s "binary"); [now intros [= <-] | discriminate].
Qed.

Lemma handleFetchUrl_upgraded
    (E : Env) (a : Previous.FetchUrlArgs.t) (fragmentSelector : option string) :
  handleFetchUrl E (upgraded a fragmentSelector) = Previous.handleFetchUrl E a.
Proof.
  destruct a as [target method headers body timeout responseType follows].
  destruct responseType; reflexivity.
Qed.

(** X17.  Adding extract-html-fragment and the html-fragment response type
    left the earlier tools as they were.  On arguments of the previous
    revision the present fetch-url handler is the previous one, with the same
    events and the same answer; a fetch-url call that the previous revision
    accepted is answered in the same way now, unless it carries a
    [fragmentSelector] that is not a string, which was dropped then and is
    refused now; check-status calls are answered as before; and the previous
    revision answered extract-html-fragment with [Unknown tool]. *)
Theorem previous_revision_preserved
    (E : Env) (isUrl : string -> bool) (ZodError : string -> Raw.t -> Error) :
  (forall (a : Previous.FetchUrlArgs.t) (fragmentSelector : option string),
     handleFetchUrl E (upgraded a fragmentSelector) = Previous.handleFetchUrl E a)
  /\ (forall (props : list (string * Raw.t)) (a : Previous.FetchUrlArgs.t),
        Previous.FetchUrlArgsSchema isUrl (Raw.Obj props) = Some a ->
        (Raw.field "fragmentSelector" props = Raw.Undefined
         \/ (exists s : string, Raw.field "fragmentSelector" props = Raw.Str s) ->
         callTool E isUrl ZodError "fetch-url" (Raw.Obj props)
         = Previous.callTool E isUrl ZodError "fetch-url" (Raw.Obj props))
        /\ (Raw.field "fragmentSelector" props <> Raw.Undefined ->
            (forall s : string, Raw.field "fragmentSelector" props <> Raw.Str s) ->
            callTool E isUrl ZodError "fetch-url" (Raw.Obj props)
            = ([], inl (ZodError "fetch-url" (Raw.Obj props)))))
  /\ (forall input : Raw.t,
        callTool E isUrl ZodError "check-status" input
        = Previous.callTool E isUrl ZodError "check-status" input)
  /\ (forall input : Raw.t,
        Previous.callTool E isUrl ZodError "extract-html-fragment" input
        = ([], inr (failure "Unknown tool: extract-html-fragment"))).
Proof.
  split; [exact (handleFetchUrl_upgraded E) |].
  split; [| split; reflexivity].
  intros props a H.
  unfold callTool, Previous.callTool, parse. cbn [String.eqb Ascii.eqb Bool.eqb].
  rewrite H. unfold Previous.FetchUrlArgsSchema in H.
  next_key H url. next_key H method. next_key H headers. next_key H body.
  next_key H timeout. next_key H responseType. next_key H follows.
  injection H as <-.
  unfold FetchUrlArgsSchema.
  rewrite Hurl, Hmethod, Hheaders, Hbody, Htimeout,
    (response_type_upgraded _ _ HresponseType), Hfollows.
  cbn [Zod.and_then]. split.
  - intros [Hs | (s & Hs)]; rewrite Hs;
      cbn [Zod.optional Zod.string_ option_map Zod.and_then];
      rewrite !bind_ret.
    + exact (handleFetchUrl_upgraded E
               (Previous.FetchUrlArgs.mk _ _ _ _ _ _ _) None).
    + exact (handleFetchUrl_upgraded E
               (Previous.FetchUrlArgs.mk _ _ _ _ _ _ _) (Some s)).
  - intros Hu Hs.
    destruct (Raw.field "fragmentSelector" props) as [| | b | n | s | items | o];
      try reflexivity.
    + congruence.
    + now destruct (Hs s).
Qed.

Lemma previous_revision_preserved_witness :
  Previous.FetchUrlArgsSchema Calls.isUrl
    (Raw.Obj [("url", Calls.to "/json"); ("fragmentSelector", Raw.Num 1%Q)])
  = Some (Previous.FetchUrlArgs.mk (Samples.at_path "/json") GET None None None
            Previous.ResponseType.text true)
  /\ callTool Mock.env Calls.isUrl Calls.ZodError "fetch-url"
       (Raw.Obj [("url", Calls.to "/json"); ("fragmentSelector", Raw.Num 1%Q)])
     = ([], inl (mkError "Invalid arguments for tool fetch-url")).
Proof.
  split; [reflexivity |].
  refine (proj2 (proj1 (proj2 (previous_revision_preserved Mock.env Calls.isUrl
                                 Calls.ZodError))
                   [("url", Calls.to "/json"); ("fragmentSelector", Raw.Num 1%Q)]
                   _ eq_refl) _ _); cbn; discriminate.
Defined.

(** ** The routes of the test server *)

Lemma Map_get_set_same (key : string) (h : TestServer.Handler)
    (m : list (string * TestServer.Handler)) :
  TestServer.Map_get key (TestServer.Map_set key h m) = Some h.
Proof.
  induction m as [| [k h'] rest IH]; cbn.
  - now rewrite String.eqb_refl.
  - destruct (String.eqb key k) eqn:Hk; cbn; rewrite Hk; [reflexivity | exact IH].
Qed.

Lemma Map_get_set_other (key key' : string) (h : TestServer.Handler)
    (m : list (string * TestServer.Handler)) :
  key' <> key ->
  TestServer.Map_get key' (TestServer.Map_set key h m) = TestServer.Map_get key' m.
Proof.
  intros Hne. induction m as [| [k h'] rest IH]; cbn.
  - apply String.eqb_neq in Hne. now rewrite Hne.
  - destruct (String.eqb_spec key k) as [-> | Hk]; cbn.
    + apply String.eqb_neq in Hne. now rewrite Hne.
    + destruct (String.eqb key' k); [reflexivity | exact IH].
Qed.

Lemma Map_set_same (key : string) (h : TestServer.Handler)
    (m : list (string * TestServer.Handler)) :
  TestServer.Map_get key m = Some h -> TestServer.Map_set key h m = m.
Proof.
  induction m as [| [k h'] rest IH]; cbn; [discriminate |].
  destruct (String.eqb_spec key k) as [-> | Hk].
  - now intros [= ->].
  - intros H. now rewrite (IH H).
Qed.

Lemma requested_nonempty (req : TestServer.IncomingMessage) : requested req <> "".
Proof.
  unfold requested, nonempty.
  destruct (TestServer.url req) as [[| c u] |]; discriminate.
Qed.

(** X18.  Routing in the test server is a lookup of the request's URL, the
    whole string and [/] when there is none, in the routes added so far.  A
    request for the path of the route added last is answered by that route's
    handler, whatever was registered there before; every other request is
    answered as before the addition; a request for which there is no route
    is answered 404 [Not Found]; and a route added for the empty path is
    never taken. *)
Theorem route_lookup
    (server : TestServer.t) (path : string) (handler : TestServer.Handler)
    (req : TestServer.IncomingMessage) (res : TestServer.ServerResponse) :
  (requested req = path ->
   TestServer.handleRequest (TestServer.addRoute path handler server) req res
   = handler req res)
  /\ (requested req <> path ->
      TestServer.handleRequest (TestServer.addRoute path handler server) req res
      = TestServer.handleRequest server req res)
  /\ (TestServer.Map_get (requested req) (TestServer.routes server) = None ->
      TestServer.handleRequest server req res
      = TestServer.mkResponse 404 (TestServer.headers res) (Some "Not Found")
          (TestServer.destroyed res))
  /\ (path = "" ->
      TestServer.handleRequest (TestServer.addRoute path handler server) req res
      = TestServer.handleRequest server req res).
Proof.
  assert (Hother :
            requested req <> path ->
            TestServer.handleRequest (TestServer.addRoute path handler server) req res
            = TestServer.handleRequest server req res).
  { intros Hne. unfold TestServer.handleRequest, TestServer.addRoute. cbn.
    fold (requested req). now rewrite (Map_get_set_other _ _ _ _ Hne). }
  split; [| split; [exact Hother | split]].
  - intros <-. unfold TestServer.handleRequest, TestServer.addRoute. cbn.
    fold (requested req). now rewrite Map_get_set_same.
  - intros Hnone. unfold TestServer.handleRequest. fold (requested req).
    now rewrite Hnone.
  - intros ->. apply Hother. apply requested_nonempty.
Qed.

Lemma route_lookup_witness :
  TestServer.handleRequest
    (TestServer.addRoute "/status" TestServer.status (TestServer.create None))
    (TestServer.mkRequest (Some "/status")) TestServer.fresh
  = TestServer.mkResponse 200 [] (Some "OK") false
  /\ TestServer.handleRequest
       (TestServer.addRoute "/status" TestServer.status (TestServer.create None))
       (TestServer.mkRequest (Some "/status?verbose=1")) TestServer.fresh
     = TestServer.mkResponse 404 [] (Some "Not Found") false.
Proof.
  split.
  - exact (proj1 (route_lookup (TestServer.create None) "/status" TestServer.status
                    (TestServer.mkRequest (Some "/status")) TestServer.fresh)
             eq_refl).
  - rewrite (proj1 (proj2 (route_lookup (TestServer.create None) "/status"
                             TestServer.status
                             (TestServer.mkRequest (Some "/status?verbose=1"))
                             TestServer.fresh))) by discriminate.
    reflexivity.
Defined.

Lemma common_routes_get (m : list (string * TestServer.Handler)) :
  let routes :=
    TestServer.routes (TestServer.addCommonRoutes (TestServer.mk m 0)) in
  TestServer.Map_get "/" routes = Some TestServer.root
  /\ TestServer.Map_get "/json" routes = Some TestServer.json
  /\ TestServer.Map_get "/redirect" routes = Some TestServer.redirect
  /\ TestServer.Map_get "/status" routes = Some TestServer.status
  /\ TestServer.Map_get "/error" routes = Some TestServer.error.
Proof.
  cbn. repeat split;
    repeat first
      [ apply Map_get_set_same
      | rewrite Map_get_set_other by discriminate ].
Qed.

(** X19.  [addCommonRoutes] on any server: a request to [/] is answered with
    the test page as text/html, one to [/json] with the post as
    application/json, one to [/redirect] with status 302 and the location
    [/], one to [/status] with [OK], each with status 200 unless said
    otherwise, and one to [/error] gets no answer, its socket is destroyed;
    routes that were registered for these paths are replaced.  A request to
    any other URL, a query string included, is answered as before; and
    adding the common routes once more changes nothing. *)
Theorem common_routes (server : TestServer.t) (req : TestServer.IncomingMessage) :
  (requested req = "/" ->
   TestServer.handleRequest (TestServer.addCommonRoutes server) req TestServer.fresh
   = TestServer.mkResponse 200 [("Content-Type", "text/html")]
       (Some TestServer.rootPage) false)
  /\ (requested req = "/json" ->
      TestServer.handleRequest (TestServer.addCommonRoutes server) req TestServer.fresh
      = TestServer.mkResponse 200 [("Content-Type", "application/json")]
          (Some TestServer.post) false)
  /\ (requested req = "/redirect" ->
      TestServer.handleRequest (TestServer.addCommonRoutes server) req TestServer.fresh
      = TestServer.mkResponse 302 [("Location", "/")] (Some "") false)
  /\ (requested req = "/status" ->
      TestServer.handleRequest (TestServer.addCommonRoutes server) req TestServer.fresh
      = TestServer.mkResponse 200 [] (Some "OK") false)
  /\ (requested req = "/error" ->
      TestServer.handleRequest (TestServer.addCommonRoutes server) req TestServer.fresh
      = TestServer.mkResponse 200 [] None true)
  /\ (~ In (requested req) commonPaths ->
      forall res : TestServer.ServerResponse,
        TestServer.handleRequest (TestServer.addCommonRoutes server) req res
        = TestServer.handleRequest server req res)
  /\ TestServer.addCommonRoutes (TestServer.addCommonRoutes server)
     = TestServer.addCommonRoutes server.
Proof.
  destruct server as [m port].
  assert (Hget := common_routes_get m). cbn zeta in Hget.
  destruct Hget as (Hroot & Hjson & Hredirect & Hstatus & Herror).
  unfold TestServer.handleRequest. fold (requested req).
  change (TestServer.routes (TestServer.addCommonRoutes (TestServer.mk m port)))
    with (TestServer.routes (TestServer.addCommonRoutes (TestServer.mk m 0))).
  repeat split.
  - intros ->. now rewrite Hroot.
  - intros ->. now rewrite Hjson.
  - intros ->. now rewrite Hredirect.
  - intros ->. now rewrite Hstatus.
  - intros ->. now rewrite Herror.
  - intros Hother res. cbn in Hother.
    cbn [TestServer.addCommonRoutes TestServer.addRoute TestServer.routes].
    rewrite !Map_get_set_other by (intros Heq; apply Hother; rewrite Heq; tauto).
    reflexivity.
  - unfold TestServer.addCommonRoutes at 1. unfold TestServer.addRoute at 1 2 3 4 5.
    cbn [TestServer.routes TestServer.port].
    change (TestServer.routes (TestServer.addCommonRoutes (TestServer.mk m port)))
      with (TestServer.routes (TestServer.addCommonRoutes (TestServer.mk m 0))).
    rewrite (Map_set_same _ _ _ Hroot), (Map_set_same _ _ _ Hjson),
      (Map_set_same _ _ _ Hredirect), (Map_set_same _ _ _ Hstatus),
      (Map_set_same _ _ _ Herror).
    reflexivity.
Qed.

Lemma common_routes_witness :
  TestServer.handleRequest
    (TestServer.addCommonRoutes (TestServer.create None))
    (TestServer.mkRequest (Some "/redirect")) TestServer.fresh
  = TestServer.mkResponse 302 [("Location", "/")] (Some "") false.
Proof.
  exact (proj1 (proj2 (proj2 (common_routes (TestServer.create None)
                                (TestServer.mkRequest (Some "/redirect")))))
           eq_refl).
Defined.
